(** * PINNICLE model data: a shallow embedding of [PINNICLE/modeldata/data.py]

    The development follows the layout of the Python module:
    - [PyDict]: Python's insertion-ordered [dict] with string keys;
    - [Py]: exceptions and the state-and-exception monad in which the
      methods run (a raised exception leaves the mutations done so far);
    - [Numpy]: the handful of [numpy] operations the module calls, on
      one-dimensional arrays, including [numpy.random.choice];
    - [ModelData]: [DataBase], [Data] and [ISSMmdData];
    - the properties of the data pipeline. *)

From Stdlib Require Import List String ZArith Lia Bool Arith PeanoNat.
From Stdlib Require Import Floats DecimalString.
Import ListNotations.
Open Scope string_scope.
Open Scope list_scope.

Set Implicit Arguments.

(* ================================================================== *)
(** ** Python dictionaries *)

(** A [dict] keeps its keys in insertion order; assigning to a key that is
    present replaces the value in place, assigning to a new key appends.
    Iteration ([for k in d]) follows [keys]. *)
Module PyDict.

Section Defs.
Variable V : Type.

Definition dict := list (string * V).

Definition empty : dict := [].

Fixpoint get (d : dict) (k : string) : option V :=
  match d with
  | [] => None
  | (k', v) :: r => if String.eqb k k' then Some v else get r k
  end.

Definition mem (k : string) (d : dict) : bool :=
  match get d k with Some _ => true | None => false end.

Fixpoint set (d : dict) (k : string) (v : V) : dict :=
  match d with
  | [] => [(k, v)]
  | (k', v') :: r =>
      if String.eqb k k' then (k', v) :: r else (k', v') :: set r k v
  end.

Definition keys (d : dict) : list string := map fst d.

Definition values (d : dict) : list V := map snd d.
End Defs.

Arguments empty {V}.

Section Facts.
Variable V : Type.
Implicit Types (d : dict V) (k : string) (v : V).

Lemma get_empty k : get (@empty V) k = None.
Proof. reflexivity. Qed.

Lemma get_set_same d k v : get (set d k v) k = Some v.
Proof.
  induction d as [|[k' v'] r IH]; simpl.
  - now rewrite String.eqb_refl.
  - destruct (String.eqb k k') eqn:E; simpl; rewrite E; auto.
Qed.

Lemma get_set_other d k k' v : k <> k' -> get (set d k v) k' = get d k'.
Proof.
  intros Hne. induction d as [|[k0 v0] r IH]; simpl.
  - destruct (String.eqb k' k) eqn:E; auto.
    apply String.eqb_eq in E. congruence.
  - destruct (String.eqb k k0) eqn:E; simpl.
    + apply String.eqb_eq in E. subst k0.
      destruct (String.eqb k' k) eqn:E'; auto.
      apply String.eqb_eq in E'. congruence.
    + now rewrite IH.
Qed.

Lemma mem_get d k : mem k d = true <-> exists v, get d k = Some v.
Proof.
  unfold mem. destruct (get d k); split; eauto; try discriminate.
  intros [v H]; discriminate.
Qed.

Lemma mem_false_get d k : mem k d = false <-> get d k = None.
Proof. unfold mem. destruct (get d k); split; congruence. Qed.

Lemma mem_keys d k : mem k d = true <-> In k (keys d).
Proof.
  unfold mem. induction d as [|[k' v'] r IH]; simpl.
  - split; [discriminate | tauto].
  - destruct (String.eqb k k') eqn:E.
    + apply String.eqb_eq in E. subst. tauto.
    + apply String.eqb_neq in E. rewrite IH. split; auto.
      intros [H|H]; congruence.
Qed.

Lemma mem_set_same d k v : mem k (set d k v) = true.
Proof. unfold mem. now rewrite get_set_same. Qed.

Lemma mem_set_other d k k' v : k <> k' -> mem k' (set d k v) = mem k' d.
Proof. intros H. unfold mem. now rewrite get_set_other. Qed.

(** Assignment keeps the order of the keys already there. *)
Lemma keys_set d k v :
  keys (set d k v) = if mem k d then keys d else keys d ++ [k].
Proof.
  unfold mem. induction d as [|[k' v'] r IH]; simpl; auto.
  destruct (String.eqb k k') eqn:E; simpl; auto.
  rewrite IH. now destruct (get r k).
Qed.

Lemma keys_nodup_set d k v : NoDup (keys d) -> NoDup (keys (set d k v)).
Proof.
  intros H. rewrite keys_set. destruct (mem k d) eqn:E; auto.
  apply NoDup_app; auto.
  - constructor; [intros [] | constructor].
  - intros x Hx [Hk|[]]. subst x. apply mem_keys in Hx. congruence.
Qed.

Lemma get_app_l d1 d2 k : mem k d1 = true -> get (d1 ++ d2) k = get d1 k.
Proof.
  unfold mem. induction d1 as [|[k' v'] r IH]; simpl; [discriminate|].
  destruct (String.eqb k k'); auto.
Qed.

Lemma get_app_r d1 d2 k : mem k d1 = false -> get (d1 ++ d2) k = get d2 k.
Proof.
  unfold mem. induction d1 as [|[k' v'] r IH]; simpl; auto.
  destruct (String.eqb k k'); [discriminate | auto].
Qed.

Lemma set_app_l d1 d2 k v :
  mem k d1 = true -> set (d1 ++ d2) k v = set d1 k v ++ d2.
Proof.
  unfold mem. induction d1 as [|[k' v'] r IH]; simpl; [discriminate|].
  destruct (String.eqb k k'); auto. intros H. now rewrite IH.
Qed.

Lemma set_app_r d1 d2 k v :
  mem k d1 = false -> set (d1 ++ d2) k v = d1 ++ set d2 k v.
Proof.
  unfold mem. induction d1 as [|[k' v'] r IH]; simpl; auto.
  destruct (String.eqb k k'); [discriminate|]. intros H. now rewrite IH.
Qed.
End Facts.

End PyDict.

Import PyDict.


(* ================================================================== *)
(** ** Exceptions and the method monad *)

(** A method call either returns a value or raises; in both cases the
    mutations it made before are kept, as for Python objects. *)
Module Py.

Inductive exn : Type :=
| KeyError (key : string)
| IndexError
| ValueError (msg : string)
| TypeError
| OSError (path : string).

Inductive result (A : Type) : Type :=
| Ok (a : A)
| Raise (e : exn).

Arguments Ok {A} a.
Arguments Raise {A} e.

Definition M (S A : Type) : Type := S -> result A * S.

Definition ret {S A : Type} (a : A) : M S A := fun s => (Ok a, s).

Definition raise {S A : Type} (e : exn) : M S A := fun s => (Raise e, s).

Definition bind {S A B : Type} (m : M S A) (f : A -> M S B) : M S B :=
  fun s =>
    match m s with
    | (Ok a, s') => f a s'
    | (Raise e, s') => (Raise e, s')
    end.

Definition lift {S A : Type} (r : result A) : M S A := fun s => (r, s).

Definition get_state {S : Type} : M S S := fun s => (Ok s, s).

Definition modify {S : Type} (f : S -> S) : M S unit := fun s => (Ok tt, f s).

(** [for x in l: body(x)] *)
Fixpoint for_each {S A : Type} (l : list A) (body : A -> M S unit) : M S unit :=
  match l with
  | [] => ret tt
  | x :: r => bind (body x) (fun _ => for_each r body)
  end.

(** [d[k]] *)
Definition getitem {V : Type} (d : dict V) (k : string) : result V :=
  match get d k with
  | Some v => Ok v
  | None => Raise (KeyError k)
  end.

Definition is_ok {A : Type} (r : result A) : bool :=
  match r with Ok _ => true | Raise _ => false end.

Declare Scope py_scope.
Delimit Scope py_scope with py.
Notation "x <- m ;; k" := (bind m (fun x => k))
  (at level 61, m at next level, right associativity) : py_scope.
Notation "m ;; k" := (bind m (fun _ => k))
  (at level 61, right associativity) : py_scope.

Lemma bind_ok {S A B : Type} (m : M S A) (f : A -> M S B) s a s' :
  m s = (Ok a, s') -> bind m f s = f a s'.
Proof. unfold bind. now intros ->. Qed.

Lemma bind_raise {S A B : Type} (m : M S A) (f : A -> M S B) s e s' :
  m s = (Raise e, s') -> bind m f s = (Raise e, s').
Proof. unfold bind. now intros ->. Qed.

Lemma bind_inv_ok {S A B : Type} (m : M S A) (f : A -> M S B) s b s2 :
  bind m f s = (Ok b, s2) ->
  exists a s1, m s = (Ok a, s1) /\ f a s1 = (Ok b, s2).
Proof.
  unfold bind. destruct (m s) as [[a|e] s1]; intros H.
  - eauto.
  - discriminate.
Qed.

Lemma getitem_ok {V : Type} (d : dict V) k v :
  getitem d k = Ok v <-> get d k = Some v.
Proof.
  unfold getitem. destruct (get d k); split; intros H;
    try discriminate; congruence.
Qed.

End Py.

Import Py.
Open Scope py_scope.


(* ================================================================== *)
(** ** The numpy operations used by the module *)

(** Element type of the arrays read from the model file: the arithmetic
    [load_data] applies and the comparisons with [0] that define the
    masks.  [Float64_prim] below is IEEE binary64, numpy's [float64]. *)
Class Scalar (F : Type) : Type := {
  f_zero : F;                (* the literal 0 of [icemask<0], [DBC>0] *)
  f_two : F;                 (* the literal 2.0 of [**2.0] *)
  f_add : F -> F -> F;
  f_div : F -> F -> F;
  f_pow : F -> F -> F;
  f_sqrt : F -> F;
  f_lt : F -> F -> bool;
  f_gt : F -> F -> bool
}.

Module Numpy.

Section Arrays.
Variable T : Type.

(** [np.asarray(m).nonzero()] on a one-dimensional boolean array: the
    indices of the true entries, increasing. *)
Fixpoint nonzero_from (i : nat) (m : list bool) : list nat :=
  match m with
  | [] => []
  | b :: r => if b then i :: nonzero_from (S i) r else nonzero_from (S i) r
  end.

Definition nonzero (m : list bool) : list nat := nonzero_from 0 m.

(** [a[idx]] with an array of indices: [IndexError] when one is out of
    bounds. *)
Fixpoint take (a : list T) (idx : list nat) : result (list T) :=
  match idx with
  | [] => Ok []
  | i :: r =>
      match nth_error a i with
      | None => Raise IndexError
      | Some v =>
          match take a r with
          | Ok vs => Ok (v :: vs)
          | Raise e => Raise e
          end
      end
  end.

(** [np.vstack((a, b))] of two arrays of the same width. *)
Definition vstack (a b : list T) : list T := a ++ b.
End Arrays.

Section Columns.
Variables A B : Type.

(** [np.hstack((a.flatten()[:,None], b.flatten()[:,None]))]: two columns
    side by side; the row counts must agree. *)
Definition hstack (a : list A) (b : list B) : result (list (A * B)) :=
  if Nat.eqb (List.length a) (List.length b) then Ok (combine a b)
  else Raise (ValueError "all the input array dimensions except for the concatenation axis must match exactly").
End Columns.

Section Arith.
Context {F : Type} `{Scalar F}.

(** [a / c], [a ** c] with a scalar [c], and [np.sqrt(a)]. *)
Definition div_scalar (a : list F) (c : F) : list F := map (fun x => f_div x c) a.
Definition pow_scalar (a : list F) (c : F) : list F := map (fun x => f_pow x c) a.
Definition sqrt (a : list F) : list F := map f_sqrt a.

Fixpoint zip_with (op : F -> F -> F) (a b : list F) : list F :=
  match a, b with
  | x :: a', y :: b' => op x y :: zip_with op a' b'
  | _, _ => []
  end.

(** The shape of a one-dimensional array of [n] entries, as numpy prints
    it: [(n,)]. *)
Definition shape_repr (n : nat) : string :=
  ("(" ++ NilEmpty.string_of_uint (Nat.to_uint n) ++ ",)")%string.

(** The error of a binary operation on two shapes that do not broadcast;
    numpy ends the message with a space. *)
Definition broadcast_error (n m : nat) : exn :=
  ValueError ("operands could not be broadcast together with shapes "
              ++ shape_repr n ++ " " ++ shape_repr m ++ " ")%string.

(** [a + b] on one-dimensional arrays, with numpy's broadcasting of a
    length-one operand. *)
Definition add (a b : list F) : result (list F) :=
  if Nat.eqb (List.length a) (List.length b) then Ok (zip_with f_add a b)
  else match a, b with
       | [x], _ => Ok (map (fun y => f_add x y) b)
       | _, [y] => Ok (map (fun x => f_add x y) a)
       | _, _ => Raise (broadcast_error (List.length a) (List.length b))
       end.

Definition lt_scalar (a : list F) (c : F) : list bool := map (fun x => f_lt x c) a.
Definition gt_scalar (a : list F) (c : F) : list bool := map (fun x => f_gt x c) a.
End Arith.

(** *** [numpy.random]

    The bit generator is a stream of raw draws with a cursor; every
    behaviour of the real generator is the behaviour of some stream. *)
Record RandomState : Type := {
  raw : nat -> nat;
  pos : nat
}.

(** A draw in the closed interval [[0, max]]. *)
Definition random_interval (max : nat) (g : RandomState) : nat * RandomState :=
  (Nat.modulo (raw g (pos g)) (S max), {| raw := raw g; pos := S (pos g) |}).

Fixpoint update (x : list nat) (i v : nat) : list nat :=
  match x, i with
  | [], _ => []
  | _ :: r, 0 => v :: r
  | a :: r, S i' => a :: update r i' v
  end.

(** [x[i], x[j] = x[j], x[i]] *)
Definition swap (x : list nat) (i j : nat) : list nat :=
  update (update x i (nth j x 0)) j (nth i x 0).

(** The loop of [shuffle]: [for i in reversed(range(1, n))], drawing
    [j] in [[0, i]] and exchanging [x[i]] and [x[j]]. *)
Fixpoint shuffle_from (i : nat) (x : list nat) (g : RandomState)
  : list nat * RandomState :=
  match i with
  | 0 => (x, g)
  | S i' =>
      let (j, g') := random_interval i g in
      shuffle_from i' (swap x i j) g'
  end.

Definition shuffle (x : list nat) (g : RandomState) : list nat * RandomState :=
  shuffle_from (List.length x - 1) x g.

(** [permutation(n)]: [arange(n)] shuffled. *)
Definition permutation (n : nat) (g : RandomState) : list nat * RandomState :=
  shuffle (seq 0 n) g.

(** [np.random.choice(a, size, replace=False)] for an integer [a]. *)
Definition choice (a : nat) (size : Z) : M RandomState (list nat) :=
  fun g =>
    if (a =? 0)%nat && negb (size =? 0)%Z then
      (Raise (ValueError "a must be greater than 0 unless no samples are taken"), g)
    else if (Z.of_nat a <? size)%Z then
      (Raise (ValueError "Cannot take a larger sample than population when 'replace=False'"), g)
    else if (size <? 0)%Z then
      (Raise (ValueError "negative dimensions are not allowed"), g)
    else
      let (p, g') := permutation a g in
      (Ok (firstn (Z.to_nat size) p), g').

End Numpy.

Import Numpy.


(* ================================================================== *)
(** ** Parameters, files and the world outside the objects *)

Section Types.
Context {F : Type}.

(** A one-dimensional per-vertex array, an N x 2 array of (x, y) rows and
    an N x 1 array. *)
Definition array : Type := list F.
Definition coords : Type := list (F * F).
Definition column : Type := list F.

(** What [mat73.loadmat] returns: [data['md']['mesh']['x']], ... *)
Definition MatFile : Type := dict (dict (dict array)).

(** The file system read by [load_data], the paths read so far, and the
    global generator of [np.random]. *)
Record World : Type := {
  files : dict MatFile;
  io_log : list string;
  gen : RandomState
}.

Definition loadmat (path : string) : M World MatFile :=
  fun w =>
    let w' := {| files := files w; io_log := io_log w ++ [path]; gen := gen w |} in
    match get (files w) path with
    | Some data => (Ok data, w')
    | None => (Raise (OSError path), w')
    end.

Definition random_choice (a : nat) (size : Z) : M World (list nat) :=
  fun w =>
    let (r, g') := choice a size (gen w) in
    (r, {| files := files w; io_log := io_log w; gen := g' |}).
End Types.

Arguments array F : clear implicits.
Arguments coords F : clear implicits.
Arguments column F : clear implicits.
Arguments MatFile F : clear implicits.
Arguments World F : clear implicits.

(** [Constants] of [..physics]: the only attribute the module reads is the
    number of seconds in a year. *)
Class Constants (F : Type) : Type := { yts : F }.

(** [SingleDataParameter] and [DataParameter] of [..parameter]: the
    attributes the module reads. *)
Module parameter.

Record SingleDataParameter : Type := {
  source : string;
  data_path : string;
  data_size : dict (option Z)
}.

Record DataParameter : Type := {
  data : dict SingleDataParameter
}.

End parameter.

Import parameter.


(* ================================================================== *)
(** ** [class DataBase(ABC)] *)

Module DataBase.

Section Defs.
Context {F : Type}.

(** The attributes set by [DataBase.__init__]. *)
Record t : Type := {
  parameters : SingleDataParameter;
  X_dict : dict (array F);
  data_dict : dict (array F);
  mask_dict : dict (array F);
  X : option (dict (coords F));
  sol : option (dict (column F))
}.

Definition __init__ (parameters : SingleDataParameter) : t :=
  {| parameters := parameters;
     X_dict := empty; data_dict := empty; mask_dict := empty;
     X := None; sol := None |}.

(** A method runs on its object and the world. *)
Definition St : Type := (t * World F)%type.

Definition self : M St t := fun s => (Ok (fst s), s).

Definition update_self (f : t -> t) : M St unit :=
  fun s => (Ok tt, (f (fst s), snd s)).

Definition in_world {A : Type} (m : M (World F) A) : M St A :=
  fun s => let (r, w') := m (snd s) in (r, (fst s, w')).

Definition set_X_dict (d : dict (array F)) (o : t) : t :=
  {| parameters := parameters o; X_dict := d; data_dict := data_dict o;
     mask_dict := mask_dict o; X := X o; sol := sol o |}.

Definition set_data_dict (d : dict (array F)) (o : t) : t :=
  {| parameters := parameters o; X_dict := X_dict o; data_dict := d;
     mask_dict := mask_dict o; X := X o; sol := sol o |}.

Definition set_mask_dict (d : dict (array F)) (o : t) : t :=
  {| parameters := parameters o; X_dict := X_dict o; data_dict := data_dict o;
     mask_dict := d; X := X o; sol := sol o |}.

Definition set_X (d : option (dict (coords F))) (o : t) : t :=
  {| parameters := parameters o; X_dict := X_dict o; data_dict := data_dict o;
     mask_dict := mask_dict o; X := d; sol := sol o |}.

Definition set_sol (d : option (dict (column F))) (o : t) : t :=
  {| parameters := parameters o; X_dict := X_dict o; data_dict := data_dict o;
     mask_dict := mask_dict o; X := X o; sol := d |}.

(** A concrete subclass: its tag, its constructor and the three abstract
    methods. *)
Record class : Type := {
  _DATA_TYPE : string;
  init : SingleDataParameter -> t;
  get_ice_coordinates : string -> M St (coords F);
  load_data : M St unit;
  prepare_training_data : M St unit
}.

(** An instance remembers its class. *)
Definition instance : Type := (class * t)%type.

(** [__init_subclass__]: [cls.subclasses[cls._DATA_TYPE] = cls] *)
Definition __init_subclass__ (subclasses : dict class) (cls : class) : dict class :=
  set subclasses (_DATA_TYPE cls) cls.

(** [DataBase.create(data_type, parameters=...)] *)
Definition create (subclasses : dict class) (data_type : string)
    (parameters : SingleDataParameter) : M (World F) instance :=
  if negb (mem data_type subclasses) then
    raise (ValueError ("Data type " ++ data_type ++ " is not defined"))
  else
    cls <- lift (getitem subclasses data_type) ;;
    ret (cls, init cls parameters).
End Defs.

Arguments t F : clear implicits.
Arguments St F : clear implicits.
Arguments class F : clear implicits.
Arguments instance F : clear implicits.

End DataBase.


(* ================================================================== *)
(** ** [class ISSMmdData(DataBase, Constants)] *)

Module ISSMmdData.
Import DataBase.

Section Defs.
Context {F : Type} `{Scalar F} `{Constants F}.

Definition _DATA_TYPE : string := "ISSM".

Definition __init__ (parameters : SingleDataParameter) : DataBase.t F :=
  DataBase.__init__ parameters.

(** [self.X[k] = v] and [self.sol[k] = v]; the attributes are [None] until
    [prepare_training_data] has run. *)
Definition setitem_X (k : string) (v : coords F) : M (St F) unit :=
  o <- self ;;
  match X o with
  | Some d => update_self (set_X (Some (set d k v)))
  | None => raise TypeError
  end.

Definition setitem_sol (k : string) (v : column F) : M (St F) unit :=
  o <- self ;;
  match sol o with
  | Some d => update_self (set_sol (Some (set d k v)))
  | None => raise TypeError
  end.

Definition get_ice_indices (mask_name : string) : M (St F) (list nat) :=
  o <- self ;;
  let mask_name :=
    if String.eqb mask_name "" || negb (mem mask_name (mask_dict o))
    then "icemask" else mask_name in
  icemask <- lift (getitem (mask_dict o) mask_name) ;;
  ret (nonzero (lt_scalar icemask f_zero)).

(** [np.hstack((self.X_dict['x'][i].flatten()[:,None],
                self.X_dict['y'][i].flatten()[:,None]))] *)
Definition coordinates_at (i : list nat) : M (St F) (coords F) :=
  o <- self ;;
  x <- lift (getitem (X_dict o) "x") ;;
  xi <- lift (take x i) ;;
  y <- lift (getitem (X_dict o) "y") ;;
  yi <- lift (take y i) ;;
  lift (hstack xi yi).

Definition get_ice_coordinates (mask_name : string) : M (St F) (coords F) :=
  iice <- get_ice_indices mask_name ;;
  coordinates_at iice.

(** [md[group][name]] *)
Definition field (md : dict (dict (array F))) (group name : string)
  : M (St F) (array F) :=
  g <- lift (getitem md group) ;;
  lift (getitem g name).

Definition load_data : M (St F) unit :=
  o <- self ;;
  data <- in_world (loadmat (data_path (parameters o))) ;;
  md <- lift (getitem data "md") ;;
  x <- field md "mesh" "x" ;;
  update_self (fun o => set_X_dict (set (X_dict o) "x" x) o) ;;
  y <- field md "mesh" "y" ;;
  update_self (fun o => set_X_dict (set (X_dict o) "y" y) o) ;;
  vx_obs <- field md "inversion" "vx_obs" ;;
  update_self (fun o => set_data_dict (set (data_dict o) "u" (div_scalar vx_obs yts)) o) ;;
  vy_obs <- field md "inversion" "vy_obs" ;;
  update_self (fun o => set_data_dict (set (data_dict o) "v" (div_scalar vy_obs yts)) o) ;;
  s <- field md "geometry" "surface" ;;
  update_self (fun o => set_data_dict (set (data_dict o) "s" s) o) ;;
  H <- field md "geometry" "thickness" ;;
  update_self (fun o => set_data_dict (set (data_dict o) "H" H) o) ;;
  C <- field md "friction" "C" ;;
  update_self (fun o => set_data_dict (set (data_dict o) "C" C) o) ;;
  B <- field md "materials" "rheology_B" ;;
  update_self (fun o => set_data_dict (set (data_dict o) "B" B) o) ;;
  o <- self ;;
  u <- lift (getitem (data_dict o) "u") ;;
  v <- lift (getitem (data_dict o) "v") ;;
  uv <- lift (add (pow_scalar u f_two) (pow_scalar v f_two)) ;;
  update_self (fun o => set_data_dict (set (data_dict o) "vel" (sqrt uv)) o) ;;
  icemask <- field md "mask" "ice_levelset" ;;
  update_self (fun o => set_mask_dict (set (mask_dict o) "icemask" icemask) o) ;;
  DBC <- field md "mesh" "vertexonboundary" ;;
  update_self (fun o => set_mask_dict (set (mask_dict o) "DBC_mask" DBC) o).

(** The body of the loop of [prepare_training_data] for the field [k]. *)
Definition sample_field (data_size : dict (option Z)) (iice : list nat)
    (X_temp : coords F) (max_data_size : nat) (idbc : list nat)
    (X_bc : coords F) (k : string) : M (St F) unit :=
  if mem k data_size then
    size <- lift (getitem data_size k) ;;
    match size with
    | Some n =>
        o <- self ;;
        a <- lift (getitem (data_dict o) k) ;;
        sol_temp <- lift (take a iice) ;;
        idx <- in_world (random_choice max_data_size
                           (Z.min n (Z.of_nat max_data_size))) ;;
        Xk <- lift (take X_temp idx) ;;
        setitem_X k Xk ;;
        solk <- lift (take sol_temp idx) ;;
        setitem_sol k solk
    | None =>
        setitem_X k X_bc ;;
        o <- self ;;
        a <- lift (getitem (data_dict o) k) ;;
        solk <- lift (take a idbc) ;;
        setitem_sol k solk
    end
  else ret tt.

Definition prepare_training_data (data_size : option (dict (option Z)))
  : M (St F) unit :=
  o <- self ;;
  let data_size :=
    match data_size with
    | None => parameter.data_size (parameters o)
    | Some ds => ds
    end in
  update_self (set_X (Some empty)) ;;
  update_self (set_sol (Some empty)) ;;
  iice <- get_ice_indices "" ;;
  X_temp <- coordinates_at iice ;;
  let max_data_size := List.length X_temp in
  o <- self ;;
  DBC <- lift (getitem (mask_dict o) "DBC_mask") ;;
  let idbc := nonzero (gt_scalar DBC f_zero) in
  X_bc <- coordinates_at idbc ;;
  o <- self ;;
  for_each (keys (data_dict o))
    (sample_field data_size iice X_temp max_data_size idbc X_bc).

(** [{k: self.data_dict[k] for k in data_names}] *)
Fixpoint select (d : dict (array F)) (data_names : list string)
    (acc : dict (array F)) : result (dict (array F)) :=
  match data_names with
  | [] => Ok acc
  | k :: r =>
      match getitem d k with
      | Ok v => select d r (set acc k v)
      | Raise e => Raise e
      end
  end.

(** [plot(data_names, ...)].  [plot_dict_data] of [..utils] does the
    drawing; it stands here for the call with [vranges], [axs],
    [resolution] and the keyword arguments passed through, and [plot]
    returns what it returns. *)
Definition plot {R : Type}
    (plot_dict_data : dict (array F) -> dict (array F) -> M (St F) R)
    (data_names : list string) : M (St F) R :=
  o <- self ;;
  let data_names :=
    match data_names with
    | [] => keys (data_dict o)
    | _ :: _ => filter (fun k => mem k (data_dict o)) data_names
    end in
  data_dict' <- lift (select (data_dict o) data_names empty) ;;
  plot_dict_data (X_dict o) data_dict'.

(** The class object registered under ["ISSM"]. *)
Definition cls : DataBase.class F :=
  {| DataBase._DATA_TYPE := _DATA_TYPE;
     DataBase.init := __init__;
     DataBase.get_ice_coordinates := get_ice_coordinates;
     DataBase.load_data := load_data;
     DataBase.prepare_training_data := prepare_training_data None |}.
End Defs.

End ISSMmdData.

(** The registry after the module is imported: the class statement of
    [ISSMmdData] has run [__init_subclass__]. *)
Definition subclasses {F : Type} `{Scalar F} `{Constants F} : dict (DataBase.class F) :=
  DataBase.__init_subclass__ empty ISSMmdData.cls.


(* ================================================================== *)
(** ** [class Data(Constants)] *)

Module Data.

Section Defs.
Context {F : Type}.

Record t : Type := {
  parameters : DataParameter;
  data : dict (DataBase.instance F);
  X : dict (coords F);
  sol : dict (column F)
}.

Definition St : Type := (t * World F)%type.

Definition self : M St t := fun s => (Ok (fst s), s).

Definition set_data (d : dict (DataBase.instance F)) (o : t) : t :=
  {| parameters := parameters o; data := d; X := X o; sol := sol o |}.

Definition set_X (d : dict (coords F)) (o : t) : t :=
  {| parameters := parameters o; data := data o; X := d; sol := sol o |}.

Definition set_sol (d : dict (column F)) (o : t) : t :=
  {| parameters := parameters o; data := data o; X := X o; sol := d |}.

(** [self.data[k].meth(...)]: the call mutates the loader stored under
    [k], whether it returns or raises. *)
Definition call {A : Type} (k : string)
    (meth : DataBase.class F -> M (DataBase.St F) A) : M St A :=
  fun s =>
    match get (data (fst s)) k with
    | None => (Raise (KeyError k), s)
    | Some (c, o) =>
        match meth c (o, snd s) with
        | (r, (o', w')) => (r, (set_data (set (data (fst s)) k (c, o')) (fst s), w'))
        end
    end.

(** Run a computation on [self.X], respectively [self.sol]. *)
Definition on_X {A : Type} (m : M (dict (coords F)) A) : M St A :=
  fun s => let (r, d) := m (X (fst s)) in (r, (set_X d (fst s), snd s)).

Definition on_sol {A : Type} (m : M (dict (column F)) A) : M St A :=
  fun s => let (r, d) := m (sol (fst s)) in (r, (set_sol d (fst s), snd s)).

(** [{k: DataBase.create(parameters.data[k].source,
                         parameters=parameters.data[k]) for k in ks}] *)
Fixpoint create_all (subclasses : dict (DataBase.class F))
    (p : dict SingleDataParameter) (ks : list string)
    (acc : dict (DataBase.instance F)) : M (World F) (dict (DataBase.instance F)) :=
  match ks with
  | [] => ret acc
  | k :: r =>
      pk <- lift (getitem p k) ;;
      inst <- DataBase.create subclasses (source pk) pk ;;
      create_all subclasses p r (set acc k inst)
  end.

Definition __init__ (subclasses : dict (DataBase.class F))
    (parameters : DataParameter) : M (World F) t :=
  d <- create_all subclasses (parameter.data parameters)
         (keys (parameter.data parameters)) empty ;;
  ret {| parameters := parameters; data := d; X := empty; sol := empty |}.

(** [[self.data[k].get_ice_coordinates(mask_name=mask_name) for k in ks]] *)
Fixpoint ice_coordinates_of (mask_name : string) (ks : list string)
  : M St (list (coords F)) :=
  match ks with
  | [] => ret []
  | k :: r =>
      c <- call k (fun cls => DataBase.get_ice_coordinates cls mask_name) ;;
      cs <- ice_coordinates_of mask_name r ;;
      ret (c :: cs)
  end.

Definition get_ice_coordinates (mask_name : string) : M St (coords F) :=
  s <- self ;;
  cs <- ice_coordinates_of mask_name (keys (data s)) ;;
  match cs with
  | [] => raise (ValueError "need at least one array to concatenate")
  | _ => ret (List.concat cs)
  end.

Definition load_data : M St unit :=
  s <- self ;;
  for_each (keys (data s)) (fun k => call k (@DataBase.load_data F)).

(** [self.data[key].X] and [self.data[key].sol], as iterated by the
    merge loops. *)
Definition loader_X (key : string) : M St (dict (coords F)) :=
  s <- self ;;
  inst <- lift (getitem (data s) key) ;;
  match DataBase.X (snd inst) with
  | Some d => ret d
  | None => raise TypeError
  end.

Definition loader_sol (key : string) : M St (dict (column F)) :=
  s <- self ;;
  inst <- lift (getitem (data s) key) ;;
  match DataBase.sol (snd inst) with
  | Some d => ret d
  | None => raise TypeError
  end.

(** One round of a merge loop, on the aggregate dictionary:
    [if xkey not in agg: agg[xkey] = src[xkey]
     else: agg[xkey] = np.vstack((agg[xkey], src[xkey]))] *)
Definition merge_key {T : Type} (src : dict (list T)) (xkey : string)
  : M (dict (list T)) unit :=
  agg <- get_state ;;
  if negb (mem xkey agg) then
    v <- lift (getitem src xkey) ;;
    modify (fun agg => set agg xkey v)
  else
    old <- lift (getitem agg xkey) ;;
    v <- lift (getitem src xkey) ;;
    modify (fun agg => set agg xkey (vstack old v)).

Definition merge {T : Type} (src : dict (list T)) : M (dict (list T)) unit :=
  for_each (keys src) (merge_key src).

(** The loader's dictionaries do not change during the merge loops, so
    they are read once before each. *)
Definition prepare_training_data : M St unit :=
  s <- self ;;
  for_each (keys (data s)) (fun key =>
    call key (@DataBase.prepare_training_data F) ;;
    lX <- loader_X key ;;
    on_X (merge lX) ;;
    lsol <- loader_sol key ;;
    on_sol (merge lsol)).
End Defs.

Arguments t F : clear implicits.
Arguments St F : clear implicits.

End Data.


(* ================================================================== *)
(** ** A concrete instance: IEEE binary64 and a five-vertex mesh *)

Module Example.

Local Open Scope float_scope.

(** numpy evaluates [a ** 2.0] as the square of [a]; no other exponent
    occurs in the module. *)
Definition pow_prim (x c : float) : float :=
  if PrimFloat.eqb c 2 then PrimFloat.mul x x else nan.

#[export] Instance Float64_prim : Scalar float := {
  f_zero := 0;
  f_two := 2;
  f_add := PrimFloat.add;
  f_div := PrimFloat.div;
  f_pow := pow_prim;
  f_sqrt := PrimFloat.sqrt;
  f_lt := PrimFloat.ltb;
  f_gt := fun a b => PrimFloat.ltb b a
}.

(** [yts = 3600*24*365] *)
#[export] Instance Constants_prim : Constants float := { yts := 31536000 }.

(** A model with five vertices: vertex 2 is ice free, vertices 0 and 4 lie
    on the boundary. *)
Definition mesh_x : array float := [0; 1; 2; 3; 4].
Definition mesh_y : array float := [0; 10; 20; 30; 40].
Definition vertexonboundary : array float := [1; 0; 0; 0; 1].
Definition vx_obs : array float := [31536000; 63072000; 0; 94608000; 0].
Definition vy_obs : array float := [0; 0; 31536000; 126144000; 0].
Definition surface : array float := [100; 110; 120; 130; 140].
Definition thickness : array float := [50; 60; 70; 80; 90].
Definition friction_C : array float := [5; 6; 7; 8; 9].
Definition rheology_B : array float := [11; 12; 13; 14; 15].
Definition ice_levelset : array float := [-1; -1; 1; -1; -1].

Definition md : dict (dict (array float)) :=
  [ ("mesh", [ ("x", mesh_x); ("y", mesh_y);
               ("vertexonboundary", vertexonboundary) ]);
    ("inversion", [ ("vx_obs", vx_obs); ("vy_obs", vy_obs) ]);
    ("geometry", [ ("surface", surface); ("thickness", thickness) ]);
    ("friction", [ ("C", friction_C) ]);
    ("materials", [ ("rheology_B", rheology_B) ]);
    ("mask", [ ("ice_levelset", ice_levelset) ]) ].

Definition Helheim : MatFile float := [ ("md", md) ].

Definition stream : RandomState := {| raw := fun i => (3 + i)%nat; pos := 0 |}.

(** The file system holds the one model file. *)
Definition world : World float :=
  {| files := [ ("Helheim_fastflow.mat", Helheim) ]; io_log := []; gen := stream |}.

Definition hp (path : string) (size : dict (option Z)) : SingleDataParameter :=
  {| source := "ISSM"; data_path := path; data_size := size |}.

(** The loader [ISSMmdData(parameters=hp(path, size))] once [load_data()]
    has read the model. *)
Definition loader (path : string) (size : dict (option Z)) : DataBase.t float :=
  {| DataBase.parameters := hp path size;
     DataBase.X_dict := [ ("x", mesh_x); ("y", mesh_y) ];
     DataBase.data_dict :=
       [ ("u", [1; 2; 0; 3; 0]); ("v", [0; 0; 1; 4; 0]);
         ("s", surface); ("H", thickness); ("C", friction_C);
         ("B", rheology_B); ("vel", [1; 2; 1; 5; 0]) ];
     DataBase.mask_dict :=
       [ ("icemask", ice_levelset); ("DBC_mask", vertexonboundary) ];
     DataBase.X := None; DataBase.sol := None |}.

(** The world after [n] reads of the model file. *)
Definition world_read (log : list string) : World float :=
  {| files := files world; io_log := log; gen := stream |}.

End Example.


(* ================================================================== *)
(** ** Facts about the numpy operations *)

From Stdlib Require Import Permutation FinFun.

Module NumpyFacts.

Section Take.
Variable T : Type.
Implicit Types (a : list T) (idx : list nat).

(** [a[idx]] returns exactly when every index is in bounds, and then row
    [i] of the result is [a[idx[i]]]. *)
Lemma take_spec a idx vs :
  take a idx = Ok vs <-> Forall2 (fun i v => nth_error a i = Some v) idx vs.
Proof.
  revert vs. induction idx as [|i r IH]; intros vs; simpl.
  - split; intros H0.
    + injection H0 as <-. constructor.
    + inversion H0. reflexivity.
  - destruct (nth_error a i) as [v|] eqn:E.
    + destruct (take a r) as [ws|e] eqn:Er.
      * split; intros H0.
        -- injection H0 as <-. constructor; auto. now apply IH.
        -- inversion H0 as [|? w ? ws' Hh Ht]; subst.
           apply IH in Ht. congruence.
      * split; intros H0; [discriminate|].
        inversion H0 as [|? w ? ws' Hh Ht]; subst.
        apply IH in Ht. discriminate.
    + split; intros H0; [discriminate|].
      inversion H0 as [|? w ? ws' Hh Ht]; subst. congruence.
Qed.

Lemma take_length a idx vs : take a idx = Ok vs -> List.length vs = List.length idx.
Proof.
  intros H0. apply take_spec in H0. symmetry. eapply Forall2_length; eauto.
Qed.

Lemma take_total a idx :
  Forall (fun i => i < List.length a) idx -> exists vs, take a idx = Ok vs.
Proof.
  induction 1 as [|i r Hi _ [vs IH]]; simpl; eauto.
  destruct (nth_error a i) eqn:E.
  - rewrite IH. eauto.
  - apply nth_error_None in E. lia.
Qed.

Lemma take_in_bounds a idx vs :
  take a idx = Ok vs -> Forall (fun i => i < List.length a) idx.
Proof.
  intros H0. apply take_spec in H0.
  induction H0; constructor; auto.
  apply nth_error_Some. congruence.
Qed.

Lemma take_nth_error a idx vs j i :
  take a idx = Ok vs -> nth_error idx j = Some i ->
  exists v, nth_error vs j = Some v /\ nth_error a i = Some v.
Proof.
  intros H0. apply take_spec in H0. revert j.
  induction H0 as [|i0 v0 r vs' Hh _ IH]; intros [|j] Hj; simpl in *;
    try discriminate.
  - injection Hj as ->. eauto.
  - auto.
Qed.
End Take.

(** Indexing twice is indexing once through the composed indices:
    [a[i1][i2] = a[i1[i2]]]. *)
Lemma take_compose (T : Type) (a : list T) i1 b i2 vs :
  take a i1 = Ok b -> take b i2 = Ok vs ->
  exists c, take i1 i2 = Ok c /\ take a c = Ok vs.
Proof.
  intros Hb. revert vs. induction i2 as [|j r IH]; intros vs Hvs; simpl in *.
  - injection Hvs as <-. exists []. auto.
  - destruct (nth_error b j) as [v|] eqn:Ej; [|discriminate].
    destruct (take b r) as [ws|] eqn:Er; [|discriminate].
    injection Hvs as <-.
    destruct (IH ws eq_refl) as (c & Hc & Hac).
    destruct (nth_error i1 j) as [i|] eqn:Ei.
    + destruct (@take_nth_error _ _ _ _ _ _ Hb Ei) as (v' & Hv' & Hai).
      rewrite Hc. eexists; split; [reflexivity|]. simpl.
      rewrite Hai, Hac. congruence.
    + apply nth_error_None in Ei. apply take_length in Hb.
      assert (j < List.length b) by (apply nth_error_Some; congruence). lia.
Qed.

Section Nonzero.

Lemma nonzero_from_ge i m v : In v (nonzero_from i m) -> i <= v.
Proof.
  revert i. induction m as [|b r IH]; intros i Hv; simpl in *; [tauto|].
  destruct b; [destruct Hv as [<-|Hv]; auto|]; apply IH in Hv; lia.
Qed.

Lemma nonzero_from_spec i m v :
  In v (nonzero_from i m) <-> i <= v /\ nth_error m (v - i) = Some true.
Proof.
  revert i. induction m as [|b r IH]; intros i; simpl.
  - split; [tauto|]. intros [_ Hn]. now destruct (v - i).
  - assert (Hr : In v (nonzero_from (S i) r) <->
                 i < v /\ nth_error (b :: r) (v - i) = Some true).
    { rewrite IH. split; intros [Hle Hn]; split; try lia.
      - replace (v - i) with (S (v - S i)) by lia. exact Hn.
      - replace (v - i) with (S (v - S i)) in Hn by lia. exact Hn. }
    destruct b; simpl; rewrite Hr; split.
    + intros [<-|[Hlt Hn]]; [rewrite Nat.sub_diag; auto | split; [lia|auto]].
    + intros [Hle Hn]. destruct (Nat.eq_dec i v) as [->|Hne]; auto.
      right. split; [lia|auto].
    + intros [Hlt Hn]. split; [lia|auto].
    + intros [Hle Hn]. destruct (Nat.eq_dec i v) as [->|Hne].
      * rewrite Nat.sub_diag in Hn. discriminate.
      * split; [lia|auto].
Qed.

Lemma nonzero_from_NoDup i m : NoDup (nonzero_from i m).
Proof.
  revert i. induction m as [|b r IH]; intros i; simpl; [constructor|].
  destruct b; auto. constructor; auto.
  intros Hin. apply nonzero_from_ge in Hin. lia.
Qed.

(** The indices returned by [nonzero] are exactly the positions of the
    true entries, each once. *)
Lemma nonzero_spec m v : In v (nonzero m) <-> nth_error m v = Some true.
Proof.
  unfold nonzero. rewrite nonzero_from_spec, Nat.sub_0_r.
  split; [tauto | split; [lia | auto]].
Qed.

Lemma nonzero_NoDup m : NoDup (nonzero m).
Proof. apply nonzero_from_NoDup. Qed.

Lemma nonzero_in_bounds m : Forall (fun v => v < List.length m) (nonzero m).
Proof.
  apply Forall_forall. intros v Hv. apply nonzero_spec in Hv.
  apply nth_error_Some. congruence.
Qed.
End Nonzero.

Section Shuffle.

Lemma length_update x i v : List.length (update x i v) = List.length x.
Proof.
  revert i. induction x as [|a r IH]; intros [|i]; simpl; auto.
Qed.

Lemma nth_error_update x i v k :
  i < List.length x ->
  nth_error (update x i v) k = if Nat.eqb k i then Some v else nth_error x k.
Proof.
  revert i k. induction x as [|a r IH]; intros i k Hi; simpl in *; [lia|].
  destruct i as [|i]; destruct k as [|k]; simpl; auto.
  apply IH. lia.
Qed.

(** The exchange of positions [i] and [j], as a function on positions. *)
Definition transpose (i j k : nat) : nat :=
  if Nat.eqb k j then i else if Nat.eqb k i then j else k.

Lemma transpose_injective i j : Injective (transpose i j).
Proof.
  intros a b. unfold transpose.
  destruct (Nat.eqb_spec a j), (Nat.eqb_spec a i),
    (Nat.eqb_spec b j), (Nat.eqb_spec b i); lia.
Qed.

Lemma nth_error_swap x i j k :
  i < List.length x -> j < List.length x ->
  nth_error (swap x i j) k = nth_error x (transpose i j k).
Proof.
  intros Hi Hj. unfold swap, transpose.
  rewrite nth_error_update by (rewrite length_update; auto).
  rewrite nth_error_update by auto.
  destruct (Nat.eqb_spec k j) as [->|Hkj].
  - symmetry. now apply nth_error_nth'.
  - destruct (Nat.eqb_spec k i) as [->|Hki]; auto.
    symmetry. now apply nth_error_nth'.
Qed.

Lemma swap_Permutation x i j :
  i < List.length x -> j < List.length x -> Permutation x (swap x i j).
Proof.
  intros Hi Hj. apply Permutation_nth_error. split.
  - unfold swap. now rewrite !length_update.
  - exists (transpose i j). split; [apply transpose_injective|].
    intros k. now apply nth_error_swap.
Qed.

Lemma random_interval_le max g : fst (random_interval max g) <= max.
Proof.
  unfold random_interval. simpl.
  pose proof (Nat.mod_upper_bound (raw g (pos g)) (S max)). lia.
Qed.

Lemma shuffle_from_Permutation i x g :
  i < List.length x \/ i = 0 -> Permutation x (fst (shuffle_from i x g)).
Proof.
  revert x g. induction i as [|i IH]; intros x g Hi; [simpl; auto|].
  pose proof (random_interval_le (S i) g) as Hj.
  change (shuffle_from (S i) x g)
    with (let (j, g') := random_interval (S i) g in
          shuffle_from i (swap x (S i) j) g').
  destruct (random_interval (S i) g) as [j g']. simpl in Hj.
  assert (Hlen : S i < List.length x) by lia.
  etransitivity; [apply (@swap_Permutation x (S i) j); lia|].
  apply IH. left. unfold swap. rewrite !length_update. lia.
Qed.

(** [permutation(n)] is a rearrangement of [0, ..., n-1]. *)
Lemma permutation_Permutation n g : Permutation (seq 0 n) (fst (permutation n g)).
Proof.
  unfold permutation, shuffle. apply shuffle_from_Permutation.
  rewrite length_seq. lia.
Qed.

(** What [np.random.choice(a, size, replace=False)] returns: [size]
    pairwise distinct indices below [a]. *)
Lemma choice_spec a size g idx g' :
  choice a size g = (Ok idx, g') ->
  (0 <= size <= Z.of_nat a)%Z /\
  List.length idx = Z.to_nat size /\ NoDup idx /\ Forall (fun i => i < a) idx.
Proof.
  unfold choice. intros Hc.
  destruct ((a =? 0)%nat && negb (size =? 0)%Z); [discriminate|].
  destruct (Z.ltb_spec (Z.of_nat a) size); [discriminate|].
  destruct (Z.ltb_spec size 0); [discriminate|].
  pose proof (permutation_Permutation a g) as Hp.
  destruct (permutation a g) as [p g1]. simpl in Hp.
  injection Hc as <- <-.
  assert (Hlen : List.length p = a).
  { rewrite <- (Permutation_length Hp). apply length_seq. }
  assert (Hnd : NoDup p) by (eapply Permutation_NoDup; [exact Hp | apply seq_NoDup]).
  split; [lia|]. split; [|split].
  - rewrite length_firstn. lia.
  - rewrite <- (firstn_skipn (Z.to_nat size) p) in Hnd.
    now apply NoDup_app_remove_r in Hnd.
  - apply Forall_forall. intros i Hi.
    assert (Hin : In i p).
    { rewrite <- (firstn_skipn (Z.to_nat size) p). apply in_or_app. auto. }
    apply (Permutation_in _ (Permutation_sym Hp)) in Hin.
    apply in_seq in Hin. lia.
Qed.

(** It raises only for a negative size or one above the population. *)
Lemma choice_total a size g :
  (0 <= size <= Z.of_nat a)%Z -> exists idx g', choice a size g = (Ok idx, g').
Proof.
  intros Hs. unfold choice.
  destruct (Nat.eqb_spec a 0) as [->|Ha]; simpl.
  - assert (size = 0%Z) as -> by lia. simpl.
    destruct (permutation 0 g). eauto.
  - destruct (Z.ltb_spec (Z.of_nat a) size); [lia|].
    destruct (Z.ltb_spec size 0); [lia|].
    destruct (permutation a g). eauto.
Qed.
End Shuffle.

End NumpyFacts.


(* ================================================================== *)
(** ** Stepping through method bodies *)

Module Steps.

Lemma ret_inv {S A : Type} (a b : A) (s s' : S) :
  ret a s = (Ok b, s') -> b = a /\ s' = s.
Proof. unfold ret. intros E. now injection E as <- <-. Qed.

Lemma lift_inv {S A : Type} (r : result A) (a : A) (s s' : S) :
  lift r s = (Ok a, s') -> r = Ok a /\ s' = s.
Proof. unfold lift. intros E. now injection E as <- <-. Qed.

Lemma raise_inv {S A : Type} (e : exn) (a : A) (s s' : S) :
  raise e s = (Ok a, s') -> False.
Proof. unfold raise. discriminate. Qed.

Lemma self_inv {F : Type} (s s' : DataBase.St F) o :
  DataBase.self s = (Ok o, s') -> o = fst s /\ s' = s.
Proof. unfold DataBase.self. intros E. now injection E as <- <-. Qed.

Lemma update_self_inv {F : Type} f (s s' : DataBase.St F) u :
  DataBase.update_self f s = (Ok u, s') -> s' = (f (fst s), snd s).
Proof. unfold DataBase.update_self. intros E. now injection E as _ <-. Qed.

Lemma in_world_inv {F A : Type} (m : M (World F) A) (s s' : DataBase.St F) a :
  DataBase.in_world m s = (Ok a, s') ->
  exists w', m (snd s) = (Ok a, w') /\ s' = (fst s, w').
Proof.
  unfold DataBase.in_world. destruct (m (snd s)) as [r w'].
  intros E. injection E as -> <-. eauto.
Qed.

End Steps.

Import Steps.

(* ================================================================== *)
(** ** The ISSM loader: masks and coordinates *)

Import NumpyFacts.

Module ISSMFacts.
Import DataBase ISSMmdData.

Section Facts.
Context {F : Type} `{Scalar F} `{Constants F}.
Implicit Types (o : DataBase.t F) (w : World F).

(** The ice-covered vertices of a level-set mask and the boundary vertices
    of a membership mask. *)
Definition ice_vertices (icemask : array F) : list nat :=
  nonzero (lt_scalar icemask f_zero).

Definition boundary_vertices (DBC : array F) : list nat :=
  nonzero (gt_scalar DBC f_zero).

Lemma ice_vertices_spec icemask v :
  In v (ice_vertices icemask) <->
  exists m, nth_error icemask v = Some m /\ f_lt m f_zero = true.
Proof.
  unfold ice_vertices, lt_scalar. rewrite nonzero_spec, nth_error_map.
  destruct (nth_error icemask v) as [m|]; simpl; split.
  - intros E. injection E as E. eauto.
  - intros (m' & E & Hm). injection E as <-. now rewrite Hm.
  - discriminate.
  - intros (m' & E & _). discriminate.
Qed.

Lemma boundary_vertices_spec DBC v :
  In v (boundary_vertices DBC) <->
  exists m, nth_error DBC v = Some m /\ f_gt m f_zero = true.
Proof.
  unfold boundary_vertices, gt_scalar. rewrite nonzero_spec, nth_error_map.
  destruct (nth_error DBC v) as [m|]; simpl; split.
  - intros E. injection E as E. eauto.
  - intros (m' & E & Hm). injection E as <-. now rewrite Hm.
  - discriminate.
  - intros (m' & E & _). discriminate.
Qed.

Lemma ice_vertices_in_bounds icemask :
  Forall (fun v => v < List.length icemask) (ice_vertices icemask).
Proof.
  unfold ice_vertices. pose proof (nonzero_in_bounds (lt_scalar icemask f_zero)) as Hb.
  unfold lt_scalar in Hb at 1. now rewrite length_map in Hb.
Qed.

Lemma boundary_vertices_in_bounds DBC :
  Forall (fun v => v < List.length DBC) (boundary_vertices DBC).
Proof.
  unfold boundary_vertices. pose proof (nonzero_in_bounds (gt_scalar DBC f_zero)) as Hb.
  unfold gt_scalar in Hb at 1. now rewrite length_map in Hb.
Qed.

(** The mask name [get_ice_indices] ends up reading. *)
Definition resolved_mask (o : DataBase.t F) (mask_name : string) : string :=
  if String.eqb mask_name "" || negb (mem mask_name (mask_dict o))
  then "icemask" else mask_name.

Lemma get_ice_indices_eq mask_name o w :
  get_ice_indices mask_name (o, w) =
  match get (mask_dict o) (resolved_mask o mask_name) with
  | Some icemask => (Ok (ice_vertices icemask), (o, w))
  | None => (Raise (KeyError (resolved_mask o mask_name)), (o, w))
  end.
Proof.
  unfold get_ice_indices, resolved_mask, bind, self, lift, getitem, ret. simpl.
  destruct (get (mask_dict o) _); reflexivity.
Qed.

(** [coordinates_at] reads the two coordinate arrays and nothing else. *)
Lemma coordinates_at_eq idx o w x y xi yi :
  get (X_dict o) "x" = Some x -> get (X_dict o) "y" = Some y ->
  take x idx = Ok xi -> take y idx = Ok yi ->
  coordinates_at idx (o, w) = (Ok (combine xi yi), (o, w)).
Proof.
  intros Hx Hy Hxi Hyi.
  unfold coordinates_at, bind, self, lift, getitem, hstack. simpl.
  rewrite Hx, Hxi, Hy, Hyi.
  rewrite (take_length _ _ Hxi), (take_length _ _ Hyi), Nat.eqb_refl.
  reflexivity.
Qed.

Lemma coordinates_at_inv idx o w rows s' :
  coordinates_at idx (o, w) = (Ok rows, s') ->
  s' = (o, w) /\
  exists x y xi yi,
    get (X_dict o) "x" = Some x /\ get (X_dict o) "y" = Some y /\
    take x idx = Ok xi /\ take y idx = Ok yi /\ rows = combine xi yi.
Proof.
  unfold coordinates_at, bind, self, lift, getitem, hstack. simpl.
  destruct (get (X_dict o) "x") as [x|]; [|simpl; discriminate].
  destruct (take x idx) as [xi|] eqn:Hxi; [|simpl; discriminate].
  destruct (get (X_dict o) "y") as [y|]; [|simpl; discriminate].
  destruct (take y idx) as [yi|] eqn:Hyi; [|simpl; discriminate].
  destruct (Nat.eqb _ _); [|simpl; discriminate].
  intros E. injection E as <- <-. split; auto.
  exists x, y, xi, yi. auto.
Qed.

(** *** One round of the sampling loop, as a step relation *)

Section Sampling.
Variables (data_size : dict (option Z)) (iice : list nat) (X_temp : coords F)
  (idbc : list nat) (X_bc : coords F).

Definition with_gen (g : RandomState) w : World F :=
  {| files := files w; io_log := io_log w; gen := g |}.

Definition with_samples (dx : dict (coords F)) (dsol : dict (column F)) o
  : DataBase.t F :=
  set_sol (Some dsol) (set_X (Some dx) o).

Inductive sampled (k : string) : DataBase.St F -> DataBase.St F -> Prop :=
| sampled_skip s :
    mem k data_size = false ->
    sampled k s s
| sampled_boundary o w dx dsol a solk :
    get data_size k = Some None ->
    X o = Some dx -> sol o = Some dsol ->
    get (data_dict o) k = Some a ->
    take a idbc = Ok solk ->
    sampled k (o, w) (with_samples (set dx k X_bc) (set dsol k solk) o, w)
| sampled_random o w dx dsol n a sol_temp idx g' Xk solk :
    get data_size k = Some (Some n) ->
    X o = Some dx -> sol o = Some dsol ->
    get (data_dict o) k = Some a ->
    take a iice = Ok sol_temp ->
    choice (List.length X_temp) (Z.min n (Z.of_nat (List.length X_temp))) (gen w)
      = (Ok idx, g') ->
    take X_temp idx = Ok Xk ->
    take sol_temp idx = Ok solk ->
    sampled k (o, w) (with_samples (set dx k Xk) (set dsol k solk) o, with_gen g' w).

Definition round : string -> M (DataBase.St F) unit :=
  sample_field data_size iice X_temp (List.length X_temp) idbc X_bc.

Lemma sample_field_sampled k s s' :
  round k s = (Ok tt, s') <-> sampled k s s'.
Proof.
  destruct s as [o w]. unfold round, sample_field. split.
  - destruct (mem k data_size) eqn:Hm.
    + unfold bind at 1, lift at 1, getitem at 1.
      apply mem_get in Hm. destruct Hm as [size Hsize]. rewrite Hsize.
      destruct size as [n|].
      * unfold setitem_X, setitem_sol, in_world, random_choice.
        unfold bind, self, lift, getitem, update_self, raise. simpl.
        destruct (get (data_dict o) k) as [a|] eqn:Ha; [|simpl; discriminate].
        destruct (take a iice) as [sol_temp|] eqn:Hst; [|simpl; discriminate].
        destruct (choice _ _ (gen w)) as [[idx|] g'] eqn:Hc; [|simpl; discriminate].
        simpl.
        destruct (take X_temp idx) as [Xk|] eqn:HXk; [|simpl; discriminate].
        destruct (X o) as [dx|] eqn:HX; [|simpl; discriminate]. simpl.
        destruct (take sol_temp idx) as [solk|] eqn:Hsk; [|simpl; discriminate].
        destruct (sol o) as [dsol|] eqn:Hsol; [|simpl; discriminate]. simpl.
        intros E. injection E as <-.
        eapply sampled_random; eauto.
      * unfold setitem_X, setitem_sol.
        unfold bind, self, lift, getitem, update_self, raise. simpl.
        destruct (X o) as [dx|] eqn:HX; [|simpl; discriminate]. simpl.
        destruct (get (data_dict o) k) as [a|] eqn:Ha; [|simpl; discriminate].
        destruct (take a idbc) as [solk|] eqn:Hsk; [|simpl; discriminate].
        destruct (sol o) as [dsol|] eqn:Hsol; [|simpl; discriminate]. simpl.
        intros E. injection E as <-.
        eapply sampled_boundary; eauto.
    + intros E. apply ret_inv in E. destruct E as [_ ->].
      now apply sampled_skip.
  - intros Hs. inversion Hs; subst.
    + match goal with Hm : mem k data_size = false |- _ => rewrite Hm end.
      reflexivity.
    + match goal with Hg : get data_size k = Some None |- _ =>
        assert (Hm : mem k data_size = true) by (apply mem_get; eauto);
        rewrite Hm; unfold bind at 1, lift at 1, getitem at 1; rewrite Hg
      end.
      unfold setitem_X, setitem_sol.
      unfold bind, self, lift, getitem, update_self. simpl.
      repeat match goal with
             | E : _ = Some _ |- _ => rewrite E; clear E; simpl
             | E : _ = Ok _ |- _ => rewrite E; clear E; simpl
             end.
      reflexivity.
    + match goal with Hg : get data_size k = Some (Some _) |- _ =>
        assert (Hm : mem k data_size = true) by (apply mem_get; eauto);
        rewrite Hm; unfold bind at 1, lift at 1, getitem at 1; rewrite Hg
      end.
      unfold setitem_X, setitem_sol, in_world, random_choice.
      unfold bind, self, lift, getitem, update_self. simpl.
      repeat match goal with
             | E : _ = Some _ |- _ => rewrite E; clear E; simpl
             | E : _ = Ok _ |- _ => rewrite E; clear E; simpl
             | E : _ = (Ok _, _) |- _ => rewrite E; clear E; simpl
             end.
      reflexivity.
Qed.

(** The whole loop is a chain of rounds. *)
Inductive sampled_all : list string -> DataBase.St F -> DataBase.St F -> Prop :=
| sampled_nil s : sampled_all [] s s
| sampled_cons k r s1 s2 s3 :
    sampled k s1 s2 -> sampled_all r s2 s3 -> sampled_all (k :: r) s1 s3.

Lemma for_each_sampled_all ks s s' :
  for_each ks round s = (Ok tt, s') <-> sampled_all ks s s'.
Proof.
  revert s. induction ks as [|k r IH]; intros s; simpl.
  - split.
    + intros E. apply ret_inv in E. destruct E as [_ ->]. constructor.
    + intros Hs. inversion Hs; subst. reflexivity.
  - split.
    + intros E. apply bind_inv_ok in E. destruct E as ([] & s1 & Hk & Hr).
      econstructor; [apply sample_field_sampled; exact Hk | now apply IH].
    + intros Hs. inversion Hs as [|? ? ? s2 ? Hk Hr]; subst.
      apply sample_field_sampled in Hk. apply IH in Hr.
      now rewrite (bind_ok _ _ _ Hk).
Qed.

(** A round touches only [X], [sol] and the generator. *)
Definition same_data (o o' : DataBase.t F) : Prop :=
  DataBase.parameters o' = DataBase.parameters o /\
  X_dict o' = X_dict o /\ data_dict o' = data_dict o /\
  mask_dict o' = mask_dict o.

Definition same_files (w w' : World F) : Prop :=
  files w' = files w /\ io_log w' = io_log w.

Lemma sampled_frame k s s' :
  sampled k s s' -> same_data (fst s) (fst s') /\ same_files (snd s) (snd s').
Proof.
  unfold same_data, same_files. destruct 1; simpl; intuition.
Qed.

Lemma sampled_all_frame ks s s' :
  sampled_all ks s s' -> same_data (fst s) (fst s') /\ same_files (snd s) (snd s').
Proof.
  unfold same_data, same_files. induction 1 as [|k r s1 s2 s3 Hk _ IH]; auto.
  apply sampled_frame in Hk. unfold same_data, same_files in Hk.
  intuition congruence.
Qed.

(** What a round leaves under the key it samples. *)
Definition entry (dd : dict (array F)) (k : string) (Xk : coords F)
    (solk : column F) : Prop :=
  match get data_size k with
  | Some None =>
      Xk = X_bc /\ exists a, get dd k = Some a /\ take a idbc = Ok solk
  | Some (Some n) =>
      exists a sol_temp idx,
        get dd k = Some a /\ take a iice = Ok sol_temp /\
        (0 <= n)%Z /\
        List.length idx = Z.to_nat (Z.min n (Z.of_nat (List.length X_temp))) /\
        NoDup idx /\ Forall (fun i => i < List.length X_temp) idx /\
        take X_temp idx = Ok Xk /\ take sol_temp idx = Ok solk
  | None => False
  end.

Definition has_entry (dd : dict (array F)) (k : string) (s : DataBase.St F) : Prop :=
  exists dx dsol Xk solk,
    X (fst s) = Some dx /\ sol (fst s) = Some dsol /\
    get dx k = Some Xk /\ get dsol k = Some solk /\ entry dd k Xk solk.

Lemma sampled_entry_step k' k s s' :
  sampled k' s s' ->
  (k' = k /\ mem k data_size = true) \/ has_entry (data_dict (fst s)) k s ->
  has_entry (data_dict (fst s')) k s'.
Proof.
  intros Hs Hk.
  destruct Hs as [s Hm | o w dx dsol a solk Hsz HX Hsol Ha Hsk
                 | o w dx dsol n a sol_temp idx g' Xk solk Hsz HX Hsol Ha Hst Hc HXk Hsk].
  - destruct Hk as [[-> Hm']|Hk]; [congruence | exact Hk].
  - destruct (string_dec k' k) as [->|Hne].
    + exists (set dx k X_bc), (set dsol k solk), X_bc, solk. simpl.
      rewrite !get_set_same. repeat split; auto.
      unfold entry. rewrite Hsz. eauto.
    + destruct Hk as [[E _]|(dx0 & dsol0 & Xk & solk0 & HX0 & Hsol0 & Hg & Hgs & He)];
        [congruence|]. simpl in *.
      exists (set dx k' X_bc), (set dsol k' solk), Xk, solk0.
      rewrite !get_set_other by auto.
      repeat split; auto; congruence.
  - destruct (string_dec k' k) as [->|Hne].
    + exists (set dx k Xk), (set dsol k solk), Xk, solk. simpl.
      rewrite !get_set_same. repeat split; auto.
      unfold entry. rewrite Hsz.
      destruct (choice_spec _ _ _ Hc) as (Hrange & Hlen & Hnd & Hb).
      exists a, sol_temp, idx. repeat split; auto. lia.
    + destruct Hk as [[E _]|(dx0 & dsol0 & Xk0 & solk0 & HX0 & Hsol0 & Hg & Hgs & He)];
        [congruence|]. simpl in *.
      exists (set dx k' Xk), (set dsol k' solk), Xk0, solk0.
      rewrite !get_set_other by auto.
      repeat split; auto; congruence.
Qed.

Lemma sampled_all_entry ks k s s' :
  sampled_all ks s s' ->
  (In k ks /\ mem k data_size = true) \/ has_entry (data_dict (fst s)) k s ->
  has_entry (data_dict (fst s')) k s'.
Proof.
  induction 1 as [|k' r s1 s2 s3 Hk' _ IH]; intros Hk.
  - destruct Hk as [[[] _]|Hk]. exact Hk.
  - apply IH. destruct Hk as [[[->|Hin] Hm]|Hk].
    + right. eapply sampled_entry_step; eauto.
    + left. auto.
    + right. eapply sampled_entry_step; eauto.
Qed.

(** The keys of [X] and [sol] after the loop: those there before and the
    sampled fields that [data_size] names. *)
Lemma sampled_keys k' s s' dx dsol :
  sampled k' s s' -> X (fst s) = Some dx -> sol (fst s) = Some dsol ->
  exists dx' dsol',
    X (fst s') = Some dx' /\ sol (fst s') = Some dsol' /\
    forall k, (mem k dx' = true <->
               mem k dx = true \/ (k' = k /\ mem k data_size = true)) /\
              (mem k dsol' = true <->
               mem k dsol = true \/ (k' = k /\ mem k data_size = true)).
Proof.
  intros Hs HX Hsol.
  destruct Hs as [s Hm | o w dx0 dsol0 a solk Hsz HX0 Hsol0 Ha Hsk
                 | o w dx0 dsol0 n a sol_temp idx g' Xk solk Hsz HX0 Hsol0 Ha Hst Hc HXk Hsk];
    simpl in *.
  - exists dx, dsol. repeat split; auto; intros [Hk|[-> Hk]]; auto; congruence.
  - assert (dx0 = dx) as -> by congruence. assert (dsol0 = dsol) as -> by congruence.
    assert (Hm : mem k' data_size = true) by (apply mem_get; eauto).
    eexists _, _. split; [reflexivity|]. split; [reflexivity|].
    intros k. destruct (string_dec k' k) as [->|Hne].
    + rewrite !mem_set_same. tauto.
    + rewrite !mem_set_other by auto. tauto.
  - assert (dx0 = dx) as -> by congruence. assert (dsol0 = dsol) as -> by congruence.
    assert (Hm : mem k' data_size = true) by (apply mem_get; eauto).
    eexists _, _. split; [reflexivity|]. split; [reflexivity|].
    intros k. destruct (string_dec k' k) as [->|Hne].
    + rewrite !mem_set_same. tauto.
    + rewrite !mem_set_other by auto. tauto.
Qed.

Lemma sampled_all_keys ks s s' dx dsol :
  sampled_all ks s s' -> X (fst s) = Some dx -> sol (fst s) = Some dsol ->
  exists dx' dsol',
    X (fst s') = Some dx' /\ sol (fst s') = Some dsol' /\
    forall k, (mem k dx' = true <->
               mem k dx = true \/ (In k ks /\ mem k data_size = true)) /\
              (mem k dsol' = true <->
               mem k dsol = true \/ (In k ks /\ mem k data_size = true)).
Proof.
  intros Hs. revert dx dsol.
  induction Hs as [s|k' r s1 s2 s3 Hk' _ IH]; intros dx dsol HX Hsol.
  - exists dx, dsol. repeat split; auto; intros [Hk|[[] _]]; auto.
  - destruct (sampled_keys Hk' HX Hsol) as (dx1 & dsol1 & HX1 & Hsol1 & H1).
    destruct (IH _ _ HX1 Hsol1) as (dx2 & dsol2 & HX2 & Hsol2 & H2).
    exists dx2, dsol2. split; auto. split; auto.
    intros k. destruct (H1 k) as [H1a H1b]. destruct (H2 k) as [H2a H2b].
    simpl. rewrite H2a, H2b, H1a, H1b. intuition.
Qed.

(** The loop returns when the arrays are long enough for the indices and
    no requested count is negative. *)
Lemma sampled_all_total ks s :
  (exists dx, X (fst s) = Some dx) -> (exists dsol, sol (fst s) = Some dsol) ->
  List.length iice = List.length X_temp ->
  (forall k, In k ks -> exists a,
     get (data_dict (fst s)) k = Some a /\
     Forall (fun i => i < List.length a) iice /\
     Forall (fun i => i < List.length a) idbc) ->
  (forall k n, In k ks -> get data_size k = Some (Some n) -> (0 <= n)%Z) ->
  exists s', sampled_all ks s s'.
Proof.
  intros HX Hsol Hlen. revert s HX Hsol.
  induction ks as [|k r IH]; intros [o w] [dx HX] [dsol Hsol] Hdd Hsz.
  - eexists. constructor.
  - assert (Hstep : exists s1, sampled k (o, w) s1).
    { destruct (get data_size k) as [[n|]|] eqn:Hk.
      - destruct (Hdd k (or_introl eq_refl)) as (a & Ha & Hi & _).
        destruct (take_total a Hi) as [sol_temp Hst].
        specialize (Hsz k n (or_introl eq_refl) Hk).
        destruct (@choice_total (List.length X_temp)
                    (Z.min n (Z.of_nat (List.length X_temp))) (gen w))
          as (idx & g' & Hc); [lia|].
        destruct (choice_spec _ _ _ Hc) as (_ & _ & _ & Hb).
        destruct (take_total X_temp Hb) as [Xk HXk].
        assert (Hb' : Forall (fun i => i < List.length sol_temp) idx).
        { rewrite (take_length _ _ Hst), Hlen. exact Hb. }
        destruct (take_total sol_temp Hb') as [solk Hsk].
        eexists. eapply sampled_random; eauto.
      - destruct (Hdd k (or_introl eq_refl)) as (a & Ha & _ & Hi).
        destruct (take_total a Hi) as [solk Hsk].
        eexists. eapply sampled_boundary; eauto.
      - eexists. apply sampled_skip. now apply mem_false_get. }
    destruct Hstep as [s1 Hs1].
    destruct (sampled_keys Hs1 HX Hsol) as (dx1 & dsol1 & HX1 & Hsol1 & _).
    destruct (sampled_frame Hs1) as [(_ & _ & Hd & _) _]. simpl in Hd.
    destruct (IH s1) as [s2 Hs2]; eauto.
    + intros k' Hin. rewrite Hd. apply Hdd. now right.
    + intros k' n Hin. apply Hsz. now right.
    + exists s2. econstructor; eauto.
Qed.

End Sampling.

(** *** [prepare_training_data] on a loaded loader *)

(** A loader after [load_data]: the coordinates and masks are there and
    every per-vertex array has one entry per vertex. *)
Record loaded (o : DataBase.t F) (x y icemask DBC : array F) : Prop := {
  loaded_x : get (X_dict o) "x" = Some x;
  loaded_y : get (X_dict o) "y" = Some y;
  loaded_icemask : get (mask_dict o) "icemask" = Some icemask;
  loaded_DBC : get (mask_dict o) "DBC_mask" = Some DBC;
  aligned_y : List.length y = List.length x;
  aligned_icemask : List.length icemask = List.length x;
  aligned_DBC : List.length DBC = List.length x;
  aligned_fields : forall k a,
    get (data_dict o) k = Some a -> List.length a = List.length x
}.

(** The [data_size] the method works with. *)
Definition requested (arg : option (dict (option Z))) (o : DataBase.t F)
  : dict (option Z) :=
  match arg with
  | None => parameter.data_size (DataBase.parameters o)
  | Some ds => ds
  end.

(** No sampled field is asked for a negative number of rows. *)
Definition counts_ok (ds : dict (option Z)) (o : DataBase.t F) : Prop :=
  forall k n, In k (keys (data_dict o)) -> get ds k = Some (Some n) -> (0 <= n)%Z.

Lemma loaded_same_data o o' x y icemask DBC :
  same_data o o' -> loaded o x y icemask DBC -> loaded o' x y icemask DBC.
Proof.
  intros (Hp & Hx & Hd & Hm) [].
  constructor; rewrite ?Hx, ?Hd, ?Hm; auto.
Qed.

Lemma prepare_training_data_eq arg o w x y icemask DBC xi yi xb yb :
  loaded o x y icemask DBC ->
  take x (ice_vertices icemask) = Ok xi ->
  take y (ice_vertices icemask) = Ok yi ->
  take x (boundary_vertices DBC) = Ok xb ->
  take y (boundary_vertices DBC) = Ok yb ->
  prepare_training_data arg (o, w) =
  for_each (keys (data_dict o))
    (round (requested arg o) (ice_vertices icemask) (combine xi yi)
       (boundary_vertices DBC) (combine xb yb))
    (with_samples empty empty o, w).
Proof.
  intros [Hx Hy Hice HDBC _ _ _ _] Hxi Hyi Hxb Hyb.
  unfold prepare_training_data.
  unfold bind at 1, self at 1. simpl.
  unfold bind at 1, update_self at 1. simpl.
  unfold bind at 1, update_self at 1. simpl.
  unfold bind at 1. rewrite get_ice_indices_eq.
  unfold resolved_mask. simpl. rewrite Hice.
  unfold bind at 1.
  rewrite (@coordinates_at_eq _ _ _ x y xi yi) by auto.
  unfold bind at 1, self at 1. simpl.
  unfold bind at 1, lift at 1, getitem. simpl. rewrite HDBC.
  unfold bind at 1.
  rewrite (@coordinates_at_eq _ _ _ x y xb yb) by auto.
  unfold bind at 1, self at 1. simpl.
  reflexivity.
Qed.

Lemma prepare_training_data_loaded arg o w x y icemask DBC :
  loaded o x y icemask DBC -> counts_ok (requested arg o) o ->
  exists xi yi xb yb s',
    take x (ice_vertices icemask) = Ok xi /\
    take y (ice_vertices icemask) = Ok yi /\
    take x (boundary_vertices DBC) = Ok xb /\
    take y (boundary_vertices DBC) = Ok yb /\
    prepare_training_data arg (o, w) = (Ok tt, s') /\
    sampled_all (requested arg o) (ice_vertices icemask) (combine xi yi)
      (boundary_vertices DBC) (combine xb yb)
      (keys (data_dict o)) (with_samples empty empty o, w) s'.
Proof.
  intros Hl Hc. pose proof Hl as [Hx Hy Hice HDBC Hly Hlm HlD Hlf].
  pose proof (ice_vertices_in_bounds icemask) as Hbi. rewrite Hlm in Hbi.
  pose proof (boundary_vertices_in_bounds DBC) as Hbb. rewrite HlD in Hbb.
  destruct (take_total x Hbi) as [xi Hxi].
  destruct (take_total x Hbb) as [xb Hxb].
  rewrite <- Hly in Hbi, Hbb.
  destruct (take_total y Hbi) as [yi Hyi].
  destruct (take_total y Hbb) as [yb Hyb].
  rewrite Hly in Hbi, Hbb.
  destruct (@sampled_all_total (requested arg o) (ice_vertices icemask)
              (combine xi yi) (boundary_vertices DBC) (combine xb yb)
              (keys (data_dict o)) (with_samples empty empty o, w))
    as [s' Hs']; simpl; eauto.
  - rewrite length_combine, (take_length _ _ Hxi), (take_length _ _ Hyi). lia.
  - intros k Hk. apply mem_keys, mem_get in Hk. destruct Hk as [a Ha].
    exists a. rewrite (Hlf _ _ Ha). auto.
  - exists xi, yi, xb, yb, s'. repeat split; auto.
    rewrite (prepare_training_data_eq arg w Hl Hxi Hyi Hxb Hyb).
    now apply for_each_sampled_all.
Qed.

End Facts.
End ISSMFacts.


(* ================================================================== *)
(** ** Properties of the ISSM loader *)

Section ListFacts.
Variables A B C : Type.

Lemma nth_error_combine (a : list A) (b : list B) i u v :
  nth_error (combine a b) i = Some (u, v) <->
  nth_error a i = Some u /\ nth_error b i = Some v.
Proof.
  revert b i. induction a as [|a0 a IH]; intros [|b0 b] [|i]; simpl;
    try (split; [discriminate | intros [? ?]; discriminate]).
  - split; [intros E; injection E as <- <-; auto | intros [E1 E2]; congruence].
  - apply IH.
Qed.

Lemma Forall2_join (P : A -> B -> Prop) (Q : A -> C -> Prop) l lb lc :
  Forall2 P l lb -> Forall2 Q l lc ->
  Forall2 (fun b c => exists a, P a b /\ Q a c) lb lc.
Proof.
  intros HP. revert lc. induction HP as [|a b l lb Hab _ IH]; intros lc HQ;
    inversion HQ; subst; constructor; eauto.
Qed.

Lemma take_NoDup (l : list A) idx vs :
  take l idx = Ok vs -> NoDup l -> NoDup idx -> NoDup vs.
Proof.
  intros Ht Hl Hi. apply take_spec in Ht.
  induction Ht as [|i v idx vs Hiv Ht IH]; [constructor|].
  inversion Hi as [|? ? Hnotin Hnd]; subst. constructor; auto.
  intros Hin. apply Hnotin. clear IH Hnd Hnotin Hi.
  induction Ht as [|i' v' idx vs Hiv' _ IH]; [destruct Hin|].
  destruct Hin as [->|Hin]; [left | right; auto].
  rewrite NoDup_nth_error in Hl. symmetry. apply Hl; [|congruence].
  apply nth_error_Some. congruence.
Qed.

Lemma take_In (l : list A) idx vs :
  take l idx = Ok vs -> Forall (fun v => In v l) vs.
Proof.
  intros Ht. apply take_spec in Ht.
  induction Ht; constructor; auto. eapply nth_error_In; eauto.
Qed.
End ListFacts.

Section LoaderProperties.
Import DataBase ISSMmdData ISSMFacts.
Context {F : Type} `{Scalar F} `{Constants F}.
Implicit Types (o : DataBase.t F) (w : World F).

(** Rows of [X[k]] against the vertices they were read at. *)
Definition coords_at (x y : array F) (vs : list nat) (rows : coords F) : Prop :=
  Forall2 (fun v row => nth_error x v = Some (fst row) /\
                        nth_error y v = Some (snd row)) vs rows.

(** Rows of [sol[k]] against the vertices they were read at. *)
Definition values_at (a : array F) (vs : list nat) (rows : column F) : Prop :=
  Forall2 (fun v s => nth_error a v = Some s) vs rows.

Lemma take_combine_coords_at (x y : array F) iice xi yi idx vs rows :
  take x iice = Ok xi -> take y iice = Ok yi ->
  take iice idx = Ok vs -> take (combine xi yi) idx = Ok rows ->
  coords_at x y vs rows.
Proof.
  intros Hxi Hyi Hvs Hrows. unfold coords_at.
  apply take_spec in Hvs. apply take_spec in Hrows.
  eapply Forall2_impl; [|exact (Forall2_join Hvs Hrows)].
  intros v [rx ry] (i & Hi & Hr). simpl.
  apply nth_error_combine in Hr. destruct Hr as [Hrx Hry].
  destruct (@take_nth_error _ _ _ _ _ _ Hxi Hi) as (u & Hu & Hxu).
  destruct (@take_nth_error _ _ _ _ _ _ Hyi Hi) as (u' & Hu' & Hyu).
  split; congruence.
Qed.

(** The coordinates of a list of vertices, as [coordinates_at] stacks them. *)
Lemma combine_coords_at (x y : array F) vs xs ys :
  take x vs = Ok xs -> take y vs = Ok ys -> coords_at x y vs (combine xs ys).
Proof.
  intros Hx Hy. apply take_spec in Hx. apply take_spec in Hy. unfold coords_at.
  revert ys Hy. induction Hx as [|v u vs xs Hu _ IH]; intros ys Hy;
    inversion Hy; subst; simpl; constructor; auto.
Qed.

(** [self.X[k]] and [self.sol[k]], when present. *)
Definition X_at o (k : string) : option (coords F) :=
  match X o with Some d => get d k | None => None end.

Definition sol_at o (k : string) : option (column F) :=
  match sol o with Some d => get d k | None => None end.

(** C1. On a loaded loader, a field [k] of [data_dict] with
    [data_size[k] = n > 0] gets [min(n, max_data_size)] rows in [X[k]] and
    in [sol[k]], where [max_data_size] counts the vertices with ice mask
    below zero; the rows are drawn at pairwise distinct row indices
    [idx] of the ice region, that is at pairwise distinct ice vertices
    [vs], and row [i] of [X[k]] holds the coordinates and row [i] of
    [sol[k]] the field value of the same vertex [vs[i]]. *)
Theorem prepare_training_data_samples arg o w x y icemask DBC k n :
  loaded o x y icemask DBC ->
  counts_ok (requested arg o) o ->
  In k (keys (data_dict o)) ->
  get (requested arg o) k = Some (Some n) ->
  (0 < n)%Z ->
  exists o' w' Xk solk a idx vs,
    prepare_training_data arg (o, w) = (Ok tt, (o', w')) /\
    X_at o' k = Some Xk /\ sol_at o' k = Some solk /\
    List.length Xk = Nat.min (Z.to_nat n) (List.length (ice_vertices icemask)) /\
    List.length solk = Nat.min (Z.to_nat n) (List.length (ice_vertices icemask)) /\
    NoDup idx /\
    Forall (fun i => i < List.length (ice_vertices icemask)) idx /\
    take (ice_vertices icemask) idx = Ok vs /\
    NoDup vs /\
    get (data_dict o) k = Some a /\
    coords_at x y vs Xk /\ values_at a vs solk.
Proof.
  intros Hl Hc Hk Hn Hpos.
  destruct (prepare_training_data_loaded arg w Hl Hc)
    as (xi & yi & xb & yb & [o' w'] & Hxi & Hyi & Hxb & Hyb & Hrun & Hall).
  assert (Hmem : mem k (requested arg o) = true) by (apply mem_get; eauto).
  pose proof (sampled_all_frame Hall) as [(_ & _ & Hdd & _) _]. simpl in Hdd.
  pose proof (sampled_all_entry (k:=k) Hall (or_introl (conj Hk Hmem)))
    as (dx & dsol & Xk & solk & HX & Hsol & HXk & Hsolk & He).
  simpl in HX, Hsol, He. unfold entry in He. rewrite Hn, Hdd in He.
  destruct He as (a & sol_temp & idx & Ha & Hst & _ & Hlen & Hnd & Hb & HtX & Hts).
  assert (Hmax : List.length (combine xi yi) = List.length (ice_vertices icemask)).
  { rewrite length_combine, (take_length _ _ Hxi), (take_length _ _ Hyi). lia. }
  rewrite Hmax in Hlen, Hb.
  destruct (@take_compose _ _ _ _ _ _ Hst Hts) as (vs & Hvs & Havs).
  exists o', w', Xk, solk, a, idx, vs.
  unfold X_at, sol_at. rewrite HX, Hsol.
  assert (Hrows : List.length idx
                  = Nat.min (Z.to_nat n) (List.length (ice_vertices icemask))).
  { rewrite Hlen, Z2Nat.inj_min, Nat2Z.id. reflexivity. }
  repeat split; auto.
  - rewrite (take_length _ _ HtX). exact Hrows.
  - rewrite (take_length _ _ Hts). exact Hrows.
  - eapply take_NoDup; eauto. apply nonzero_NoDup.
  - eapply take_combine_coords_at; [exact Hxi | exact Hyi | exact Hvs | exact HtX].
  - apply take_spec. exact Havs.
Qed.

(** The call leaves the loaded dictionaries, the parameters, the files and
    the read log as they were. *)
Lemma prepare_training_data_frame arg o w x y icemask DBC o' w' :
  loaded o x y icemask DBC -> counts_ok (requested arg o) o ->
  prepare_training_data arg (o, w) = (Ok tt, (o', w')) ->
  same_data o o' /\ same_files w w' /\
  loaded o' x y icemask DBC /\ requested arg o' = requested arg o /\
  counts_ok (requested arg o') o'.
Proof.
  intros Hl Hc Hrun.
  destruct (prepare_training_data_loaded arg w Hl Hc)
    as (xi & yi & xb & yb & s' & _ & _ & _ & _ & Hrun' & Hall).
  rewrite Hrun in Hrun'. injection Hrun' as <-.
  destruct (sampled_all_frame Hall) as [Hd Hf]. simpl in Hd, Hf.
  assert (Hsame : same_data o o') by exact Hd.
  assert (Hreq : requested arg o' = requested arg o).
  { destruct Hsame as (Hp & _). destruct arg; simpl; congruence. }
  split; [exact Hsame|]. split; [exact Hf|].
  split; [eapply loaded_same_data; eauto|]. split; [exact Hreq|].
  rewrite Hreq. unfold counts_ok. destruct Hsame as (_ & _ & -> & _). exact Hc.
Qed.

Lemma boundary_once arg o w x y icemask DBC k xb yb a solk :
  loaded o x y icemask DBC -> counts_ok (requested arg o) o ->
  In k (keys (data_dict o)) -> get (requested arg o) k = Some None ->
  take x (boundary_vertices DBC) = Ok xb ->
  take y (boundary_vertices DBC) = Ok yb ->
  get (data_dict o) k = Some a ->
  take a (boundary_vertices DBC) = Ok solk ->
  exists o' w',
    prepare_training_data arg (o, w) = (Ok tt, (o', w')) /\
    X_at o' k = Some (combine xb yb) /\ sol_at o' k = Some solk.
Proof.
  intros Hl Hc Hk Hn Hxb Hyb Ha Hsolk.
  destruct (prepare_training_data_loaded arg w Hl Hc)
    as (xi & yi & xb' & yb' & [o' w'] & Hxi & Hyi & Hxb' & Hyb' & Hrun & Hall).
  assert (xb' = xb) as -> by congruence. assert (yb' = yb) as -> by congruence.
  assert (Hmem : mem k (requested arg o) = true) by (apply mem_get; eauto).
  pose proof (sampled_all_frame Hall) as [(_ & _ & Hdd & _) _]. simpl in Hdd.
  pose proof (sampled_all_entry (k:=k) Hall (or_introl (conj Hk Hmem)))
    as (dx & dsol & Xk & solk' & HX & Hsol & HXk & Hsolk' & He).
  simpl in HX, Hsol, He. unfold entry in He. rewrite Hn, Hdd in He.
  destruct He as (-> & a' & Ha' & Hs').
  assert (a' = a) as -> by congruence. assert (solk' = solk) as -> by congruence.
  exists o', w'. unfold X_at, sol_at. rewrite HX, Hsol. auto.
Qed.

(** C2. On a loaded loader, a field [k] of [data_dict] with
    [data_size[k] = None] gets in [X[k]] the coordinates of all the
    vertices with [DBC_mask > 0], in order, and in [sol[k]] the field
    values at those vertices; these rows do not depend on the generator,
    and a second call right after the first returns the same rows. *)
Theorem prepare_training_data_boundary arg o x y icemask DBC k :
  loaded o x y icemask DBC ->
  counts_ok (requested arg o) o ->
  In k (keys (data_dict o)) ->
  get (requested arg o) k = Some None ->
  exists a Xk solk,
    get (data_dict o) k = Some a /\
    coords_at x y (boundary_vertices DBC) Xk /\
    values_at a (boundary_vertices DBC) solk /\
    (forall v, In v (boundary_vertices DBC) <->
               exists m, nth_error DBC v = Some m /\ f_gt m f_zero = true) /\
    forall w, exists o1 w1 o2 w2,
      prepare_training_data arg (o, w) = (Ok tt, (o1, w1)) /\
      X_at o1 k = Some Xk /\ sol_at o1 k = Some solk /\
      prepare_training_data arg (o1, w1) = (Ok tt, (o2, w2)) /\
      X_at o2 k = Some Xk /\ sol_at o2 k = Some solk.
Proof.
  intros Hl Hc Hk Hn.
  pose proof Hl as [Hx Hy Hice HDBC Hly Hlm HlD Hlf].
  pose proof Hk as Hk'. apply mem_keys, mem_get in Hk'. destruct Hk' as [a Ha].
  pose proof (boundary_vertices_in_bounds DBC) as Hb. rewrite HlD in Hb.
  destruct (take_total x Hb) as [xb Hxb].
  assert (Hby : Forall (fun v => v < List.length y) (boundary_vertices DBC))
    by now rewrite Hly.
  destruct (take_total y Hby) as [yb Hyb].
  assert (Hba : Forall (fun v => v < List.length a) (boundary_vertices DBC))
    by now rewrite (Hlf _ _ Ha).
  destruct (take_total a Hba) as [solk Hsolk].
  exists a, (combine xb yb), solk.
  split; [exact Ha|]. split; [now apply combine_coords_at|].
  split; [now apply take_spec|]. split; [apply boundary_vertices_spec|].
  intros w.
  destruct (@boundary_once arg o w x y icemask DBC k xb yb a solk Hl Hc Hk Hn Hxb Hyb Ha Hsolk)
    as (o1 & w1 & Hrun1 & HX1 & Hs1).
  destruct (@prepare_training_data_frame arg o w x y icemask DBC o1 w1 Hl Hc Hrun1)
    as ((_ & _ & Hdd & _) & _ & Hl1 & Hreq & Hc1).
  assert (Hk1 : In k (keys (data_dict o1))) by now rewrite Hdd.
  assert (Hn1 : get (requested arg o1) k = Some None) by now rewrite Hreq.
  assert (Ha1 : get (data_dict o1) k = Some a) by now rewrite Hdd.
  destruct (@boundary_once arg o1 w1 x y icemask DBC k xb yb a solk Hl1 Hc1 Hk1 Hn1 Hxb Hyb Ha1 Hsolk)
    as (o2 & w2 & Hrun2 & HX2 & Hs2).
  exists o1, w1, o2, w2. auto 10.
Qed.

(** C5. After [prepare_training_data] on a loaded loader the keys of [X]
    and of [sol] are exactly the field names that are in both [data_dict]
    and [data_size]. *)
Theorem prepare_training_data_keys arg o w x y icemask DBC :
  loaded o x y icemask DBC ->
  counts_ok (requested arg o) o ->
  exists o' w' dx dsol,
    prepare_training_data arg (o, w) = (Ok tt, (o', w')) /\
    X o' = Some dx /\ sol o' = Some dsol /\
    forall k,
      (In k (keys dx) <->
       In k (keys (data_dict o)) /\ In k (keys (requested arg o))) /\
      (In k (keys dsol) <->
       In k (keys (data_dict o)) /\ In k (keys (requested arg o))).
Proof.
  intros Hl Hc.
  destruct (prepare_training_data_loaded arg w Hl Hc)
    as (xi & yi & xb & yb & [o' w'] & _ & _ & _ & _ & Hrun & Hall).
  destruct (sampled_all_keys Hall (dx:=empty) (dsol:=empty) eq_refl eq_refl)
    as (dx & dsol & HX & Hsol & Hkeys).
  exists o', w', dx, dsol.
  split; [exact Hrun|]. split; [exact HX|]. split; [exact Hsol|].
  intros k. destruct (Hkeys k) as [Hkx Hks]. rewrite <- !mem_keys.
  rewrite Hkx, Hks. simpl. rewrite <- mem_keys.
  split; split; try (intros [Hm|Hm]; [discriminate | exact Hm]); auto.
Qed.

(** C10. A key of [data_size] that names no field of [data_dict] is
    passed over: the call returns, and neither [X] nor [sol] gets an
    entry for it; when no key of [data_size] names a field, [X] and [sol]
    are left empty. *)
Theorem prepare_training_data_unknown_key arg o w x y icemask DBC k :
  loaded o x y icemask DBC ->
  counts_ok (requested arg o) o ->
  In k (keys (requested arg o)) ->
  ~ In k (keys (data_dict o)) ->
  exists o' w' dx dsol,
    prepare_training_data arg (o, w) = (Ok tt, (o', w')) /\
    X o' = Some dx /\ sol o' = Some dsol /\
    get dx k = None /\ get dsol k = None /\
    ((forall k', In k' (keys (requested arg o)) -> ~ In k' (keys (data_dict o))) ->
     dx = empty /\ dsol = empty).
Proof.
  intros Hl Hc Hk Hnot.
  destruct (prepare_training_data_loaded arg w Hl Hc)
    as (xi & yi & xb & yb & [o' w'] & _ & _ & _ & _ & Hrun & Hall).
  destruct (sampled_all_keys Hall (dx:=empty) (dsol:=empty) eq_refl eq_refl)
    as (dx & dsol & HX & Hsol & Hkeys).
  simpl in HX, Hsol.
  assert (Hnone : forall k', ~ In k' (keys (data_dict o)) ->
                             mem k' dx = false /\ mem k' dsol = false).
  { intros k' Hk'. destruct (Hkeys k') as [Hkx Hks].
    split; apply not_true_is_false; intros Hm;
      [apply Hkx in Hm | apply Hks in Hm];
      destruct Hm as [Hm|[Hin _]]; try discriminate; auto. }
  exists o', w', dx, dsol.
  split; [exact Hrun|]. split; [exact HX|]. split; [exact Hsol|].
  destruct (Hnone k Hnot) as [Hx Hs].
  split; [now apply mem_false_get|]. split; [now apply mem_false_get|].
  intros Hall'.
  assert (Hno : forall k', mem k' dx = false /\ mem k' dsol = false).
  { intros k'. destruct (Hkeys k') as [Hkx Hks].
    split; apply not_true_is_false; intros Hm;
      [apply Hkx in Hm | apply Hks in Hm];
      destruct Hm as [Hm|[Hin Hm]]; try discriminate;
      simpl in Hin; apply mem_keys in Hm; exact (Hall' k' Hm Hin). }
  split.
  - destruct dx as [|[k0 v0] r]; [reflexivity|].
    destruct (Hno k0) as [Hm _]. unfold mem in Hm. simpl in Hm.
    rewrite String.eqb_refl in Hm. discriminate.
  - destruct dsol as [|[k0 v0] r]; [reflexivity|].
    destruct (Hno k0) as [_ Hm]. unfold mem in Hm. simpl in Hm.
    rewrite String.eqb_refl in Hm. discriminate.
Qed.

(** C6. With an empty mask name, or one that is not a key of
    [mask_dict], [get_ice_indices] returns what it returns for
    ["icemask"]: without an error, the vertices whose ice-mask value is
    below zero. *)
Theorem get_ice_indices_default_mask o w mask_name icemask :
  get (mask_dict o) "icemask" = Some icemask ->
  mask_name = "" \/ ~ In mask_name (keys (mask_dict o)) ->
  get_ice_indices mask_name (o, w) = get_ice_indices "icemask" (o, w) /\
  get_ice_indices mask_name (o, w) = (Ok (ice_vertices icemask), (o, w)) /\
  forall v, In v (ice_vertices icemask) <->
            exists m, nth_error icemask v = Some m /\ f_lt m f_zero = true.
Proof.
  intros Hice Hname.
  assert (Hres : resolved_mask o mask_name = "icemask").
  { unfold resolved_mask. destruct Hname as [->|Hnot]; [reflexivity|].
    destruct (mem mask_name (mask_dict o)) eqn:Hm.
    - apply mem_keys in Hm. contradiction.
    - now rewrite orb_true_r. }
  assert (Hres' : resolved_mask o "icemask" = "icemask").
  { unfold resolved_mask. now destruct (_ || _). }
  rewrite !get_ice_indices_eq, Hres, Hres', Hice.
  split; [reflexivity|]. split; [reflexivity|].
  apply ice_vertices_spec.
Qed.

(** The number of rows a call leaves under [k], whatever [X] and [sol] held
    before. *)
Definition expected_rows (ds : dict (option Z)) (dd : dict (array F))
    (icemask DBC : array F) (k : string) : option nat :=
  if mem k dd then
    match get ds k with
    | Some (Some n) =>
        Some (Nat.min (Z.to_nat n) (List.length (ice_vertices icemask)))
    | Some None => Some (List.length (boundary_vertices DBC))
    | None => None
    end
  else None.

Lemma prepare_training_data_rows arg o w x y icemask DBC o' w' k :
  loaded o x y icemask DBC -> counts_ok (requested arg o) o ->
  prepare_training_data arg (o, w) = (Ok tt, (o', w')) ->
  option_map (@List.length _) (X_at o' k)
    = expected_rows (requested arg o) (data_dict o) icemask DBC k /\
  option_map (@List.length _) (sol_at o' k)
    = expected_rows (requested arg o) (data_dict o) icemask DBC k.
Proof.
  intros Hl Hc Hrun.
  destruct (prepare_training_data_loaded arg w Hl Hc)
    as (xi & yi & xb & yb & s' & Hxi & Hyi & Hxb & Hyb & Hrun' & Hall).
  rewrite Hrun in Hrun'. injection Hrun' as <-.
  pose proof (sampled_all_frame Hall) as [(_ & _ & Hdd & _) _]. simpl in Hdd.
  destruct (sampled_all_keys Hall (dx:=empty) (dsol:=empty) eq_refl eq_refl)
    as (dx & dsol & HX & Hsol & Hkeys).
  simpl in HX, Hsol. unfold X_at, sol_at, expected_rows. rewrite HX, Hsol.
  destruct (Hkeys k) as [Hkx Hks].
  destruct (mem k (data_dict o)) eqn:Hm;
    [destruct (get (requested arg o) k) as [size|] eqn:Hsz|].
  - assert (Hmem : mem k (requested arg o) = true) by (apply mem_get; eauto).
    apply mem_keys in Hm.
    pose proof (sampled_all_entry (k:=k) Hall (or_introl (conj Hm Hmem)))
      as (dx0 & dsol0 & Xk & solk & HX0 & Hsol0 & HXk & Hsolk & He).
    simpl in HX0, Hsol0, He. unfold entry in He. rewrite Hsz, Hdd in He.
    assert (dx0 = dx) as -> by congruence.
    assert (dsol0 = dsol) as -> by congruence.
    rewrite HXk, Hsolk. simpl.
    assert (Hmax : List.length (combine xi yi) = List.length (ice_vertices icemask)).
    { rewrite length_combine, (take_length _ _ Hxi), (take_length _ _ Hyi). lia. }
    destruct size as [n|].
    + destruct He as (a & sol_temp & idx & _ & _ & _ & Hlen & _ & _ & HtX & Hts).
      rewrite (take_length _ _ HtX), (take_length _ _ Hts), Hlen, Hmax.
      now rewrite Z2Nat.inj_min, Nat2Z.id.
    + destruct He as (-> & a & _ & Hts).
      rewrite (take_length _ _ Hts), length_combine,
        (take_length _ _ Hxb), (take_length _ _ Hyb), Nat.min_id. auto.
  - assert (Hx : mem k dx = false).
    { apply not_true_is_false. intros Hm'. apply Hkx in Hm'.
      destruct Hm' as [Hm'|[_ Hm']]; [discriminate|].
      apply mem_get in Hm'. destruct Hm'. congruence. }
    assert (Hs : mem k dsol = false).
    { apply not_true_is_false. intros Hm'. apply Hks in Hm'.
      destruct Hm' as [Hm'|[_ Hm']]; [discriminate|].
      apply mem_get in Hm'. destruct Hm'. congruence. }
    apply mem_false_get in Hx, Hs. rewrite Hx, Hs. auto.
  - assert (Hx : mem k dx = false).
    { apply not_true_is_false. intros Hm'. apply Hkx in Hm'.
      destruct Hm' as [Hm'|[Hin _]]; [discriminate|].
      simpl in Hin. apply mem_keys in Hin. congruence. }
    assert (Hs : mem k dsol = false).
    { apply not_true_is_false. intros Hm'. apply Hks in Hm'.
      destruct Hm' as [Hm'|[Hin _]]; [discriminate|].
      simpl in Hin. apply mem_keys in Hin. congruence. }
    apply mem_false_get in Hx, Hs. rewrite Hx, Hs. auto.
Qed.

(** A second call on the loader replaces [X] and [sol]: every field has
    the row count of a single call. *)
Lemma prepare_training_data_replaces arg o w x y icemask DBC :
  loaded o x y icemask DBC -> counts_ok (requested arg o) o ->
  exists o1 w1 o2 w2,
    prepare_training_data arg (o, w) = (Ok tt, (o1, w1)) /\
    prepare_training_data arg (o1, w1) = (Ok tt, (o2, w2)) /\
    forall k,
      option_map (@List.length _) (X_at o2 k)
        = option_map (@List.length _) (X_at o1 k) /\
      option_map (@List.length _) (sol_at o2 k)
        = option_map (@List.length _) (sol_at o1 k).
Proof.
  intros Hl Hc.
  destruct (prepare_training_data_loaded arg w Hl Hc)
    as (_ & _ & _ & _ & [o1 w1] & _ & _ & _ & _ & Hrun1 & _).
  destruct (@prepare_training_data_frame arg o w x y icemask DBC o1 w1 Hl Hc Hrun1)
    as ((_ & _ & Hdd & _) & _ & Hl1 & Hreq & Hc1).
  destruct (prepare_training_data_loaded arg w1 Hl1 Hc1)
    as (_ & _ & _ & _ & [o2 w2] & _ & _ & _ & _ & Hrun2 & _).
  exists o1, w1, o2, w2. split; [exact Hrun1|]. split; [exact Hrun2|].
  intros k.
  destruct (@prepare_training_data_rows arg o w x y icemask DBC o1 w1 k Hl Hc Hrun1)
    as [-> ->].
  destruct (@prepare_training_data_rows arg o1 w1 x y icemask DBC o2 w2 k Hl1 Hc1 Hrun2)
    as [-> ->].
  now rewrite Hreq, Hdd.
Qed.

(** *** [load_data] *)

(** [md[group][name]] *)
Definition group_field (md : dict (dict (array F))) (group name : string)
  : option (array F) :=
  match get md group with
  | Some g => get g name
  | None => None
  end.

(** A model that has the ten fields [load_data] reads. *)
Record is_model (md : dict (dict (array F)))
    (x y vx_obs vy_obs surface thickness friction rheology_B
       ice_levelset vertexonboundary : array F) : Prop := {
  model_x : group_field md "mesh" "x" = Some x;
  model_y : group_field md "mesh" "y" = Some y;
  model_vx_obs : group_field md "inversion" "vx_obs" = Some vx_obs;
  model_vy_obs : group_field md "inversion" "vy_obs" = Some vy_obs;
  model_surface : group_field md "geometry" "surface" = Some surface;
  model_thickness : group_field md "geometry" "thickness" = Some thickness;
  model_friction : group_field md "friction" "C" = Some friction;
  model_rheology_B : group_field md "materials" "rheology_B" = Some rheology_B;
  model_ice_levelset : group_field md "mask" "ice_levelset" = Some ice_levelset;
  model_vertexonboundary :
    group_field md "mesh" "vertexonboundary" = Some vertexonboundary
}.

Lemma field_eq md group name a (s : DataBase.St F) :
  group_field md group name = Some a -> field md group name s = (Ok a, s).
Proof.
  unfold group_field, field, bind, lift, getitem.
  destruct (get md group) as [g|]; [|discriminate].
  now intros ->.
Qed.

Lemma bind_field {B : Type} md group name a (k : array F -> M (DataBase.St F) B) s :
  group_field md group name = Some a ->
  bind (field md group name) k s = k a s.
Proof. intros Hf. apply bind_ok. now apply field_eq. Qed.

Lemma bind_update_self {B : Type} f (k : unit -> M (DataBase.St F) B) o w :
  bind (update_self f) k (o, w) = k tt (f o, w).
Proof. reflexivity. Qed.

Lemma zip_with_nth_error (op : F -> F -> F) (a b : list F) i u v :
  nth_error a i = Some u -> nth_error b i = Some v ->
  nth_error (zip_with op a b) i = Some (op u v).
Proof.
  revert b i. induction a as [|a0 a IH]; intros [|b0 b] [|i]; simpl;
    try discriminate.
  - intros E1 E2. now injection E1 as <-; injection E2 as <-.
  - apply IH.
Qed.

Lemma zip_with_length (op : F -> F -> F) (a b : list F) :
  List.length a = List.length b -> List.length (zip_with op a b) = List.length a.
Proof.
  revert b. induction a as [|a0 a IH]; intros [|b0 b]; simpl; try discriminate; auto.
Qed.

(** What [load_data] stores, field by field. *)
Record stored (o' : DataBase.t F)
    (x y vx_obs vy_obs surface thickness friction rheology_B
       ice_levelset vertexonboundary vel : array F) : Prop := {
  stored_x : get (X_dict o') "x" = Some x;
  stored_y : get (X_dict o') "y" = Some y;
  stored_u : get (data_dict o') "u" = Some (map (fun a => f_div a yts) vx_obs);
  stored_v : get (data_dict o') "v" = Some (map (fun a => f_div a yts) vy_obs);
  stored_s : get (data_dict o') "s" = Some surface;
  stored_H : get (data_dict o') "H" = Some thickness;
  stored_C : get (data_dict o') "C" = Some friction;
  stored_B : get (data_dict o') "B" = Some rheology_B;
  stored_vel : get (data_dict o') "vel" = Some vel;
  stored_icemask : get (mask_dict o') "icemask" = Some ice_levelset;
  stored_DBC_mask : get (mask_dict o') "DBC_mask" = Some vertexonboundary
}.

(** The loader and the world after a successful [load_data]. *)
Definition load_data_result (o : DataBase.t F)
    (x y vx_obs vy_obs surface thickness friction rheology_B
       ice_levelset vertexonboundary vel : array F) : DataBase.t F :=
  {| DataBase.parameters := DataBase.parameters o;
     X_dict := set (set (X_dict o) "x" x) "y" y;
     data_dict :=
       set (set (set (set (set (set (set (data_dict o)
         "u" (div_scalar vx_obs yts)) "v" (div_scalar vy_obs yts))
         "s" surface) "H" thickness) "C" friction) "B" rheology_B) "vel" vel;
     mask_dict :=
       set (set (mask_dict o) "icemask" ice_levelset) "DBC_mask" vertexonboundary;
     X := X o; sol := sol o |}.

Definition read_world (path : string) (w : World F) : World F :=
  {| files := files w; io_log := io_log w ++ [path]; gen := gen w |}.

(** [np.sqrt(u**2.0 + v**2.0)] for components of one length. *)
Definition speed (u v : array F) : array F :=
  sqrt (zip_with f_add (pow_scalar u f_two) (pow_scalar v f_two)).

Lemma load_data_eq o w data md
    x y vx_obs vy_obs surface thickness friction rheology_B
    ice_levelset vertexonboundary :
  get (files w) (data_path (DataBase.parameters o)) = Some data ->
  get data "md" = Some md ->
  is_model md x y vx_obs vy_obs surface thickness friction rheology_B
    ice_levelset vertexonboundary ->
  List.length vx_obs = List.length vy_obs ->
  load_data (o, w) =
  (Ok tt,
   (load_data_result o x y vx_obs vy_obs surface thickness friction rheology_B
      ice_levelset vertexonboundary
      (speed (div_scalar vx_obs yts) (div_scalar vy_obs yts)),
    read_world (data_path (DataBase.parameters o)) w)).
Proof.
  intros Hfile Hmd [] Hlen.
  set (u := div_scalar vx_obs yts). set (v := div_scalar vy_obs yts).
  assert (Hadd : add (pow_scalar u f_two) (pow_scalar v f_two)
                 = Ok (zip_with f_add (pow_scalar u f_two) (pow_scalar v f_two))).
  { unfold add, pow_scalar, u, v, div_scalar. rewrite !length_map, Hlen.
    now rewrite Nat.eqb_refl. }
  unfold load_data.
  unfold bind at 1, self at 1. simpl.
  unfold bind at 1, in_world at 1, loadmat at 1. simpl. rewrite Hfile.
  unfold bind at 1, lift at 1, getitem at 1. rewrite Hmd.
  repeat (erewrite bind_field by eassumption; rewrite bind_update_self).
  unfold bind at 1, self at 1. simpl.
  unfold bind at 1, lift at 1, getitem at 1.
  repeat (rewrite get_set_other by discriminate). rewrite get_set_same.
  unfold bind at 1, lift at 1, getitem at 1.
  repeat (rewrite get_set_other by discriminate). rewrite get_set_same.
  unfold bind at 1, lift at 1. fold u v. rewrite Hadd.
  rewrite bind_update_self.
  repeat (erewrite bind_field by eassumption; rewrite bind_update_self).
  erewrite bind_field by eassumption.
  reflexivity.
Qed.

Lemma speed_length (u v : array F) :
  List.length u = List.length v -> List.length (speed u v) = List.length u.
Proof.
  intros Hlen. unfold speed, sqrt, pow_scalar.
  rewrite length_map, zip_with_length; rewrite !length_map; auto.
Qed.

(** Loading an index-aligned model into a loader whose [data_dict] holds
    nothing of another length gives a [loaded] loader. *)
Lemma load_data_loaded o w data md
    x y vx_obs vy_obs surface thickness friction rheology_B
    ice_levelset vertexonboundary :
  get (files w) (data_path (DataBase.parameters o)) = Some data ->
  get data "md" = Some md ->
  is_model md x y vx_obs vy_obs surface thickness friction rheology_B
    ice_levelset vertexonboundary ->
  Forall (fun a : array F => List.length a = List.length x)
    [y; vx_obs; vy_obs; surface; thickness; friction; rheology_B;
     ice_levelset; vertexonboundary] ->
  (forall k a, get (data_dict o) k = Some a -> List.length a = List.length x) ->
  exists o' w',
    load_data (o, w) = (Ok tt, (o', w')) /\
    loaded o' x y ice_levelset vertexonboundary.
Proof.
  intros Hfile Hmd Hmodel Hall Hold.
  repeat match goal with
         | Hf : Forall _ (_ :: _) |- _ =>
             let Hh := fresh "Hlen" in
             let Ht := fresh "Hrest" in
             inversion Hf as [|? ? Hh Ht]; subst; clear Hf
         end.
  eexists _, _. split.
  - eapply load_data_eq; eauto. congruence.
  - constructor; simpl;
      repeat (rewrite get_set_other by discriminate);
      rewrite ?get_set_same; auto.
    intros k a.
    repeat match goal with
           | |- get (set _ ?k' _) k = Some _ -> _ =>
               let Hne := fresh "Hne" in
               destruct (string_dec k' k) as [<-|Hne];
               [ rewrite get_set_same; intros E; injection E as <-
               | rewrite get_set_other by exact Hne ]
           end;
      try apply Hold;
      unfold div_scalar; rewrite ?speed_length; unfold div_scalar;
      rewrite ?length_map; congruence.
Qed.

(** C9. On a file that has all the fields, with velocity components of
    one length, [load_data] returns, and then: [u] and [v] are the observed
    components divided by [yts]; [vel] has the same length, with
    [vel[i] = sqrt(u[i]**2.0 + v[i]**2.0)]; the other fields, the masks
    and the coordinates are the arrays of the file. *)
Theorem load_data_stores o w data md
    x y vx_obs vy_obs surface thickness friction rheology_B
    ice_levelset vertexonboundary :
  get (files w) (data_path (DataBase.parameters o)) = Some data ->
  get data "md" = Some md ->
  is_model md x y vx_obs vy_obs surface thickness friction rheology_B
    ice_levelset vertexonboundary ->
  List.length vx_obs = List.length vy_obs ->
  exists o' w' vel,
    load_data (o, w) = (Ok tt, (o', w')) /\
    stored o' x y vx_obs vy_obs surface thickness friction rheology_B
      ice_levelset vertexonboundary vel /\
    List.length vel = List.length vx_obs /\
    forall i u v,
      nth_error (map (fun a => f_div a yts) vx_obs) i = Some u ->
      nth_error (map (fun a => f_div a yts) vy_obs) i = Some v ->
      nth_error vel i = Some (f_sqrt (f_add (f_pow u f_two) (f_pow v f_two))).
Proof.
  intros Hfile Hmd Hmodel Hlen.
  eexists _, _, _. split; [|split; [|split]].
  - eapply load_data_eq; eauto.
  - constructor; simpl;
      repeat (rewrite get_set_other by discriminate);
      rewrite ?get_set_same; reflexivity.
  - rewrite speed_length; unfold div_scalar; rewrite !length_map; auto.
  - intros i a b Ha Hb. unfold speed, sqrt, pow_scalar, div_scalar.
    rewrite nth_error_map.
    erewrite zip_with_nth_error;
      [reflexivity | rewrite nth_error_map, Ha | rewrite nth_error_map, Hb];
      reflexivity.
Qed.

End LoaderProperties.


(* ================================================================== *)
(** ** The registry and the aggregate manager *)

Module DataFacts.

Section Facts.
Context {F : Type}.
Implicit Types (d : Data.t F) (w : World F)
  (l : dict (DataBase.instance F)).

(** *** Calls on the loaders of [self.data] *)

Lemma get_middle (V : Type) (done : dict V) k v r :
  ~ In k (keys done) -> get (done ++ (k, v) :: r) k = Some v.
Proof.
  intros Hk. rewrite get_app_r.
  - simpl. now rewrite String.eqb_refl.
  - apply not_true_is_false. intros Hm. now apply mem_keys in Hm.
Qed.

Lemma set_middle (V : Type) (done : dict V) k v v' r :
  ~ In k (keys done) ->
  set (done ++ (k, v) :: r) k v' = done ++ (k, v') :: r.
Proof.
  intros Hk. rewrite set_app_r.
  - simpl. now rewrite String.eqb_refl.
  - apply not_true_is_false. intros Hm. now apply mem_keys in Hm.
Qed.

Lemma call_at {A : Type} done k c o r d w
    (meth : DataBase.class F -> M (DataBase.St F) A) res o' w' :
  Data.data d = done ++ (k, (c, o)) :: r ->
  ~ In k (keys done) ->
  meth c (o, w) = (res, (o', w')) ->
  Data.call k meth (d, w)
  = (res, (Data.set_data (done ++ (k, (c, o')) :: r) d, w')).
Proof.
  intros Hd Hk Hm. unfold Data.call. simpl.
  rewrite Hd, get_middle by exact Hk. rewrite Hm.
  now rewrite set_middle by exact Hk.
Qed.

Lemma keys_app (V : Type) (a b : dict V) : keys (a ++ b) = keys a ++ keys b.
Proof. apply map_app. Qed.

Lemma NoDup_keys_middle (V : Type) (done : dict V) k v r :
  NoDup (keys (done ++ (k, v) :: r)) ->
  ~ In k (keys done) /\ forall v', NoDup (keys ((done ++ [(k, v')]) ++ r)).
Proof.
  intros Hnd. split.
  - rewrite keys_app in Hnd. simpl in Hnd.
    apply NoDup_remove_2 in Hnd. intros Hin. apply Hnd.
    apply in_or_app. now left.
  - intros v'. rewrite <- app_assoc. simpl.
    rewrite keys_app in *. exact Hnd.
Qed.

(** *** [load_data]: the loaders load one after the other *)

(** [loads l w l' w']: calling [load_data] on the loaders of [l] in order,
    from the world [w], returns every time and leaves the loaders [l'] and
    the world [w']. *)
Inductive loads : dict (DataBase.instance F) -> World F ->
                  dict (DataBase.instance F) -> World F -> Prop :=
| loads_nil w : loads [] w [] w
| loads_cons k c o o' l l' w w1 w2 :
    DataBase.load_data c (o, w) = (Ok tt, (o', w1)) ->
    loads l w1 l' w2 ->
    loads ((k, (c, o)) :: l) w ((k, (c, o')) :: l') w2.

Definition load_loop (ks : list string) : M (Data.St F) unit :=
  for_each ks (fun k => Data.call k (@DataBase.load_data F)).

Lemma load_loop_cons k (v : DataBase.instance F) r :
  load_loop (keys ((k, v) :: r))
  = bind (Data.call k (@DataBase.load_data F)) (fun _ => load_loop (keys r)).
Proof. reflexivity. Qed.

Lemma load_loop_ok todo : forall done d w todo' w',
  Data.data d = done ++ todo ->
  NoDup (keys (done ++ todo)) ->
  loads todo w todo' w' ->
  load_loop (keys todo) (d, w) = (Ok tt, (Data.set_data (done ++ todo') d, w')).
Proof.
  induction todo as [|[k [c o]] r IH]; intros done d w todo' w' Hd Hnd Hl;
    inversion Hl as [|? ? ? o' ? r' ? w1 ? Hk Hr]; subst.
  - simpl. unfold ret. rewrite <- Hd. now destruct d.
  - destruct (NoDup_keys_middle _ _ _ _ Hnd) as [Hnot Hnd'].
    rewrite load_loop_cons.
    rewrite (bind_ok _ _ _ (@call_at unit done k c o r d w
               (@DataBase.load_data F) (Ok tt) o' w1 Hd Hnot Hk)).
    replace (done ++ (k, (c, o')) :: r') with ((done ++ [(k, (c, o'))]) ++ r')
      by now rewrite <- app_assoc.
    apply (IH (done ++ [(k, (c, o'))])
              (Data.set_data (done ++ (k, (c, o')) :: r) d) w1 r' w'); auto.
    simpl. now rewrite <- app_assoc.
Qed.

Lemma load_loop_raise l1 w l1' w1 :
  loads l1 w l1' w1 ->
  forall done d k c o l2 e o' w2,
  Data.data d = done ++ l1 ++ (k, (c, o)) :: l2 ->
  NoDup (keys (done ++ l1 ++ (k, (c, o)) :: l2)) ->
  DataBase.load_data c (o, w1) = (Raise e, (o', w2)) ->
  load_loop (keys (l1 ++ (k, (c, o)) :: l2)) (d, w)
  = (Raise e, (Data.set_data (done ++ l1' ++ (k, (c, o')) :: l2) d, w2)).
Proof.
  induction 1 as [w|k1 c1 o1 o1' l l' w w0 w1 Hk _ IH];
    intros done d k c o l2 e o' w2 Hd Hnd Hfail.
  - destruct (NoDup_keys_middle _ _ _ _ Hnd) as [Hnot _].
    simpl app. rewrite load_loop_cons.
    now rewrite (bind_raise _ _ _ (@call_at unit done k c o l2 d w
                   (@DataBase.load_data F) (Raise e) o' w2 Hd Hnot Hfail)).
  - simpl app in *.
    destruct (NoDup_keys_middle _ _ _ _ Hnd) as [Hnot Hnd'].
    rewrite load_loop_cons.
    rewrite (bind_ok _ _ _ (@call_at unit done k1 c1 o1 _ d w
               (@DataBase.load_data F) (Ok tt) o1' w0 Hd Hnot Hk)).
    etransitivity.
    + apply (IH (done ++ [(k1, (c1, o1'))])
                (Data.set_data (done ++ (k1, (c1, o1')) :: l ++ (k, (c, o)) :: l2) d)
                k c o l2 e o' w2); auto.
      simpl. now rewrite <- app_assoc.
    + unfold Data.set_data. simpl. now rewrite <- app_assoc.
Qed.

(** C8. [Data.load_data] calls the loaders' [load_data] in the order of
    [self.data].  When all return, the manager holds the loaders they
    leave.  When the loaders [l1] return and the next one raises [e], the
    call raises the same [e]; the loaders of [l1] stay as their loads left
    them, the failing loader as its call left it, and the loaders [l2]
    after it, like the world, are what they were when it raised: none of
    them was called. *)
Theorem load_data_in_order d w :
  NoDup (keys (Data.data d)) ->
  (forall l' w',
     loads (Data.data d) w l' w' ->
     Data.load_data (d, w) = (Ok tt, (Data.set_data l' d, w'))) /\
  (forall l1 k c o l2 l1' w1 e o' w2,
     Data.data d = l1 ++ (k, (c, o)) :: l2 ->
     loads l1 w l1' w1 ->
     DataBase.load_data c (o, w1) = (Raise e, (o', w2)) ->
     Data.load_data (d, w)
     = (Raise e, (Data.set_data (l1' ++ (k, (c, o')) :: l2) d, w2))).
Proof.
  intros Hnd. split.
  - intros l' w' Hl. unfold Data.load_data.
    unfold bind at 1, Data.self at 1. simpl.
    apply (@load_loop_ok (Data.data d) [] d w l' w'); auto.
  - intros l1 k c o l2 l1' w1 e o' w2 Hd Hl Hfail. unfold Data.load_data.
    unfold bind at 1, Data.self at 1. simpl. rewrite Hd.
    apply (@load_loop_raise l1 w l1' w1 Hl [] d k c o l2 e o' w2); auto.
    simpl. now rewrite <- Hd.
Qed.

(** *** The registry *)

(** C7. [DataBase.create] raises exactly when the tag is not a key of the
    registry; it then raises [ValueError] and leaves the world, with its
    log of file reads, untouched; for a registered tag it returns an
    instance of the registered class, built by its constructor from the
    given parameters. *)
Theorem create_raises_iff_unregistered
    (subclasses : dict (DataBase.class F)) data_type parameters w :
  ((exists e, fst (DataBase.create subclasses data_type parameters w) = Raise e)
   <-> ~ In data_type (keys subclasses)) /\
  (~ In data_type (keys subclasses) <->
   DataBase.create subclasses data_type parameters w
   = (Raise (ValueError ("Data type " ++ data_type ++ " is not defined")), w)) /\
  (forall cls, get subclasses data_type = Some cls ->
     DataBase.create subclasses data_type parameters w
     = (Ok (cls, DataBase.init cls parameters), w)).
Proof.
  unfold DataBase.create.
  destruct (mem data_type subclasses) eqn:Hm; simpl.
  - pose proof Hm as Hin. apply mem_keys in Hin.
    apply mem_get in Hm. destruct Hm as [cls Hcls].
    unfold bind, lift, getitem, ret. rewrite Hcls. simpl.
    split; [|split].
    + split; [intros [e He]; discriminate | intros Hn; contradiction].
    + split; [intros Hn; contradiction | discriminate].
    + intros cls' E. now injection E as <-.
  - assert (Hin : ~ In data_type (keys subclasses)).
    { intros Hin. apply mem_keys in Hin. congruence. }
    unfold raise. simpl. split; [|split].
    + split; eauto.
    + split; auto.
    + intros cls E. apply mem_false_get in Hm. congruence.
Qed.

(** A subclass statement registers the class under its tag. *)
Lemma init_subclass_registers (subclasses : dict (DataBase.class F)) cls :
  get (DataBase.__init_subclass__ subclasses cls) (DataBase._DATA_TYPE cls)
  = Some cls.
Proof. apply get_set_same. Qed.

(** Building the manager reads no file. *)
Lemma create_all_world (subclasses : dict (DataBase.class F)) p ks :
  forall acc w r w',
    Data.create_all subclasses p ks acc w = (r, w') -> w' = w.
Proof.
  induction ks as [|k ks IH]; intros acc w r w'; simpl.
  - unfold ret. intros E. now injection E.
  - unfold bind at 1, lift at 1. destruct (getitem p k) as [pk|e]; simpl.
    + unfold bind at 1, DataBase.create.
      destruct (negb (mem (source pk) subclasses)); simpl.
      * unfold raise. intros E. now injection E.
      * unfold bind, lift, ret.
        destruct (getitem subclasses (source pk)); simpl.
        -- apply IH.
        -- intros E. now injection E.
    + intros E. now injection E.
Qed.

(** *** Merging a loader's arrays into the aggregate *)

Section Merge.
Variable T : Type.
Implicit Types (agg src : dict (list T)).

(** The rows stored under a key; none when the key is absent. *)
Definition rows agg (k : string) : list T :=
  match get agg k with Some v => v | None => [] end.

Lemma merge_key_eq src agg xkey v :
  get src xkey = Some v ->
  Data.merge_key src xkey agg = (Ok tt, set agg xkey (rows agg xkey ++ v)).
Proof.
  intros Hv. unfold Data.merge_key, rows, mem.
  unfold bind at 1, get_state at 1.
  destruct (get agg xkey) as [old|] eqn:Hold; simpl.
  - unfold bind, lift, getitem, modify. rewrite Hold, Hv. reflexivity.
  - unfold bind, lift, getitem, modify. rewrite Hv. reflexivity.
Qed.

Lemma merge_loop src ks : forall agg,
  NoDup ks -> (forall k, In k ks -> mem k src = true) ->
  exists agg',
    for_each ks (Data.merge_key src) agg = (Ok tt, agg') /\
    forall k,
      (In k ks -> get agg' k = Some (rows agg k ++ rows src k)) /\
      (~ In k ks -> get agg' k = get agg k).
Proof.
  induction ks as [|k0 ks IH]; intros agg Hnd Hin.
  - exists agg. split; [reflexivity|]. intros k. split; [intros []|auto].
  - inversion Hnd as [|? ? Hnot Hnd']; subst.
    destruct (proj1 (mem_get _ _) (Hin k0 (or_introl eq_refl))) as [v Hv].
    destruct (IH (set agg k0 (rows agg k0 ++ v)) Hnd') as (agg' & Hrun & Hspec).
    { intros k Hk. apply Hin. now right. }
    exists agg'. split.
    + simpl. now rewrite (bind_ok _ _ _ (@merge_key_eq src agg k0 v Hv)).
    + intros k. destruct (Hspec k) as [Hin' Hout]. split.
      * intros [<-|Hk].
        -- rewrite (Hout Hnot), get_set_same. unfold rows. now rewrite Hv.
        -- rewrite (Hin' Hk). unfold rows at 1.
           rewrite get_set_other by (intros ->; contradiction). reflexivity.
      * intros Hk. rewrite Hout by (intros Hk'; apply Hk; now right).
        apply get_set_other. intros ->. apply Hk. now left.
Qed.

(** [merge] appends the rows of every key of the source after those
    already stored, and leaves the other keys alone. *)
Lemma merge_spec src agg :
  NoDup (keys src) ->
  exists agg',
    Data.merge src agg = (Ok tt, agg') /\
    forall k, rows agg' k = rows agg k ++ rows src k /\
              mem k agg' = mem k agg || mem k src.
Proof.
  intros Hnd.
  destruct (@merge_loop src (keys src) agg Hnd) as (agg' & Hrun & Hspec).
  { intros k. apply mem_keys. }
  exists agg'. split; [exact Hrun|].
  intros k. destruct (Hspec k) as [Hin Hout].
  destruct (mem k src) eqn:Hm.
  - apply mem_keys in Hm. specialize (Hin Hm).
    unfold rows at 1, mem at 1. rewrite Hin. now rewrite orb_true_r.
  - assert (Hk : ~ In k (keys src)).
    { intros Hk. apply mem_keys in Hk. congruence. }
    specialize (Hout Hk). apply mem_false_get in Hm.
    unfold rows at 1 3, mem at 1 2. rewrite Hout, Hm, app_nil_r, orb_false_r.
    auto.
Qed.
End Merge.

(** *** [prepare_training_data]: sample every loader, merge its arrays *)

(** The rows a loader holds for a field after its own
    [prepare_training_data]. *)
Definition loader_X_rows (inst : DataBase.instance F) (k : string) : coords F :=
  match DataBase.X (snd inst) with Some dx => rows dx k | None => [] end.

Definition loader_sol_rows (inst : DataBase.instance F) (k : string) : column F :=
  match DataBase.sol (snd inst) with Some dsol => rows dsol k | None => [] end.

Definition loader_has (inst : DataBase.instance F) (k : string) : bool :=
  match DataBase.X (snd inst) with Some dx => mem k dx | None => false end.

Definition loader_sol_has (inst : DataBase.instance F) (k : string) : bool :=
  match DataBase.sol (snd inst) with Some dsol => mem k dsol | None => false end.

(** [prepares l w l' w']: calling [prepare_training_data] on the loaders
    of [l] in order, from the world [w], returns every time, leaves the
    loaders [l'] and the world [w'], and each loader then holds its [X]
    and [sol] dictionaries. *)
Inductive prepares : dict (DataBase.instance F) -> World F ->
                     dict (DataBase.instance F) -> World F -> Prop :=
| prepares_nil w : prepares [] w [] w
| prepares_cons k c o o' l l' w w1 w2 dx dsol :
    DataBase.prepare_training_data c (o, w) = (Ok tt, (o', w1)) ->
    DataBase.X o' = Some dx -> DataBase.sol o' = Some dsol ->
    NoDup (keys dx) -> NoDup (keys dsol) ->
    prepares l w1 l' w2 ->
    prepares ((k, (c, o)) :: l) w ((k, (c, o')) :: l') w2.

Definition prepare_round (key : string) : M (Data.St F) unit :=
  Data.call key (@DataBase.prepare_training_data F) ;;
  lX <- Data.loader_X key ;;
  Data.on_X (Data.merge lX) ;;
  lsol <- Data.loader_sol key ;;
  Data.on_sol (Data.merge lsol).

Definition with_arrays (l : dict (DataBase.instance F))
    (X' : dict (coords F)) (sol' : dict (column F)) d : Data.t F :=
  {| Data.parameters := Data.parameters d; Data.data := l;
     Data.X := X'; Data.sol := sol' |}.

Lemma prepare_round_ok done k c o r d w o' w1 dx dsol :
  Data.data d = done ++ (k, (c, o)) :: r ->
  ~ In k (keys done) ->
  DataBase.prepare_training_data c (o, w) = (Ok tt, (o', w1)) ->
  DataBase.X o' = Some dx -> DataBase.sol o' = Some dsol ->
  NoDup (keys dx) -> NoDup (keys dsol) ->
  exists X' sol',
    prepare_round k (d, w)
    = (Ok tt, (with_arrays (done ++ (k, (c, o')) :: r) X' sol' d, w1)) /\
    forall key,
      (rows X' key = rows (Data.X d) key ++ rows dx key /\
       mem key X' = mem key (Data.X d) || mem key dx) /\
      (rows sol' key = rows (Data.sol d) key ++ rows dsol key /\
       mem key sol' = mem key (Data.sol d) || mem key dsol).
Proof.
  intros Hd Hnot Hrun HX Hsol Hndx Hnds.
  destruct (@merge_spec _ dx (Data.X d) Hndx) as (X' & HmX & HspecX).
  destruct (@merge_spec _ dsol (Data.sol d) Hnds) as (sol' & Hms & Hspecs).
  exists X', sol'. split; [|intros key; split; [apply HspecX | apply Hspecs]].
  unfold prepare_round.
  rewrite (bind_ok _ _ _ (@call_at unit done k c o r d w
             (@DataBase.prepare_training_data F) (Ok tt) o' w1 Hd Hnot Hrun)).
  unfold bind at 1, Data.loader_X at 1.
  unfold bind at 1, Data.self at 1. simpl.
  unfold bind at 1, lift at 1, getitem at 1.
  rewrite get_middle by exact Hnot. simpl. rewrite HX. unfold ret at 1.
  unfold bind at 1, Data.on_X at 1. simpl. rewrite HmX.
  unfold bind at 1, Data.loader_sol at 1.
  unfold bind at 1, Data.self at 1. simpl.
  unfold bind at 1, lift at 1, getitem at 1.
  rewrite get_middle by exact Hnot. simpl. rewrite Hsol. unfold ret at 1.
  unfold Data.on_sol. simpl. rewrite Hms. reflexivity.
Qed.

Definition prepare_loop (ks : list string) : M (Data.St F) unit :=
  for_each ks prepare_round.

Lemma prepare_loop_cons k (v : DataBase.instance F) r :
  prepare_loop (keys ((k, v) :: r))
  = bind (prepare_round k) (fun _ => prepare_loop (keys r)).
Proof. reflexivity. Qed.

Lemma prepare_loop_ok todo w todo' w' :
  prepares todo w todo' w' ->
  forall done d,
  Data.data d = done ++ todo ->
  NoDup (keys (done ++ todo)) ->
  exists X' sol',
    prepare_loop (keys todo) (d, w)
    = (Ok tt, (with_arrays (done ++ todo') X' sol' d, w')) /\
    forall key,
      (rows X' key
       = rows (Data.X d) key
         ++ List.concat (map (fun inst => loader_X_rows inst key) (values todo')) /\
       mem key X'
       = mem key (Data.X d)
         || existsb (fun inst => loader_has inst key) (values todo')) /\
      (rows sol' key
       = rows (Data.sol d) key
         ++ List.concat (map (fun inst => loader_sol_rows inst key) (values todo')) /\
       mem key sol'
       = mem key (Data.sol d)
         || existsb (fun inst => loader_sol_has inst key) (values todo')).
Proof.
  induction 1 as [w|k c o o' l l' w w1 w2 dx dsol Hrun HX Hsol Hndx Hnds _ IH];
    intros done d Hd Hnd.
  - exists (Data.X d), (Data.sol d). split.
    + rewrite app_nil_r in *. unfold with_arrays. rewrite <- Hd. now destruct d.
    + intros key. simpl. now rewrite !app_nil_r, !orb_false_r.
  - destruct (NoDup_keys_middle _ _ _ _ Hnd) as [Hnot Hnd'].
    destruct (@prepare_round_ok done k c o l d w o' w1 dx dsol
                Hd Hnot Hrun HX Hsol Hndx Hnds) as (X1 & sol1 & Hround & Hspec1).
    destruct (IH (done ++ [(k, (c, o'))])
                (with_arrays (done ++ (k, (c, o')) :: l) X1 sol1 d))
      as (X2 & sol2 & Hloop & Hspec2).
    { simpl. now rewrite <- app_assoc. }
    { apply Hnd'. }
    exists X2, sol2. split.
    + rewrite prepare_loop_cons, (bind_ok _ _ _ Hround).
      etransitivity; [exact Hloop|].
      unfold with_arrays. simpl. now rewrite <- app_assoc.
    + intros key. destruct (Hspec1 key) as [[Hr1 Hm1] [Hrs1 Hms1]].
      destruct (Hspec2 key) as [[Hr2 Hm2] [Hrs2 Hms2]]. simpl in *.
      unfold loader_X_rows, loader_sol_rows, loader_has, loader_sol_has. simpl.
      rewrite HX, Hsol, Hr2, Hm2, Hrs2, Hms2, Hr1, Hm1, Hrs1, Hms1.
      now rewrite <- !app_assoc, <- !orb_assoc.
Qed.

Lemma length_concat_map (A B : Type) (f : A -> list B) (l : list A) :
  List.length (List.concat (map f l))
  = list_sum (map (fun a => List.length (f a)) l).
Proof.
  induction l as [|a l IH]; simpl; auto.
  now rewrite length_app, IH.
Qed.

Lemma length_app_iff (A : Type) (old new : list A) :
  List.length (old ++ new) = List.length new <-> old = [].
Proof.
  rewrite length_app. split.
  - intros E. destruct old; [reflexivity | simpl in E; lia].
  - intros ->. reflexivity.
Qed.

(** C4. When the loaders' [prepare_training_data] return, the call
    returns and, for every field [k], the aggregate [X[k]] is the rows the
    manager held for [k] before the call followed by the rows of the
    loaders for [k], in the order of [self.data], a loader without [k]
    adding nothing; [k] is a key afterwards when it was one before or
    some loader has it.  The row count is the count held before plus the
    sum of the loaders' counts, so it is that sum exactly when the manager
    held no row for [k]: after an earlier call it is more.  Likewise for
    [sol]. *)
Theorem prepare_training_data_merges d w l' w' :
  NoDup (keys (Data.data d)) ->
  prepares (Data.data d) w l' w' ->
  exists X' sol',
    Data.prepare_training_data (d, w)
    = (Ok tt, (with_arrays l' X' sol' d, w')) /\
    forall k,
      (rows X' k
       = rows (Data.X d) k
         ++ List.concat (map (fun inst => loader_X_rows inst k) (values l')) /\
       List.length (rows X' k)
       = List.length (rows (Data.X d) k)
         + list_sum (map (fun inst => List.length (loader_X_rows inst k)) (values l')) /\
       (List.length (rows X' k)
        = list_sum (map (fun inst => List.length (loader_X_rows inst k)) (values l'))
        <-> rows (Data.X d) k = []) /\
       mem k X'
       = mem k (Data.X d) || existsb (fun inst => loader_has inst k) (values l')) /\
      (rows sol' k
       = rows (Data.sol d) k
         ++ List.concat (map (fun inst => loader_sol_rows inst k) (values l')) /\
       List.length (rows sol' k)
       = List.length (rows (Data.sol d) k)
         + list_sum (map (fun inst => List.length (loader_sol_rows inst k)) (values l')) /\
       (List.length (rows sol' k)
        = list_sum (map (fun inst => List.length (loader_sol_rows inst k)) (values l'))
        <-> rows (Data.sol d) k = []) /\
       mem k sol'
       = mem k (Data.sol d) || existsb (fun inst => loader_sol_has inst k) (values l')).
Proof.
  intros Hnd Hp.
  destruct (@prepare_loop_ok (Data.data d) w l' w' Hp [] d eq_refl Hnd)
    as (X' & sol' & Hloop & Hspec).
  exists X', sol'. split.
  - unfold Data.prepare_training_data.
    unfold bind at 1, Data.self at 1. simpl. exact Hloop.
  - intros k. destruct (Hspec k) as [[Hr Hm] [Hrs Hms]].
    rewrite Hr, Hrs, Hm, Hms, <- !length_concat_map.
    repeat split; try apply length_app; try apply length_app_iff.
Qed.

End Facts.
End DataFacts.


(* ================================================================== *)
(** ** The five-vertex model, end to end *)

Module Scenario.
Import Example ISSMFacts DataFacts.

Definition path : string := "Helheim_fastflow.mat".

(** [data_size = {"u": 3, "C": None}] *)
Definition u3_C : dict (option Z) := [ ("u", Some 3%Z); ("C", None) ].

(** [data_size = {"u": 9, "s": 2}]: more rows of [u] than ice vertices. *)
Definition u9_s2 : dict (option Z) := [ ("u", Some 9%Z); ("s", Some 2%Z) ].

(** [data_size = {"taub": 2}]: no such field in the model. *)
Definition taub2 : dict (option Z) := [ ("taub", Some 2%Z) ].

Lemma load_example size :
  ISSMmdData.load_data (ISSMmdData.__init__ (hp path size), world)
  = (Ok tt, (loader path size, world_read [path])).
Proof. vm_compute. reflexivity. Qed.

Lemma loader_loaded p size :
  loaded (loader p size) mesh_x mesh_y ice_levelset vertexonboundary.
Proof.
  constructor; try reflexivity.
  intros k a. simpl.
  repeat (destruct (String.eqb k _);
          [intros E; injection E as <-; reflexivity|]).
  discriminate.
Qed.

Ltac check_counts :=
  intros k n _; simpl;
  repeat (destruct (String.eqb k _); [intros E; inversion E; lia|]);
  discriminate.

Ltac check_nodup :=
  repeat (constructor; [simpl; intuition discriminate|]); constructor.

(** What the call leaves for [{"u": 3, "C": None}] with the generator
    [stream]: three ice vertices for [u], the two boundary vertices for
    [C]. *)
Example prepare_u3_C :
  let o' := fst (snd (ISSMmdData.prepare_training_data None
                        (loader path u3_C, world))) in
  DataBase.X o' = Some [ ("u", [(0, 0); (3, 30); (1, 10)]);
                         ("C", [(0, 0); (4, 40)]) ]%float /\
  DataBase.sol o' = Some [ ("u", [1; 3; 2]); ("C", [5; 9]) ]%float.
Proof. vm_compute. split; reflexivity. Qed.

(** Nine rows of [u] are asked for, the four ice vertices are returned. *)
Example prepare_u9_clamped :
  let o' := fst (snd (ISSMmdData.prepare_training_data None
                        (loader path u9_s2, world))) in
  option_map (@List.length _) (X_at o' "u") = Some 4 /\
  option_map (@List.length _) (X_at o' "s") = Some 2.
Proof. vm_compute. split; reflexivity. Qed.

Lemma samples_witness :
  exists o' w' Xk solk,
    ISSMmdData.prepare_training_data None (loader path u3_C, world)
      = (Ok tt, (o', w')) /\
    X_at o' "u" = Some Xk /\ sol_at o' "u" = Some solk /\
    List.length Xk = 3 /\ List.length solk = 3.
Proof.
  destruct (@prepare_training_data_samples float _ None (loader path u3_C)
              world mesh_x mesh_y ice_levelset vertexonboundary "u" 3%Z)
    as (o' & w' & Xk & solk & a & idx & vs & Hrun & HX & Hs & HlX & Hls & _).
  - apply loader_loaded.
  - check_counts.
  - simpl. auto.
  - reflexivity.
  - lia.
  - exists o', w', Xk, solk. repeat split; auto.
Defined.

Lemma boundary_witness :
  exists Xk solk,
    List.length Xk = 2 /\ List.length solk = 2 /\
    forall w, exists o1 w1 o2 w2,
      ISSMmdData.prepare_training_data None (loader path u3_C, w)
        = (Ok tt, (o1, w1)) /\
      X_at o1 "C" = Some Xk /\ sol_at o1 "C" = Some solk /\
      ISSMmdData.prepare_training_data None (o1, w1) = (Ok tt, (o2, w2)) /\
      X_at o2 "C" = Some Xk /\ sol_at o2 "C" = Some solk.
Proof.
  destruct (@prepare_training_data_boundary float _ None (loader path u3_C)
              mesh_x mesh_y ice_levelset vertexonboundary "C")
    as (a & Xk & solk & _ & HXk & Hsolk & _ & Hruns).
  - apply loader_loaded.
  - check_counts.
  - simpl. auto 10.
  - reflexivity.
  - exists Xk, solk.
    split; [symmetry; exact (Forall2_length HXk)|].
    split; [symmetry; exact (Forall2_length Hsolk)|].
    exact Hruns.
Defined.

Lemma keys_witness :
  exists o' w' dx dsol,
    ISSMmdData.prepare_training_data None (loader path u3_C, world)
      = (Ok tt, (o', w')) /\
    DataBase.X o' = Some dx /\ DataBase.sol o' = Some dsol /\
    forall k, (In k (keys dx) <-> k = "u" \/ k = "C") /\
              (In k (keys dsol) <-> k = "u" \/ k = "C").
Proof.
  destruct (@prepare_training_data_keys float _ None (loader path u3_C)
              world mesh_x mesh_y ice_levelset vertexonboundary)
    as (o' & w' & dx & dsol & Hrun & HX & Hsol & Hkeys).
  - apply loader_loaded.
  - check_counts.
  - exists o', w', dx, dsol.
    split; [exact Hrun|]. split; [exact HX|]. split; [exact Hsol|].
    intros k. destruct (Hkeys k) as [Hx Hs]. rewrite Hx, Hs. simpl.
    split; split;
      try (intros [_ [E|[E|[]]]]; auto);
      intros [<-|<-]; split; auto 10.
Defined.

Lemma unknown_key_witness :
  exists o' w',
    ISSMmdData.prepare_training_data None (loader path taub2, world)
      = (Ok tt, (o', w')) /\
    DataBase.X o' = Some empty /\ DataBase.sol o' = Some empty.
Proof.
  destruct (@prepare_training_data_unknown_key float _ None (loader path taub2)
              world mesh_x mesh_y ice_levelset vertexonboundary "taub")
    as (o' & w' & dx & dsol & Hrun & HX & Hsol & _ & _ & Hempty).
  - apply loader_loaded.
  - check_counts.
  - simpl. auto.
  - simpl. intuition discriminate.
  - destruct Hempty as [-> ->].
    + intros k' [<-|[]]. simpl. intuition discriminate.
    + exists o', w'. auto.
Defined.

Lemma default_mask_witness :
  ISSMmdData.get_ice_indices "" (loader path u3_C, world)
    = ISSMmdData.get_ice_indices "icemask" (loader path u3_C, world) /\
  ISSMmdData.get_ice_indices "levelset" (loader path u3_C, world)
    = (Ok [0; 1; 3; 4], (loader path u3_C, world)).
Proof.
  split.
  - apply (@get_ice_indices_default_mask float _ (loader path u3_C) world
             "" ice_levelset); [reflexivity | left; reflexivity].
  - destruct (@get_ice_indices_default_mask float _ (loader path u3_C) world
                "levelset" ice_levelset) as (_ & Hrun & _);
      [reflexivity | right; simpl; intuition discriminate | exact Hrun].
Defined.

Lemma stores_witness :
  exists o' w' vel,
    ISSMmdData.load_data (ISSMmdData.__init__ (hp path u3_C), world)
      = (Ok tt, (o', w')) /\
    get (DataBase.data_dict o') "u" = Some [1; 2; 0; 3; 0]%float /\
    get (DataBase.data_dict o') "vel" = Some vel /\
    List.length vel = 5.
Proof.
  destruct (@load_data_stores float _ _ (ISSMmdData.__init__ (hp path u3_C))
              world Helheim md mesh_x mesh_y vx_obs vy_obs surface thickness
              friction_C rheology_B ice_levelset vertexonboundary)
    as (o' & w' & vel & Hrun & Hst & Hlen & _).
  - reflexivity.
  - reflexivity.
  - constructor; reflexivity.
  - reflexivity.
  - exists o', w', vel. destruct Hst. repeat split; auto.
Defined.

(** *** The manager *)

(** One source, [{"Helheim": hp(path, {"u": 3, "C": None})}]. *)
Definition one_source : DataParameter :=
  {| parameter.data := [ ("Helheim", hp path u3_C) ] |}.

(** The manager of [one_source] after [load_data()]. *)
Definition manager1 : Data.t float :=
  {| Data.parameters := one_source;
     Data.data := [ ("Helheim", (ISSMmdData.cls, loader path u3_C)) ];
     Data.X := empty; Data.sol := empty |}.

Example manager1_built :
  exists d0,
    Data.__init__ subclasses one_source world = (Ok d0, world) /\
    Data.load_data (d0, world) = (Ok tt, (manager1, world_read [path])).
Proof. eexists. split; reflexivity. Qed.

(** Two sources reading the same model with different budgets. *)
Definition manager2 : Data.t float :=
  {| Data.parameters :=
       {| parameter.data := [ ("a", hp path u3_C); ("b", hp path u9_s2) ] |};
     Data.data := [ ("a", (ISSMmdData.cls, loader path u3_C));
                    ("b", (ISSMmdData.cls, loader path u9_s2)) ];
     Data.X := empty; Data.sol := empty |}.

Lemma manager2_prepares :
  exists l' w',
    prepares (Data.data manager2) world l' w' /\
    map (fun inst => List.length (loader_X_rows inst "u")) (values l') = [3; 4] /\
    map (fun inst => List.length (loader_X_rows inst "C")) (values l') = [2; 0].
Proof.
  eexists _, _. split.
  - eapply prepares_cons;
      [vm_compute; reflexivity | reflexivity | reflexivity
      | check_nodup | check_nodup | ].
    eapply prepares_cons;
      [vm_compute; reflexivity | reflexivity | reflexivity
      | check_nodup | check_nodup | ].
    apply prepares_nil.
  - split; vm_compute; reflexivity.
Qed.

(** The same manager after one [prepare_training_data()]: it holds seven
    rows for ["u"], and its loaders sample three and four again. *)
Lemma manager2_again :
  exists d1 w1 l2 w2,
    Data.prepare_training_data (manager2, world) = (Ok tt, (d1, w1)) /\
    NoDup (keys (Data.data d1)) /\
    List.length (rows (Data.X d1) "u") = 3 + 4 /\
    prepares (Data.data d1) w1 l2 w2 /\
    map (fun inst => List.length (loader_X_rows inst "u")) (values l2) = [3; 4].
Proof.
  eexists _, _, _, _. split; [vm_compute; reflexivity|].
  split; [check_nodup|]. split; [vm_compute; reflexivity|]. split.
  - eapply prepares_cons;
      [vm_compute; reflexivity | reflexivity | reflexivity
      | check_nodup | check_nodup | ].
    eapply prepares_cons;
      [vm_compute; reflexivity | reflexivity | reflexivity
      | check_nodup | check_nodup | ].
    apply prepares_nil.
  - vm_compute. reflexivity.
Qed.

Lemma merges_witness :
  exists s1 s2,
    Data.prepare_training_data (manager2, world) = (Ok tt, s1) /\
    List.length (rows (Data.X (fst s1)) "u") = 3 + 4 /\
    Data.prepare_training_data s1 = (Ok tt, s2) /\
    map (fun inst => List.length (loader_X_rows inst "u"))
      (values (Data.data (fst s2))) = [3; 4] /\
    List.length (rows (Data.X (fst s2)) "u") = 14.
Proof.
  destruct manager2_again as (d1 & w1 & l2 & w2 & Hrun1 & Hnd & Hheld & Hp & Hu).
  destruct (@prepare_training_data_merges float d1 w1 l2 w2 Hnd Hp)
    as (X' & sol' & Hrun2 & Hspec).
  exists (d1, w1). eexists. split; [exact Hrun1|]. split; [exact Hheld|].
  split; [exact Hrun2|]. simpl. split; [exact Hu|].
  destruct (Hspec "u") as [(_ & Hlen & _) _].
  rewrite Hlen, Hheld, Hu. reflexivity.
Defined.

(** Three sources; the file of the second does not exist. *)
Definition manager3 : Data.t float :=
  {| Data.parameters :=
       {| parameter.data := [ ("a", hp path u3_C); ("b", hp "missing.mat" u3_C);
                              ("c", hp path u3_C) ] |};
     Data.data :=
       [ ("a", (ISSMmdData.cls, ISSMmdData.__init__ (hp path u3_C)));
         ("b", (ISSMmdData.cls, ISSMmdData.__init__ (hp "missing.mat" u3_C)));
         ("c", (ISSMmdData.cls, ISSMmdData.__init__ (hp path u3_C))) ];
     Data.X := empty; Data.sol := empty |}.

Lemma first_failure_witness :
  Data.load_data (manager3, world)
  = (Raise (OSError "missing.mat"),
     (Data.set_data
        [ ("a", (ISSMmdData.cls, loader path u3_C));
          ("b", (ISSMmdData.cls, ISSMmdData.__init__ (hp "missing.mat" u3_C)));
          ("c", (ISSMmdData.cls, ISSMmdData.__init__ (hp path u3_C))) ]
        manager3,
      world_read [path; "missing.mat"])).
Proof.
  assert (Hnd : NoDup (keys (Data.data manager3))) by check_nodup.
  apply (proj2 (@load_data_in_order float manager3 world Hnd)
           [ ("a", (ISSMmdData.cls, ISSMmdData.__init__ (hp path u3_C))) ]
           "b" ISSMmdData.cls (ISSMmdData.__init__ (hp "missing.mat" u3_C))
           [ ("c", (ISSMmdData.cls, ISSMmdData.__init__ (hp path u3_C))) ]
           [ ("a", (ISSMmdData.cls, loader path u3_C)) ]
           (world_read [path])).
  - reflexivity.
  - eapply loads_cons; [apply load_example | apply loads_nil].
  - vm_compute. reflexivity.
Defined.

(** The registry of the module knows ["ISSM"] and nothing else. *)
Example create_FOO p (w : World float) :
  DataBase.create subclasses "FOO" p w
  = (Raise (ValueError "Data type FOO is not defined"), w).
Proof. reflexivity. Qed.

Example create_ISSM p (w : World float) :
  DataBase.create subclasses "ISSM" p w
  = (Ok (ISSMmdData.cls, ISSMmdData.__init__ p), w).
Proof. reflexivity. Qed.

(** C3, on the manager. A second [prepare_training_data] on the manager
    of one loaded source with [{"u": 3, "C": None}]: both calls return; the
    loader's own [X["u"]] has three rows after each call, but the
    manager's [X["u"]] has three rows after the first call and six after
    the second, and its [sol["C"]] two and then four; the rows of the
    first call are kept and those of the second appended. *)
Theorem prepare_training_data_twice :
  let s1 := Data.prepare_training_data (manager1, world_read [path]) in
  let s2 := Data.prepare_training_data (snd s1) in
  fst s1 = Ok tt /\ fst s2 = Ok tt /\
  map (fun inst => List.length (loader_X_rows inst "u"))
    (values (Data.data (fst (snd s1)))) = [3] /\
  map (fun inst => List.length (loader_X_rows inst "u"))
    (values (Data.data (fst (snd s2)))) = [3] /\
  List.length (rows (Data.X (fst (snd s1))) "u") = 3 /\
  List.length (rows (Data.X (fst (snd s2))) "u") = 6 /\
  List.length (rows (Data.sol (fst (snd s1))) "C") = 2 /\
  List.length (rows (Data.sol (fst (snd s2))) "C") = 4 /\
  firstn 3 (rows (Data.X (fst (snd s2))) "u") = rows (Data.X (fst (snd s1))) "u".
Proof. vm_compute. repeat split; reflexivity. Qed.

End Scenario.

(* ================================================================== *)
(** ** What a method leaves alone, whatever its outcome *)

From Stdlib Require Import Sorted.

Module Frames.

Section Preserves.
Variables (S : Type) (P : S -> S -> Prop).
Hypothesis P_refl : forall s, P s s.
Hypothesis P_trans : forall s1 s2 s3, P s1 s2 -> P s2 s3 -> P s1 s3.

(** [m] relates the state it starts from to the one it ends in by [P],
    whether it returns or raises. *)
Definition preserves {A : Type} (m : M S A) : Prop :=
  forall s, P s (snd (m s)).

Lemma preserves_ret {A : Type} (a : A) : preserves (ret a).
Proof. intros s. apply P_refl. Qed.

Lemma preserves_raise {A : Type} (e : exn) : preserves (@raise S A e).
Proof. intros s. apply P_refl. Qed.

Lemma preserves_lift {A : Type} (r : result A) : preserves (lift r).
Proof. intros s. apply P_refl. Qed.

Lemma preserves_bind {A B : Type} (m : M S A) (f : A -> M S B) :
  preserves m -> (forall a, preserves (f a)) -> preserves (bind m f).
Proof.
  intros Hm Hf s. unfold bind. specialize (Hm s).
  destruct (m s) as [[a|e] s1]; simpl in *; auto.
  eapply P_trans; [exact Hm | apply Hf].
Qed.

Lemma preserves_for_each {A : Type} (l : list A) (body : A -> M S unit) :
  (forall a, preserves (body a)) -> preserves (for_each l body).
Proof.
  intros Hb. induction l as [|a l IH]; simpl.
  - apply preserves_ret.
  - apply preserves_bind; auto.
Qed.
End Preserves.

End Frames.

Module PyDictFacts.

Section Facts.
Variable V : Type.
Implicit Types (d : dict V) (k : string) (v : V).

(** Storing the value a key already has changes nothing. *)
Lemma set_get_same d k v : get d k = Some v -> set d k v = d.
Proof.
  induction d as [|[k' v'] r IH]; simpl; [discriminate|].
  destruct (String.eqb k k') eqn:E.
  - intros Hv. now injection Hv as ->.
  - intros Hv. now rewrite IH.
Qed.

(** Storing twice under a key keeps the second value. *)
Lemma set_set_same d k v v' : set (set d k v) k v' = set d k v'.
Proof.
  induction d as [|[k' w] r IH]; simpl.
  - now rewrite String.eqb_refl.
  - destruct (String.eqb k k') eqn:E; simpl; rewrite E; [reflexivity|].
    now rewrite IH.
Qed.
End Facts.

End PyDictFacts.

(* ================================================================== *)
(** ** Further properties of the ISSM loader *)

Section LoaderEdges.
Import DataBase ISSMmdData ISSMFacts Frames PyDictFacts.
Context {F : Type} `{Scalar F} `{Constants F}.
Implicit Types (o : DataBase.t F) (w : World F).

(** *** [load_data] *)

(** When the file cannot be read, [load_data] raises before it stores
    anything: the loader is as it was, and the read is on the log. *)
Theorem load_data_missing_file o w :
  get (files w) (data_path (DataBase.parameters o)) = None ->
  load_data (o, w)
  = (Raise (OSError (data_path (DataBase.parameters o))),
     (o, read_world (data_path (DataBase.parameters o)) w)).
Proof.
  intros Hfile. unfold load_data.
  unfold bind at 1, self at 1. simpl.
  unfold bind at 1, in_world at 1, loadmat at 1. simpl. now rewrite Hfile.
Qed.

(** What the part of [load_data] after the read leaves alone. *)
Definition keeps_samples (s s' : DataBase.St F) : Prop :=
  DataBase.parameters (fst s') = DataBase.parameters (fst s) /\
  X (fst s') = X (fst s) /\ sol (fst s') = sol (fst s) /\
  snd s' = snd s.

Lemma keeps_samples_refl s : keeps_samples s s.
Proof. unfold keeps_samples. auto. Qed.

Lemma keeps_samples_trans s1 s2 s3 :
  keeps_samples s1 s2 -> keeps_samples s2 s3 -> keeps_samples s1 s3.
Proof. unfold keeps_samples. intuition congruence. Qed.

Ltac keeps_samples_steps :=
  repeat first
    [ apply (preserves_bind keeps_samples_trans); [|intros ?]
    | apply (preserves_lift keeps_samples_refl)
    | apply (preserves_ret keeps_samples_refl)
    | intros [? ?]; unfold keeps_samples; simpl; auto; fail ].

Lemma read_then_keeps
    (K : DataBase.t F -> MatFile F -> M (DataBase.St F) unit) :
  (forall o data, preserves keeps_samples (K o data)) ->
  forall o w,
    let s' := snd ((o0 <- self ;;
                    data <- in_world (loadmat (data_path (DataBase.parameters o0))) ;;
                    K o0 data) (o, w)) in
    DataBase.parameters (fst s') = DataBase.parameters o /\
    X (fst s') = X o /\ sol (fst s') = sol o /\
    files (snd s') = files w /\ gen (snd s') = gen w /\
    io_log (snd s') = io_log w ++ [data_path (DataBase.parameters o)].
Proof.
  intros HK o w.
  unfold bind, self, in_world, loadmat. simpl.
  destruct (get (files w) (data_path (DataBase.parameters o))) as [data|];
    simpl; [|auto 10].
  generalize (HK o data (o, read_world (data_path (DataBase.parameters o)) w)).
  unfold keeps_samples, read_world.
  destruct (K o data _) as [r [o' w']]. simpl.
  intros (Hp & HX & Hs & ->). simpl. auto 10.
Qed.

(** Whatever the file holds and whether the call returns or raises,
    [load_data] reads one file, once, and never touches the parameters,
    [X], [sol], the file system or the generator. *)
Theorem load_data_reads_once o w :
  let s' := snd (load_data (o, w)) in
  DataBase.parameters (fst s') = DataBase.parameters o /\
  X (fst s') = X o /\ sol (fst s') = sol o /\
  files (snd s') = files w /\ gen (snd s') = gen w /\
  io_log (snd s') = io_log w ++ [data_path (DataBase.parameters o)].
Proof.
  unfold load_data. apply read_then_keeps.
  intros o0 data. unfold field. keeps_samples_steps.
Qed.

(** Loading the same file a second time stores what is stored already:
    the loader does not change, only the read is logged again. *)
Theorem load_data_twice o w data md
    x y vx_obs vy_obs surface thickness friction rheology_B
    ice_levelset vertexonboundary :
  get (files w) (data_path (DataBase.parameters o)) = Some data ->
  get data "md" = Some md ->
  is_model md x y vx_obs vy_obs surface thickness friction rheology_B
    ice_levelset vertexonboundary ->
  List.length vx_obs = List.length vy_obs ->
  exists o1 w1,
    load_data (o, w) = (Ok tt, (o1, w1)) /\
    load_data (o1, w1)
    = (Ok tt, (o1, read_world (data_path (DataBase.parameters o)) w1)).
Proof.
  intros Hfile Hmd Hmodel Hlen.
  eexists _, _. split; [eapply load_data_eq; eauto|].
  erewrite load_data_eq; simpl; eauto.
  unfold load_data_result. simpl.
  repeat match goal with
         | |- context [set (set ?d ?k1 ?v1) ?k ?v] =>
             rewrite (@set_get_same _ (set d k1 v1) k v)
               by (repeat (rewrite get_set_other by discriminate);
                   apply get_set_same)
         end.
  reflexivity.
Qed.


(** [load_data] keeps the arrays index-aligned: when the ten arrays of
    the file have one length and the loader held no field of another
    length, it returns a loader with both coordinates and both masks
    stored and every per-vertex array of that length. *)
Theorem load_data_aligned o w data md
    x y vx_obs vy_obs surface thickness friction rheology_B
    ice_levelset vertexonboundary :
  get (files w) (data_path (DataBase.parameters o)) = Some data ->
  get data "md" = Some md ->
  is_model md x y vx_obs vy_obs surface thickness friction rheology_B
    ice_levelset vertexonboundary ->
  Forall (fun a : array F => List.length a = List.length x)
    [y; vx_obs; vy_obs; surface; thickness; friction; rheology_B;
     ice_levelset; vertexonboundary] ->
  (forall k a, get (data_dict o) k = Some a -> List.length a = List.length x) ->
  exists o' w',
    load_data (o, w) = (Ok tt, (o', w')) /\
    loaded o' x y ice_levelset vertexonboundary /\
    forall k a, get (data_dict o') k = Some a ->
                List.length a = List.length x.
Proof.
  intros Hfile Hmd Hmodel Hlens Hold.
  destruct (@load_data_loaded _ _ _ o w data md x y vx_obs vy_obs surface
              thickness friction rheology_B ice_levelset vertexonboundary
              Hfile Hmd Hmodel Hlens Hold) as (o' & w' & Hrun & Hl).
  exists o', w'. split; [exact Hrun|]. split; [exact Hl|].
  now destruct Hl.
Qed.

(** *** Masks and coordinates *)

Lemma nonzero_from_sorted i m : StronglySorted Nat.lt (nonzero_from i m).
Proof.
  revert i. induction m as [|b r IH]; intros i; simpl; [constructor|].
  destruct b; auto. constructor; auto.
  apply Forall_forall. intros v Hv. apply nonzero_from_ge in Hv. lia.
Qed.

(** With the name of a mask that is stored, [get_ice_indices] reads that
    mask: it returns, in increasing order and each once, the positions of
    its negative entries, and changes nothing. *)
Theorem get_ice_indices_named_mask o w mask_name m :
  mask_name <> "" ->
  get (mask_dict o) mask_name = Some m ->
  get_ice_indices mask_name (o, w) = (Ok (ice_vertices m), (o, w)) /\
  StronglySorted Nat.lt (ice_vertices m) /\
  (forall v, In v (ice_vertices m) <->
             exists a, nth_error m v = Some a /\ f_lt a f_zero = true).
Proof.
  intros Hne Hm.
  rewrite get_ice_indices_eq. unfold resolved_mask.
  apply String.eqb_neq in Hne. rewrite Hne.
  assert (Hmem : mem mask_name (mask_dict o) = true) by (apply mem_get; eauto).
  rewrite Hmem. simpl. rewrite Hm.
  split; [reflexivity|]. split; [apply nonzero_from_sorted|].
  apply ice_vertices_spec.
Qed.

(** On a loaded loader [get_ice_coordinates] returns one row per ice
    vertex, in vertex order, holding that vertex's [x] and [y]; it changes
    nothing. *)
Theorem get_ice_coordinates_rows o w x y icemask DBC mask_name :
  loaded o x y icemask DBC ->
  mask_name = "" \/ ~ In mask_name (keys (mask_dict o)) ->
  exists rows,
    get_ice_coordinates mask_name (o, w) = (Ok rows, (o, w)) /\
    List.length rows = List.length (ice_vertices icemask) /\
    coords_at x y (ice_vertices icemask) rows.
Proof.
  intros [Hx Hy Hice HDBC Hly Hlm _ _] Hname.
  assert (Hres : resolved_mask o mask_name = "icemask").
  { unfold resolved_mask. destruct Hname as [->|Hnot]; [reflexivity|].
    destruct (mem mask_name (mask_dict o)) eqn:Hm.
    - apply mem_keys in Hm. contradiction.
    - now rewrite orb_true_r. }
  pose proof (ice_vertices_in_bounds icemask) as Hb. rewrite Hlm in Hb.
  destruct (take_total x Hb) as [xi Hxi].
  rewrite <- Hly in Hb. destruct (take_total y Hb) as [yi Hyi].
  exists (combine xi yi). split; [|split].
  - unfold get_ice_coordinates. unfold bind at 1.
    rewrite get_ice_indices_eq, Hres, Hice.
    apply coordinates_at_eq with (x := x) (y := y); auto.
  - rewrite length_combine, (take_length _ _ Hxi), (take_length _ _ Hyi). lia.
  - now apply combine_coords_at.
Qed.

(** Before [load_data] there is no ice mask: [get_ice_coordinates]
    raises [KeyError], and so does [prepare_training_data], which by then
    has replaced [X] and [sol] by empty dictionaries. *)
Theorem not_loaded_raises o w mask_name arg :
  get (mask_dict o) "icemask" = None ->
  mask_name = "" \/ ~ In mask_name (keys (mask_dict o)) ->
  get_ice_coordinates mask_name (o, w) = (Raise (KeyError "icemask"), (o, w)) /\
  prepare_training_data arg (o, w)
  = (Raise (KeyError "icemask"), (with_samples empty empty o, w)).
Proof.
  intros Hice Hname.
  assert (Hres : resolved_mask o mask_name = "icemask").
  { unfold resolved_mask. destruct Hname as [->|Hnot]; [reflexivity|].
    destruct (mem mask_name (mask_dict o)) eqn:Hm.
    - apply mem_keys in Hm. contradiction.
    - now rewrite orb_true_r. }
  split.
  - unfold get_ice_coordinates. unfold bind at 1.
    now rewrite get_ice_indices_eq, Hres, Hice.
  - unfold prepare_training_data.
    unfold bind at 1, self at 1. simpl.
    unfold bind at 1, update_self at 1. simpl.
    unfold bind at 1, update_self at 1. simpl.
    unfold bind at 1. rewrite get_ice_indices_eq.
    unfold resolved_mask. simpl. now rewrite Hice.
Qed.

(** *** [plot] *)

Lemma select_spec (d : dict (array F)) names : forall acc,
  (forall k, In k names -> mem k d = true) ->
  exists sub,
    select d names acc = Ok sub /\
    forall k, (In k names -> get sub k = get d k) /\
              (~ In k names -> get sub k = get acc k).
Proof.
  induction names as [|k0 names IH]; intros acc Hall; simpl.
  - exists acc. split; [reflexivity|]. intros k. split; [intros []|auto].
  - destruct (proj1 (mem_get _ _) (Hall k0 (or_introl eq_refl))) as [v Hv].
    unfold getitem. rewrite Hv.
    destruct (IH (set acc k0 v)) as (sub & Hrun & Hspec).
    { intros k Hk. apply Hall. now right. }
    exists sub. split; [exact Hrun|].
    intros k. destruct (Hspec k) as [Hin Hout]. split.
    + intros [<-|Hk]; [|auto].
      destruct (in_dec string_dec k0 names) as [Hk|Hk]; [auto|].
      rewrite (Hout Hk), get_set_same. auto.
    + intros Hk. rewrite Hout by tauto.
      apply get_set_other. intros ->. apply Hk. now left.
Qed.

(** [plot] never raises for a name that is not a field: it hands
    [plot_dict_data] the coordinates and exactly the entries of
    [data_dict] that [data_names] lists, all of them when [data_names] is
    empty, and changes nothing itself. *)
Theorem plot_selects {R : Type}
    (plot_dict_data : dict (array F) -> dict (array F) -> M (DataBase.St F) R)
    data_names o w :
  exists sub,
    plot plot_dict_data data_names (o, w)
    = plot_dict_data (X_dict o) sub (o, w) /\
    forall k a, get sub k = Some a <->
                (data_names = [] \/ In k data_names) /\
                get (data_dict o) k = Some a.
Proof.
  set (names := match data_names with
                | [] => keys (data_dict o)
                | _ :: _ => filter (fun k => mem k (data_dict o)) data_names
                end).
  assert (Hnames : forall k, In k names <->
                     (data_names = [] \/ In k data_names) /\
                     mem k (data_dict o) = true).
  { intros k. unfold names. destruct data_names as [|n0 r].
    - rewrite <- mem_keys. simpl. tauto.
    - rewrite filter_In. split; [tauto|]. intros [[E|Hin] Hm]; [discriminate|auto]. }
  destruct (@select_spec (data_dict o) names empty) as (sub & Hrun & Hspec).
  { intros k Hk. now apply Hnames in Hk. }
  exists sub. split.
  - unfold plot. unfold bind at 1, self at 1. simpl.
    fold names. unfold bind at 1, lift at 1. now rewrite Hrun.
  - intros k a. destruct (Hspec k) as [Hin Hout].
    destruct (in_dec string_dec k names) as [Hk|Hk].
    + rewrite (Hin Hk). apply Hnames in Hk. tauto.
    + rewrite (Hout Hk). simpl. split; [discriminate|].
      intros [Hreq Ha]. exfalso. apply Hk, Hnames. split; [exact Hreq|].
      apply mem_get. eauto.
Qed.

(** *** [prepare_training_data] *)

(** What sampling leaves alone. *)
Definition keeps_loaded (s s' : DataBase.St F) : Prop :=
  same_data (fst s) (fst s') /\ same_files (snd s) (snd s').

Lemma keeps_loaded_refl s : keeps_loaded s s.
Proof. unfold keeps_loaded, same_data, same_files. auto 10. Qed.

Lemma keeps_loaded_trans s1 s2 s3 :
  keeps_loaded s1 s2 -> keeps_loaded s2 s3 -> keeps_loaded s1 s3.
Proof. unfold keeps_loaded, same_data, same_files. intuition congruence. Qed.

Lemma random_choice_keeps a size :
  preserves keeps_loaded (in_world (@random_choice F a size)).
Proof.
  intros [o w]. unfold in_world, random_choice. simpl.
  destruct (choice a size (gen w)). simpl.
  unfold keeps_loaded, same_data, same_files. simpl. auto 10.
Qed.

Ltac keeps_loaded_steps :=
  repeat first
    [ apply (preserves_bind keeps_loaded_trans); [|intros ?]
    | apply (preserves_lift keeps_loaded_refl)
    | apply (preserves_ret keeps_loaded_refl)
    | apply (preserves_raise keeps_loaded_refl)
    | apply (preserves_for_each keeps_loaded_refl keeps_loaded_trans); intros ?
    | apply random_choice_keeps
    | match goal with
      | |- preserves _ (if ?b then _ else _) => destruct b
      | |- preserves _ (match ?x with _ => _ end) => destruct x
      end
    | intros [? ?]; unfold keeps_loaded, same_data, same_files; simpl;
      auto 10; fail ].

(** Whatever the state of the loader and whether the call returns or
    raises, [prepare_training_data] writes only [X] and [sol] and advances
    only the generator: the parameters, the three loaded dictionaries, the
    files and the read log are as before. *)
Theorem prepare_training_data_keeps arg o w :
  let s' := snd (prepare_training_data arg (o, w)) in
  DataBase.parameters (fst s') = DataBase.parameters o /\
  X_dict (fst s') = X_dict o /\ data_dict (fst s') = data_dict o /\
  mask_dict (fst s') = mask_dict o /\
  files (snd s') = files w /\ io_log (snd s') = io_log w.
Proof.
  assert (Hp : preserves keeps_loaded (prepare_training_data arg)).
  { unfold prepare_training_data, get_ice_indices, coordinates_at,
      sample_field, setitem_X, setitem_sol.
    keeps_loaded_steps. }
  destruct (Hp (o, w)) as [(H1 & H2 & H3 & H4) (H5 & H6)].
  simpl in *. auto 10.
Qed.

(** **** Negative counts *)

Section Rounds.
Variables (data_size : dict (option Z)) (iice : list nat) (X_temp : coords F)
  (idbc : list nat) (X_bc : coords F).

(** What a round needs of the state to go through or to fail on the
    count alone. *)
Definition round_ready (k : string) (s : DataBase.St F) : Prop :=
  (exists dx, X (fst s) = Some dx) /\ (exists dsol, sol (fst s) = Some dsol) /\
  exists a, get (data_dict (fst s)) k = Some a /\
            Forall (fun i => i < List.length a) iice /\
            Forall (fun i => i < List.length a) idbc.

Lemma round_nonnegative k s :
  round_ready k s -> List.length iice = List.length X_temp ->
  (forall n, get data_size k = Some (Some n) -> (0 <= n)%Z) ->
  exists s', sampled data_size iice X_temp idbc X_bc k s s'.
Proof.
  destruct s as [o w]. intros ([dx HX] & [dsol Hsol] & a & Ha & Hi & Hb) Hlen Hsz.
  simpl in *. destruct (get data_size k) as [[n|]|] eqn:Hk.
  - destruct (take_total a Hi) as [sol_temp Hst].
    specialize (Hsz n eq_refl).
    destruct (@choice_total (List.length X_temp)
                (Z.min n (Z.of_nat (List.length X_temp))) (gen w))
      as (idx & g' & Hc); [lia|].
    destruct (choice_spec _ _ _ Hc) as (_ & _ & _ & Hbi).
    destruct (take_total X_temp Hbi) as [Xk HXk].
    assert (Hb' : Forall (fun i => i < List.length sol_temp) idx).
    { rewrite (take_length _ _ Hst), Hlen. exact Hbi. }
    destruct (take_total sol_temp Hb') as [solk Hsk].
    eexists. eapply sampled_random; eauto.
  - destruct (take_total a Hb) as [solk Hsk].
    eexists. eapply sampled_boundary; eauto.
  - eexists. apply sampled_skip. now apply mem_false_get.
Qed.

Lemma choice_negative a size g :
  (size < 0)%Z -> exists msg, choice a size g = (Raise (ValueError msg), g).
Proof.
  intros Hneg. unfold choice.
  destruct ((a =? 0)%nat && negb (size =? 0)%Z); [eauto|].
  destruct (Z.ltb_spec (Z.of_nat a) size); [lia|].
  destruct (Z.ltb_spec size 0); [eauto | lia].
Qed.

Lemma round_negative k s n :
  round_ready k s -> get data_size k = Some (Some n) -> (n < 0)%Z ->
  exists msg,
    round data_size iice X_temp idbc X_bc k s = (Raise (ValueError msg), s).
Proof.
  destruct s as [o w]. intros (_ & _ & a & Ha & Hi & _) Hk Hneg. simpl in *.
  destruct (take_total a Hi) as [sol_temp Hst].
  destruct (@choice_negative (List.length X_temp)
              (Z.min n (Z.of_nat (List.length X_temp))) (gen w))
    as [msg Hc]; [lia|].
  exists msg. unfold round, sample_field.
  assert (Hm : mem k data_size = true) by (apply mem_get; eauto).
  rewrite Hm. unfold bind at 1, lift at 1, getitem at 1. rewrite Hk.
  unfold bind at 1, self at 1. simpl.
  unfold bind at 1, lift at 1, getitem at 1. rewrite Ha.
  unfold bind at 1, lift at 1. rewrite Hst.
  unfold bind at 1, in_world at 1, random_choice at 1. simpl. rewrite Hc.
  now destruct w.
Qed.

Lemma round_ready_step k' k s s' :
  sampled data_size iice X_temp idbc X_bc k' s s' ->
  round_ready k s -> round_ready k s'.
Proof.
  intros Hs ([dx HX] & [dsol Hsol] & Ha).
  destruct (sampled_keys Hs HX Hsol) as (dx' & dsol' & HX' & Hsol' & _).
  destruct (sampled_frame Hs) as [(_ & _ & Hd & _) _].
  unfold round_ready. rewrite Hd. eauto.
Qed.

Lemma loop_negative ks : forall s,
  (forall k, In k ks -> round_ready k s) ->
  List.length iice = List.length X_temp ->
  (exists k n, In k ks /\ get data_size k = Some (Some n) /\ (n < 0)%Z) ->
  exists msg s',
    for_each ks (round data_size iice X_temp idbc X_bc) s
    = (Raise (ValueError msg), s').
Proof.
  induction ks as [|k0 ks IH]; intros s Hready Hlen (k & n & Hin & Hk & Hneg).
  - destruct Hin.
  - simpl.
    assert (Hcase : (exists n0, get data_size k0 = Some (Some n0) /\ (n0 < 0)%Z)
                    \/ forall n0, get data_size k0 = Some (Some n0) -> (0 <= n0)%Z).
    { destruct (get data_size k0) as [[n0|]|]; try (right; discriminate).
      destruct (Z.lt_ge_cases n0 0); [left; eauto|].
      right. intros n1 E. injection E as <-. lia. }
    destruct Hcase as [(n0 & Hk0 & Hneg0)|Hok].
    + destruct (@round_negative k0 s n0 (Hready k0 (or_introl eq_refl)) Hk0 Hneg0)
        as [msg Hr].
      exists msg, s. now rewrite (bind_raise _ _ _ Hr).
    + destruct (@round_nonnegative k0 s (Hready k0 (or_introl eq_refl)) Hlen Hok)
        as [s1 Hs1].
      destruct (IH s1) as (msg & s' & Hloop); auto.
      * intros k1 Hk1. eapply round_ready_step; eauto. apply Hready. now right.
      * exists k, n. split; [|auto]. destruct Hin as [<-|Hin]; [|exact Hin].
        specialize (Hok n Hk). lia.
      * exists msg, s'. apply sample_field_sampled in Hs1.
        now rewrite (bind_ok _ _ _ Hs1).
Qed.
End Rounds.

(** On a loaded loader, [prepare_training_data] returns exactly when no
    field of [data_dict] is asked for a negative number of rows; with a
    negative count it raises [ValueError]. *)
Theorem prepare_training_data_returns_iff arg o w x y icemask DBC :
  loaded o x y icemask DBC ->
  ((exists s', prepare_training_data arg (o, w) = (Ok tt, s'))
   <-> counts_ok (requested arg o) o) /\
  ((exists k n, In k (keys (data_dict o)) /\
                get (requested arg o) k = Some (Some n) /\ (n < 0)%Z) ->
   exists msg s',
     prepare_training_data arg (o, w) = (Raise (ValueError msg), s')).
Proof.
  intros Hl.
  assert (Hraise : (exists k n, In k (keys (data_dict o)) /\
                      get (requested arg o) k = Some (Some n) /\ (n < 0)%Z) ->
                   exists msg s',
                     prepare_training_data arg (o, w)
                     = (Raise (ValueError msg), s')).
  { intros Hneg. pose proof Hl as [Hx Hy Hice HDBC Hly Hlm HlD Hlf].
    pose proof (ice_vertices_in_bounds icemask) as Hbi. rewrite Hlm in Hbi.
    pose proof (boundary_vertices_in_bounds DBC) as Hbb. rewrite HlD in Hbb.
    destruct (take_total x Hbi) as [xi Hxi].
    destruct (take_total x Hbb) as [xb Hxb].
    rewrite <- Hly in Hbi, Hbb.
    destruct (take_total y Hbi) as [yi Hyi].
    destruct (take_total y Hbb) as [yb Hyb].
    rewrite Hly in Hbi, Hbb.
    rewrite (prepare_training_data_eq arg w Hl Hxi Hyi Hxb Hyb).
    apply loop_negative; auto.
    - intros k Hk. apply mem_keys, mem_get in Hk. destruct Hk as [a Ha].
      unfold round_ready. simpl. split; [eauto|]. split; [eauto|].
      exists a. rewrite (Hlf _ _ Ha). auto.
    - rewrite length_combine, (take_length _ _ Hxi), (take_length _ _ Hyi). lia. }
  split; [split|exact Hraise].
  - intros [s' Hrun] k n Hk Hn.
    destruct (Z.lt_ge_cases n 0) as [Hneg|]; [|assumption].
    destruct Hraise as (msg & s1 & Hr); [eauto|]. congruence.
  - intros Hc.
    destruct (prepare_training_data_loaded arg w Hl Hc)
      as (_ & _ & _ & _ & s' & _ & _ & _ & _ & Hrun & _).
    eauto.
Qed.

(** **** Counts at and above the size of the ice region *)

Lemma map_nth_seq (A : Type) (l : list A) (d : A) :
  map (fun i => nth i l d) (seq 0 (List.length l)) = l.
Proof.
  induction l as [|a l IH]; simpl; [reflexivity|].
  f_equal. rewrite <- seq_shift, map_map. exact IH.
Qed.

Lemma take_map_nth (A : Type) (l : list A) (d : A) idx vs :
  take l idx = Ok vs -> vs = map (fun i => nth i l d) idx.
Proof.
  intros Ht. apply take_spec in Ht.
  induction Ht as [|i v idx vs Hv _ IH]; simpl; [reflexivity|].
  f_equal; [|exact IH]. symmetry. now apply nth_error_nth.
Qed.

Lemma full_sample_Permutation (A : Type) (l : list A) idx vs :
  NoDup idx -> Forall (fun i => i < List.length l) idx ->
  List.length idx = List.length l ->
  take l idx = Ok vs -> Permutation vs l.
Proof.
  intros Hnd Hb Hlen Ht.
  assert (Hp : Permutation idx (seq 0 (List.length l))).
  { apply NoDup_Permutation_bis; auto.
    - rewrite length_seq. lia.
    - intros i Hi. apply in_seq. rewrite Forall_forall in Hb.
      specialize (Hb i Hi). lia. }
  destruct l as [|d l'].
  - destruct idx; [|discriminate]. simpl in Ht. injection Ht as <-. constructor.
  - rewrite (@take_map_nth A (d :: l') d idx vs Ht).
    etransitivity; [apply Permutation_map; exact Hp|].
    now rewrite map_nth_seq.
Qed.

(** A count at least the number of ice vertices is clamped: the call
    returns and the rows of [X[k]] and [sol[k]] are read at all the ice
    vertices, each once, in the order the generator put them. *)
Theorem prepare_training_data_clamped arg o w x y icemask DBC k n :
  loaded o x y icemask DBC ->
  counts_ok (requested arg o) o ->
  In k (keys (data_dict o)) ->
  get (requested arg o) k = Some (Some n) ->
  (Z.of_nat (List.length (ice_vertices icemask)) <= n)%Z ->
  exists o' w' Xk solk a vs,
    prepare_training_data arg (o, w) = (Ok tt, (o', w')) /\
    X_at o' k = Some Xk /\ sol_at o' k = Some solk /\
    Permutation vs (ice_vertices icemask) /\
    get (data_dict o) k = Some a /\
    coords_at x y vs Xk /\ values_at a vs solk.
Proof.
  intros Hl Hc Hk Hn Hbig.
  destruct (prepare_training_data_loaded arg w Hl Hc)
    as (xi & yi & xb & yb & [o' w'] & Hxi & Hyi & Hxb & Hyb & Hrun & Hall).
  assert (Hmem : mem k (requested arg o) = true) by (apply mem_get; eauto).
  pose proof (sampled_all_frame Hall) as [(_ & _ & Hdd & _) _]. simpl in Hdd.
  pose proof (sampled_all_entry (k:=k) Hall (or_introl (conj Hk Hmem)))
    as (dx & dsol & Xk & solk & HX & Hsol & HXk & Hsolk & He).
  simpl in HX, Hsol, He. unfold entry in He. rewrite Hn, Hdd in He.
  destruct He as (a & sol_temp & idx & Ha & Hst & _ & Hlen & Hnd & Hb & HtX & Hts).
  assert (Hmax : List.length (combine xi yi) = List.length (ice_vertices icemask)).
  { rewrite length_combine, (take_length _ _ Hxi), (take_length _ _ Hyi). lia. }
  rewrite Hmax in Hlen, Hb.
  destruct (@take_compose _ _ _ _ _ _ Hst Hts) as (vs & Hvs & Havs).
  exists o', w', Xk, solk, a, vs.
  unfold X_at, sol_at. rewrite HX, Hsol.
  split; [exact Hrun|]. split; [exact HXk|]. split; [exact Hsolk|].
  split; [|split; [exact Ha|split]].
  - eapply full_sample_Permutation; eauto. lia.
  - eapply take_combine_coords_at; [exact Hxi | exact Hyi | exact Hvs | exact HtX].
  - apply take_spec. exact Havs.
Qed.

(** **** Row counts *)

(** After the call every key has as many rows in [sol] as in [X]: for a
    count [n >= 0] the smaller of [n] and the number of ice vertices (an
    empty array for [0], not a missing key), for [None] the number of
    boundary vertices, and no entry otherwise. *)
Theorem prepare_training_data_row_counts arg o w x y icemask DBC :
  loaded o x y icemask DBC ->
  counts_ok (requested arg o) o ->
  exists o' w',
    prepare_training_data arg (o, w) = (Ok tt, (o', w')) /\
    forall k,
      option_map (@List.length _) (X_at o' k)
        = expected_rows (requested arg o) (data_dict o) icemask DBC k /\
      option_map (@List.length _) (sol_at o' k)
        = option_map (@List.length _) (X_at o' k).
Proof.
  intros Hl Hc.
  destruct (prepare_training_data_loaded arg w Hl Hc)
    as (_ & _ & _ & _ & [o' w'] & _ & _ & _ & _ & Hrun & _).
  exists o', w'. split; [exact Hrun|]. intros k.
  destruct (@prepare_training_data_rows _ _ arg o w x y icemask DBC o' w' k
              Hl Hc Hrun) as [HX Hs].
  split; congruence.
Qed.

(** A later call with another [data_size] starts over: what [X] and [sol]
    hold afterwards is decided by the second [data_size] alone, and a
    field that only the first call asked for is gone. *)
Theorem prepare_training_data_again arg1 arg2 o w x y icemask DBC :
  loaded o x y icemask DBC ->
  counts_ok (requested arg1 o) o ->
  counts_ok (requested arg2 o) o ->
  exists o1 w1 o2 w2,
    prepare_training_data arg1 (o, w) = (Ok tt, (o1, w1)) /\
    prepare_training_data arg2 (o1, w1) = (Ok tt, (o2, w2)) /\
    forall k,
      option_map (@List.length _) (X_at o2 k)
        = expected_rows (requested arg2 o) (data_dict o) icemask DBC k /\
      option_map (@List.length _) (sol_at o2 k)
        = expected_rows (requested arg2 o) (data_dict o) icemask DBC k.
Proof.
  intros Hl Hc1 Hc2.
  destruct (prepare_training_data_loaded arg1 w Hl Hc1)
    as (_ & _ & _ & _ & [o1 w1] & _ & _ & _ & _ & Hrun1 & _).
  destruct (@prepare_training_data_frame _ _ arg1 o w x y icemask DBC o1 w1
              Hl Hc1 Hrun1) as ((Hp & _ & Hdd & _) & _ & Hl1 & _ & _).
  assert (Hreq : requested arg2 o1 = requested arg2 o).
  { destruct arg2; simpl; congruence. }
  assert (Hc2' : counts_ok (requested arg2 o1) o1).
  { rewrite Hreq. unfold counts_ok. rewrite Hdd. exact Hc2. }
  destruct (prepare_training_data_loaded arg2 w1 Hl1 Hc2')
    as (_ & _ & _ & _ & [o2 w2] & _ & _ & _ & _ & Hrun2 & _).
  exists o1, w1, o2, w2. split; [exact Hrun1|]. split; [exact Hrun2|].
  intros k.
  destruct (@prepare_training_data_rows _ _ arg2 o1 w1 x y icemask DBC o2 w2 k
              Hl1 Hc2' Hrun2) as [HX Hs].
  rewrite HX, Hs, Hreq, Hdd. auto.
Qed.

End LoaderEdges.

(* ================================================================== *)
(** ** Further properties of the registry and the manager *)

Section ManagerEdges.
Import DataFacts PyDictFacts.
Context {F : Type}.
Implicit Types (d : Data.t F) (w : World F)
  (subclasses : dict (DataBase.class F)).

(** *** The registry *)

(** A class registered under a tag that is taken replaces the class that
    was there; the other tags keep their classes. *)
Theorem init_subclass_last_wins subclasses c1 c2 tag p w :
  DataBase._DATA_TYPE c1 = DataBase._DATA_TYPE c2 ->
  let registry :=
    DataBase.__init_subclass__ (DataBase.__init_subclass__ subclasses c1) c2 in
  DataBase.create registry (DataBase._DATA_TYPE c1) p w
    = (Ok (c2, DataBase.init c2 p), w) /\
  (tag <> DataBase._DATA_TYPE c1 ->
   DataBase.create registry tag p w = DataBase.create subclasses tag p w).
Proof.
  intros Htag registry. unfold registry, DataBase.__init_subclass__.
  rewrite <- Htag. split.
  - unfold DataBase.create. rewrite mem_set_same. simpl.
    unfold bind, lift, getitem, ret. now rewrite get_set_same.
  - intros Hne. unfold DataBase.create.
    rewrite !mem_set_other by congruence.
    unfold bind, lift, getitem. rewrite !get_set_other by congruence.
    reflexivity.
Qed.

(** *** [Data.__init__] *)

Lemma create_all_spec subclasses p ks : forall acc w,
  NoDup ks ->
  (forall k, In k ks -> exists pk cls,
     get p k = Some pk /\ get subclasses (source pk) = Some cls) ->
  exists l,
    Data.create_all subclasses p ks acc w = (Ok l, w) /\
    (forall k, ~ In k ks -> get l k = get acc k) /\
    (forall k pk, In k ks -> get p k = Some pk -> exists cls,
       get subclasses (source pk) = Some cls /\
       get l k = Some (cls, DataBase.init cls pk)) /\
    (forall k, In k (keys l) <-> In k (keys acc) \/ In k ks).
Proof.
  induction ks as [|k0 ks IH]; intros acc w Hnd Hall.
  - exists acc. split; [reflexivity|]. split; [auto|]. split.
    + intros k pk [].
    + intros k. simpl. tauto.
  - inversion Hnd as [|? ? Hnot Hnd']; subst.
    destruct (Hall k0 (or_introl eq_refl)) as (pk0 & cls0 & Hp0 & Hc0).
    destruct (IH (set acc k0 (cls0, DataBase.init cls0 pk0)) w Hnd')
      as (l & Hrun & Hout & Hin & Hkeys).
    { intros k Hk. apply Hall. now right. }
    exists l. split; [|split; [|split]].
    + simpl. unfold bind at 1, lift at 1, getitem at 1. rewrite Hp0.
      unfold bind at 1, DataBase.create.
      assert (Hm : mem (source pk0) subclasses = true) by (apply mem_get; eauto).
      rewrite Hm. simpl. unfold bind at 1, lift at 1, getitem at 1.
      rewrite Hc0. simpl. exact Hrun.
    + intros k Hk. rewrite Hout by (intros Hk'; apply Hk; now right).
      apply get_set_other. intros ->. apply Hk. now left.
    + intros k pk [<-|Hk] Hpk.
      * exists cls0. assert (pk = pk0) as -> by congruence.
        split; [exact Hc0|]. rewrite (Hout k0 Hnot). apply get_set_same.
      * apply Hin; auto.
    + intros k. rewrite Hkeys, <- !mem_keys.
      destruct (string_dec k0 k) as [<-|Hne].
      * rewrite mem_set_same. simpl. tauto.
      * rewrite mem_set_other by exact Hne. simpl. intuition congruence.
Qed.

Lemma create_all_unknown subclasses p ks : forall acc w,
  (forall k, In k ks -> exists pk, get p k = Some pk) ->
  (exists k pk, In k ks /\ get p k = Some pk /\
                get subclasses (source pk) = None) ->
  exists msg, Data.create_all subclasses p ks acc w = (Raise (ValueError msg), w).
Proof.
  induction ks as [|k0 ks IH]; intros acc w Hall (k & pk & Hin & Hpk & Hnone).
  - destruct Hin.
  - destruct (Hall k0 (or_introl eq_refl)) as [pk0 Hp0].
    simpl. unfold bind at 1, lift at 1, getitem at 1. rewrite Hp0.
    unfold bind at 1, DataBase.create.
    destruct (mem (source pk0) subclasses) eqn:Hm; simpl.
    + apply mem_get in Hm. destruct Hm as [cls0 Hc0].
      unfold bind at 1, lift at 1, getitem at 1. rewrite Hc0. simpl.
      apply IH.
      * intros k' Hk'. apply Hall. now right.
      * exists k, pk. split; [|auto]. destruct Hin as [<-|Hin]; [|exact Hin].
        congruence.
    + unfold raise. eauto.
Qed.

(** [Data.__init__] reads no file.  When every configured source names a
    registered class it returns a manager with one fresh, unloaded loader
    per source, of the class registered for the source's tag and holding
    the source's parameters, and with empty [X] and [sol]; when some
    source names an unregistered tag it raises [ValueError]. *)
Theorem Data_init_builds subclasses (parameters : DataParameter) w :
  NoDup (keys (parameter.data parameters)) ->
  ((forall k pk, get (parameter.data parameters) k = Some pk ->
      exists cls, get subclasses (source pk) = Some cls) ->
   exists d,
     Data.__init__ subclasses parameters w = (Ok d, w) /\
     Data.X d = empty /\ Data.sol d = empty /\
     (forall k, In k (keys (Data.data d)) <->
                In k (keys (parameter.data parameters))) /\
     forall k pk, get (parameter.data parameters) k = Some pk ->
       exists cls, get subclasses (source pk) = Some cls /\
                   get (Data.data d) k = Some (cls, DataBase.init cls pk)) /\
  ((exists k pk, get (parameter.data parameters) k = Some pk /\
                 get subclasses (source pk) = None) ->
   exists msg,
     Data.__init__ subclasses parameters w = (Raise (ValueError msg), w)).
Proof.
  intros Hnd. split.
  - intros Hall.
    destruct (@create_all_spec subclasses (parameter.data parameters)
                (keys (parameter.data parameters)) empty w Hnd)
      as (l & Hrun & _ & Hin & Hkeys).
    { intros k Hk. apply mem_keys, mem_get in Hk. destruct Hk as [pk Hpk].
      destruct (Hall k pk Hpk) as [cls Hcls]. eauto. }
    eexists. split; [|split; [|split; [|split]]].
    + unfold Data.__init__. rewrite (bind_ok _ _ _ Hrun). reflexivity.
    + reflexivity.
    + reflexivity.
    + intros k. simpl. rewrite Hkeys. simpl. tauto.
    + intros k pk Hpk. simpl. apply Hin; auto.
      apply mem_keys, mem_get. eauto.
  - intros (k & pk & Hpk & Hnone).
    destruct (@create_all_unknown subclasses (parameter.data parameters)
                (keys (parameter.data parameters)) empty w) as [msg Hrun].
    + intros k' Hk'. now apply mem_keys, mem_get in Hk'.
    + exists k, pk. split; [|auto]. apply mem_keys, mem_get. eauto.
    + exists msg. unfold Data.__init__. now rewrite (bind_raise _ _ _ Hrun).
Qed.

(** *** [Data.prepare_training_data], whatever [X] and [sol] held *)

(** The manager never clears its [X] and [sol]: a call keeps the rows
    they hold and puts the rows its loaders have just sampled after
    them, in the order of [self.data]. *)
Theorem prepare_training_data_appends d w l' w' :
  NoDup (keys (Data.data d)) ->
  prepares (Data.data d) w l' w' ->
  exists X' sol',
    Data.prepare_training_data (d, w)
    = (Ok tt, (with_arrays l' X' sol' d, w')) /\
    forall k,
      rows X' k
      = rows (Data.X d) k
        ++ List.concat (map (fun inst => loader_X_rows inst k) (values l')) /\
      rows sol' k
      = rows (Data.sol d) k
        ++ List.concat (map (fun inst => loader_sol_rows inst k) (values l')).
Proof.
  intros Hnd Hp.
  destruct (@prepare_loop_ok _ (Data.data d) w l' w' Hp [] d eq_refl Hnd)
    as (X' & sol' & Hloop & Hspec).
  exists X', sol'. split.
  - unfold Data.prepare_training_data.
    unfold bind at 1, Data.self at 1. simpl. exact Hloop.
  - intros k. destruct (Hspec k) as [[Hr _] [Hrs _]]. auto.
Qed.

End ManagerEdges.

(** *** [Data.get_ice_coordinates] *)

Section ManagerReads.
Import DataFacts PyDictFacts.
Context {F : Type}.
Implicit Types (d : Data.t F) (w : World F).

(** [reads mask_name w l css]: on every loader of [l],
    [get_ice_coordinates(mask_name)] returns the rows listed in [css] and
    changes neither the loader nor the world. *)
Definition reads (mask_name : string) w
    (l : dict (DataBase.instance F)) (css : list (coords F)) : Prop :=
  Forall2 (fun (kv : string * DataBase.instance F) rows =>
             DataBase.get_ice_coordinates (fst (snd kv)) mask_name
               (snd (snd kv), w)
             = (Ok rows, (snd (snd kv), w))) l css.

Lemma set_data_same d : Data.set_data (Data.data d) d = d.
Proof. now destruct d. Qed.

Lemma call_pure {A : Type} done k c o r d w
    (meth : DataBase.class F -> M (DataBase.St F) A) res :
  Data.data d = done ++ (k, (c, o)) :: r ->
  ~ In k (keys done) ->
  meth c (o, w) = (res, (o, w)) ->
  Data.call k meth (d, w) = (res, (d, w)).
Proof.
  intros Hd Hnot Hm.
  rewrite (@call_at _ A done k c o r d w meth res o w Hd Hnot Hm).
  destruct d. simpl in *. now subst.
Qed.

Lemma ice_coordinates_of_reads mask_name w todo css :
  reads mask_name w todo css ->
  forall done d,
  Data.data d = done ++ todo ->
  NoDup (keys (done ++ todo)) ->
  Data.ice_coordinates_of mask_name (keys todo) (d, w) = (Ok css, (d, w)).
Proof.
  induction 1 as [|[k [c o]] rows l css Hk _ IH]; intros done d Hd Hnd.
  - reflexivity.
  - destruct (NoDup_keys_middle _ _ _ _ Hnd) as [Hnot Hnd']. simpl in Hk.
    change (keys ((k, (c, o)) :: l)) with (k :: keys l).
    cbn [Data.ice_coordinates_of].
    rewrite (bind_ok _ _ _
               (@call_pure _ done k c o l d w
                  (fun cls => DataBase.get_ice_coordinates cls mask_name)
                  (Ok rows) Hd Hnot Hk)).
    rewrite (bind_ok _ _ _ (IH (done ++ [(k, (c, o))]) d
                              ltac:(now rewrite <- app_assoc)
                              ltac:(apply Hnd'))).
    reflexivity.
Qed.

(** [Data.get_ice_coordinates] stacks the loaders' ice coordinates in the
    order of [self.data] and changes nothing; a manager without sources
    makes it raise [ValueError], there being nothing to stack. *)
Theorem get_ice_coordinates_stacks mask_name d w css :
  NoDup (keys (Data.data d)) ->
  reads mask_name w (Data.data d) css ->
  (Data.data d <> [] ->
   Data.get_ice_coordinates mask_name (d, w) = (Ok (List.concat css), (d, w))) /\
  (Data.data d = [] ->
   Data.get_ice_coordinates mask_name (d, w)
   = (Raise (ValueError "need at least one array to concatenate"), (d, w))).
Proof.
  intros Hnd Hr.
  pose proof (@ice_coordinates_of_reads mask_name w (Data.data d) css Hr
                [] d eq_refl Hnd) as Hrun.
  assert (Hget : Data.get_ice_coordinates mask_name (d, w)
                 = match css with
                   | [] => (Raise (ValueError "need at least one array to concatenate"),
                            (d, w))
                   | _ => (Ok (List.concat css), (d, w))
                   end).
  { unfold Data.get_ice_coordinates.
    unfold bind at 1, Data.self at 1. simpl.
    rewrite (bind_ok _ _ _ Hrun). now destruct css. }
  rewrite Hget. split; intros Hd.
  - destruct css as [|c css]; [|reflexivity].
    inversion Hr as [E|]; subst. symmetry in E. contradiction.
  - rewrite Hd in Hr. inversion Hr; subst. reflexivity.
Qed.

End ManagerReads.

(** *** A manager whose sources are all ISSM models *)

Section ManagerOfISSM.
Import DataBase ISSMmdData ISSMFacts DataFacts PyDictFacts.
Context {F : Type} `{Scalar F} `{Constants F}.
Implicit Types (o : DataBase.t F) (w : World F).

(** The dictionaries a round produces have no repeated key. *)
Lemma sampled_nodup ds iice (X_temp : coords F) idbc X_bc k
    (s s' : DataBase.St F) dx dsol :
  sampled ds iice X_temp idbc X_bc k s s' ->
  X (fst s) = Some dx -> sol (fst s) = Some dsol ->
  NoDup (keys dx) -> NoDup (keys dsol) ->
  exists dx' dsol',
    X (fst s') = Some dx' /\ sol (fst s') = Some dsol' /\
    NoDup (keys dx') /\ NoDup (keys dsol').
Proof.
  intros Hs HX Hsol Hnx Hns.
  destruct Hs as [s Hm | o w dx0 dsol0 a solk Hsz HX0 Hsol0 Ha Hsk
                 | o w dx0 dsol0 n a sol_temp idx g' Xk solk Hsz HX0 Hsol0 Ha Hst Hc HXk Hsk];
    simpl in *.
  - eauto 10.
  - assert (dx0 = dx) as -> by congruence. assert (dsol0 = dsol) as -> by congruence.
    eexists _, _. split; [reflexivity|]. split; [reflexivity|].
    split; now apply keys_nodup_set.
  - assert (dx0 = dx) as -> by congruence. assert (dsol0 = dsol) as -> by congruence.
    eexists _, _. split; [reflexivity|]. split; [reflexivity|].
    split; now apply keys_nodup_set.
Qed.

Lemma sampled_all_nodup ds iice (X_temp : coords F) idbc X_bc ks
    (s s' : DataBase.St F) :
  sampled_all ds iice X_temp idbc X_bc ks s s' ->
  forall dx dsol,
  X (fst s) = Some dx -> sol (fst s) = Some dsol ->
  NoDup (keys dx) -> NoDup (keys dsol) ->
  exists dx' dsol',
    X (fst s') = Some dx' /\ sol (fst s') = Some dsol' /\
    NoDup (keys dx') /\ NoDup (keys dsol').
Proof.
  induction 1 as [s|k r s1 s2 s3 Hk _ IH]; intros dx dsol HX Hsol Hnx Hns.
  - eauto 10.
  - destruct (sampled_nodup Hk HX Hsol Hnx Hns)
      as (dx1 & dsol1 & HX1 & Hsol1 & Hnx1 & Hns1).
    eapply IH; eauto.
Qed.

(** The rows an ISSM loader will hold for [k] after sampling with its
    configured [data_size]. *)
Definition loader_expected (inst : DataBase.instance F) (k : string) : nat :=
  match get (mask_dict (snd inst)) "icemask",
        get (mask_dict (snd inst)) "DBC_mask" with
  | Some icemask, Some DBC =>
      match expected_rows (parameter.data_size (DataBase.parameters (snd inst)))
              (data_dict (snd inst)) icemask DBC k with
      | Some n => n
      | None => 0
      end
  | _, _ => 0
  end.

(** A loaded ISSM loader whose configured counts are not negative. *)
Definition issm_ready (inst : DataBase.instance F) : Prop :=
  fst inst = ISSMmdData.cls /\
  exists x y icemask DBC,
    loaded (snd inst) x y icemask DBC /\
    counts_ok (parameter.data_size (DataBase.parameters (snd inst))) (snd inst).

Lemma issm_prepares l : forall w,
  Forall issm_ready (values l) ->
  exists l' w',
    prepares l w l' w' /\
    forall k,
      map (fun inst => List.length (loader_X_rows inst k)) (values l')
        = map (fun inst => loader_expected inst k) (values l) /\
      map (fun inst => List.length (loader_sol_rows inst k)) (values l')
        = map (fun inst => loader_expected inst k) (values l).
Proof.
  induction l as [|[k0 [c o]] l IH]; intros w Hall.
  - exists [], w. split; [constructor | intros k; auto].
  - inversion Hall as [|? ? Hready Hall']; subst.
    destruct Hready as [Hc (x & y & icemask & DBC & Hl & Hcounts)].
    simpl in Hc, Hl, Hcounts. subst c.
    destruct (prepare_training_data_loaded None w Hl Hcounts)
      as (xi & yi & xb & yb & [o' w1] & _ & _ & _ & _ & Hrun & Hsampled).
    destruct (sampled_all_nodup Hsampled (dx:=empty) (dsol:=empty)
                eq_refl eq_refl (NoDup_nil _) (NoDup_nil _))
      as (dx & dsol & HX & Hsol & Hnx & Hns).
    simpl in HX, Hsol.
    destruct (IH w1 Hall') as (l' & w' & Hp & Hcount).
    exists ((k0, (ISSMmdData.cls, o')) :: l'), w'. split.
    + eapply prepares_cons; eauto.
    + intros k. destruct (Hcount k) as [HcX Hcs].
      destruct (@prepare_training_data_rows _ _ None o w x y icemask DBC o' w1 k
                  Hl Hcounts Hrun) as [HrX Hrs].
      destruct Hl as [_ _ Hice HDBC _ _ _ _].
      unfold X_at in HrX. unfold sol_at in Hrs. rewrite HX in HrX.
      rewrite Hsol in Hrs. simpl in HrX, Hrs.
      assert (HhX : List.length (loader_X_rows (ISSMmdData.cls, o') k)
                    = loader_expected (ISSMmdData.cls, o) k).
      { unfold loader_X_rows, loader_expected, rows. simpl.
        rewrite HX, Hice, HDBC, <- HrX. unfold coords in *.
        destruct (get dx k); reflexivity. }
      assert (Hhs : List.length (loader_sol_rows (ISSMmdData.cls, o') k)
                    = loader_expected (ISSMmdData.cls, o) k).
      { unfold loader_sol_rows, loader_expected, rows. simpl.
        rewrite Hsol, Hice, HDBC, <- Hrs. unfold column in *.
        destruct (get dsol k); reflexivity. }
      simpl. now rewrite HcX, Hcs, HhX, Hhs.
Qed.

(** On a freshly built manager whose sources are loaded ISSM models, none
    asked for a negative count, [prepare_training_data] returns, and for
    every field the aggregate [X] and [sol] have as many rows as the
    sources' budgets add up to: per source the smaller of its count and
    its number of ice vertices, or its number of boundary vertices for
    [None], and nothing when the source lacks or does not request the
    field. *)
Theorem prepare_training_data_totals (d : Data.t F) w :
  NoDup (keys (Data.data d)) ->
  Data.X d = empty -> Data.sol d = empty ->
  Forall issm_ready (values (Data.data d)) ->
  exists s',
    Data.prepare_training_data (d, w) = (Ok tt, s') /\
    forall k,
      List.length (rows (Data.X (fst s')) k)
        = list_sum (map (fun inst => loader_expected inst k) (values (Data.data d))) /\
      List.length (rows (Data.sol (fst s')) k)
        = list_sum (map (fun inst => loader_expected inst k) (values (Data.data d))).
Proof.
  intros Hnd HX Hsol Hall.
  destruct (issm_prepares (Data.data d) w Hall) as (l' & w' & Hp & Hcount).
  destruct (@prepare_loop_ok _ (Data.data d) w l' w' Hp [] d eq_refl Hnd)
    as (X' & sol' & Hloop & Hspec).
  eexists. split.
  - unfold Data.prepare_training_data.
    unfold bind at 1, Data.self at 1. simpl. exact Hloop.
  - intros k. destruct (Hspec k) as [[Hr _] [Hrs _]].
    destruct (Hcount k) as [HcX Hcs]. simpl.
    rewrite Hr, Hrs, HX, Hsol. simpl.
    now rewrite !length_concat_map, HcX, Hcs.
Qed.

(** A fresh ISSM loader whose file is there, with the ten fields, all of
    one length. *)
Definition issm_source (fs : dict (MatFile F)) (inst : DataBase.instance F)
  : Prop :=
  fst inst = ISSMmdData.cls /\
  data_dict (snd inst) = empty /\
  exists data md x y vx_obs vy_obs surface thickness friction rheology_B
         ice_levelset vertexonboundary,
    get fs (data_path (DataBase.parameters (snd inst))) = Some data /\
    get data "md" = Some md /\
    is_model md x y vx_obs vy_obs surface thickness friction rheology_B
      ice_levelset vertexonboundary /\
    Forall (fun a : array F => List.length a = List.length x)
      [y; vx_obs; vy_obs; surface; thickness; friction; rheology_B;
       ice_levelset; vertexonboundary].

Definition is_loaded (inst : DataBase.instance F) : Prop :=
  exists x y icemask DBC, loaded (snd inst) x y icemask DBC.

Definition source_path (inst : DataBase.instance F) : string :=
  data_path (DataBase.parameters (snd inst)).

Lemma issm_loads l : forall w,
  Forall (issm_source (files w)) (values l) ->
  exists l' w',
    loads l w l' w' /\
    Forall is_loaded (values l') /\
    files w' = files w /\
    io_log w' = io_log w ++ map source_path (values l).
Proof.
  induction l as [|[k0 [c o]] l IH]; intros w Hall.
  - exists [], w. split; [constructor|]. split; [constructor|].
    simpl. now rewrite app_nil_r.
  - inversion Hall as [|? ? Hsrc Hall']; subst.
    destruct Hsrc as
      (Hc & Hdd & data & md & x & y & vx & vy & sf & th & fr & rb & ice & bnd
          & Hfile & Hmd & Hmodel & Hlens).
    simpl in Hc, Hdd, Hfile. subst c.
    destruct (@load_data_loaded _ _ _ o w data md x y vx vy sf th fr rb ice bnd
                Hfile Hmd Hmodel Hlens) as (o' & w1 & Hrun & Hloaded).
    { rewrite Hdd. intros k a. discriminate. }
    assert (Hw1 : w1 = read_world (data_path (DataBase.parameters o)) w).
    { assert (Hvel : List.length vx = List.length vy).
      { inversion Hlens as [|? ? _ Hl1]; subst.
        inversion Hl1 as [|? ? Hvx Hl2]; subst.
        inversion Hl2 as [|? ? Hvy _]; subst. congruence. }
      pose proof (@load_data_eq _ _ _ o w data md x y vx vy sf th fr rb ice bnd
                    Hfile Hmd Hmodel Hvel) as Heq.
      rewrite Hrun in Heq. now injection Heq. }
    assert (Hfiles : files w1 = files w) by now subst w1.
    assert (Hlog : io_log w1 = io_log w ++ [data_path (DataBase.parameters o)])
      by now subst w1.
    destruct (IH w1) as (l' & w' & Hl & Hld & Hfiles' & Hlog').
    { now rewrite Hfiles. }
    exists ((k0, (ISSMmdData.cls, o')) :: l'), w'.
    split; [eapply loads_cons; eauto|].
    split; [constructor; [exists x, y, ice, bnd; exact Hloaded | exact Hld]|].
    split; [congruence|].
    rewrite Hlog', Hlog. simpl. unfold source_path at 2. simpl.
    now rewrite <- app_assoc.
Qed.

(** When every source of the manager is a fresh ISSM loader whose file
    holds an index-aligned model, [Data.load_data] returns with every
    loader loaded, having read the sources' files in the order of
    [self.data], each once. *)
Theorem load_data_all_sources (d : Data.t F) w :
  NoDup (keys (Data.data d)) ->
  Forall (issm_source (files w)) (values (Data.data d)) ->
  exists s',
    Data.load_data (d, w) = (Ok tt, s') /\
    Forall is_loaded (values (Data.data (fst s'))) /\
    io_log (snd s') = io_log w ++ map source_path (values (Data.data d)).
Proof.
  intros Hnd Hall.
  destruct (issm_loads (Data.data d) w Hall) as (l' & w' & Hl & Hld & _ & Hlog).
  eexists. split.
  - unfold Data.load_data. unfold bind at 1, Data.self at 1. simpl.
    apply (@load_loop_ok _ (Data.data d) [] d w l' w'); auto.
  - simpl. auto.
Qed.

End ManagerOfISSM.

(* ================================================================== *)
(** ** The five-vertex model: the edges *)

Module ScenarioEdges.
Import Example Scenario ISSMFacts DataFacts.

Local Open Scope float_scope.



Local Close Scope float_scope.

Definition fresh (p : string) : DataBase.t float :=
  ISSMmdData.__init__ (hp p u3_C).

Lemma missing_file_witness :
  ISSMmdData.load_data (fresh "missing.mat", world)
  = (Raise (OSError "missing.mat"),
     (fresh "missing.mat", world_read ["missing.mat"])).
Proof.
  apply (@load_data_missing_file float _ _ (fresh "missing.mat") world).
  reflexivity.
Defined.

Lemma model_example :
  is_model md mesh_x mesh_y vx_obs vy_obs surface thickness friction_C
    rheology_B ice_levelset vertexonboundary.
Proof. constructor; reflexivity. Qed.

Lemma twice_witness :
  exists o1 w1,
    ISSMmdData.load_data (fresh path, world) = (Ok tt, (o1, w1)) /\
    ISSMmdData.load_data (o1, w1) = (Ok tt, (o1, read_world path w1)).
Proof.
  apply (@load_data_twice float _ _ (fresh path) world Helheim md
           mesh_x mesh_y vx_obs vy_obs surface thickness friction_C rheology_B
           ice_levelset vertexonboundary).
  - reflexivity.
  - reflexivity.
  - apply model_example.
  - reflexivity.
Defined.


Lemma aligned_witness :
  exists o' w',
    ISSMmdData.load_data (fresh path, world) = (Ok tt, (o', w')) /\
    loaded o' mesh_x mesh_y ice_levelset vertexonboundary.
Proof.
  destruct (@load_data_aligned float _ _ (fresh path) world Helheim md
              mesh_x mesh_y vx_obs vy_obs surface thickness friction_C
              rheology_B ice_levelset vertexonboundary)
    as (o' & w' & Hrun & Hl & _).
  - reflexivity.
  - reflexivity.
  - apply model_example.
  - repeat constructor.
  - intros k a. discriminate.
  - exists o', w'. auto.
Defined.

Lemma named_mask_witness :
  ISSMmdData.get_ice_indices "DBC_mask" (loader path u3_C, world)
  = (Ok [], (loader path u3_C, world)).
Proof.
  destruct (@get_ice_indices_named_mask float _ (loader path u3_C) world
              "DBC_mask" vertexonboundary) as (Hrun & _ & _).
  - discriminate.
  - reflexivity.
  - exact Hrun.
Defined.

Lemma ice_coordinates_witness :
  exists rows,
    ISSMmdData.get_ice_coordinates "" (loader path u3_C, world)
    = (Ok rows, (loader path u3_C, world)) /\
    List.length rows = 4.
Proof.
  destruct (@get_ice_coordinates_rows float _ (loader path u3_C) world
              mesh_x mesh_y ice_levelset vertexonboundary "")
    as (rows & Hrun & Hlen & _).
  - apply loader_loaded.
  - left. reflexivity.
  - exists rows. split; [exact Hrun | exact Hlen].
Defined.

Lemma not_loaded_witness :
  ISSMmdData.get_ice_coordinates "" (fresh path, world)
    = (Raise (KeyError "icemask"), (fresh path, world)) /\
  ISSMmdData.prepare_training_data None (fresh path, world)
    = (Raise (KeyError "icemask"), (with_samples empty empty (fresh path), world)).
Proof.
  apply (@not_loaded_raises float _ (fresh path) world "" None).
  - reflexivity.
  - left. reflexivity.
Defined.

(** [data_size = {"u": -1}] *)
Definition u_negative : dict (option Z) := [ ("u", Some (-1)%Z) ].

Lemma returns_iff_witness :
  exists msg s',
    ISSMmdData.prepare_training_data None (loader path u_negative, world)
    = (Raise (ValueError msg), s').
Proof.
  apply (@prepare_training_data_returns_iff float _ None (loader path u_negative)
           world mesh_x mesh_y ice_levelset vertexonboundary).
  - apply loader_loaded.
  - exists "u", (-1)%Z. simpl. split; [auto|]. split; [reflexivity | lia].
Defined.

Lemma clamped_witness :
  exists o' w' Xk solk vs,
    ISSMmdData.prepare_training_data None (loader path u9_s2, world)
      = (Ok tt, (o', w')) /\
    X_at o' "u" = Some Xk /\ sol_at o' "u" = Some solk /\
    Permutation vs [0; 1; 3; 4] /\ coords_at mesh_x mesh_y vs Xk.
Proof.
  destruct (@prepare_training_data_clamped float _ None (loader path u9_s2)
              world mesh_x mesh_y ice_levelset vertexonboundary "u" 9%Z)
    as (o' & w' & Xk & solk & a & vs & Hrun & HX & Hs & Hp & _ & Hc & _).
  - apply loader_loaded.
  - check_counts.
  - simpl. auto.
  - reflexivity.
  - simpl. lia.
  - exists o', w', Xk, solk, vs. auto.
Defined.

Lemma row_counts_witness :
  exists o' w',
    ISSMmdData.prepare_training_data None (loader path u3_C, world)
      = (Ok tt, (o', w')) /\
    option_map (@List.length _) (X_at o' "C") = Some 2 /\
    option_map (@List.length _) (sol_at o' "C") = Some 2.
Proof.
  destruct (@prepare_training_data_row_counts float _ None (loader path u3_C)
              world mesh_x mesh_y ice_levelset vertexonboundary)
    as (o' & w' & Hrun & Hrows).
  - apply loader_loaded.
  - check_counts.
  - exists o', w'. split; [exact Hrun|].
    destruct (Hrows "C") as [HX Hs]. rewrite Hs, HX. split; reflexivity.
Defined.

Lemma again_witness :
  exists o1 w1 o2 w2,
    ISSMmdData.prepare_training_data (Some u3_C) (loader path u3_C, world)
      = (Ok tt, (o1, w1)) /\
    ISSMmdData.prepare_training_data (Some u9_s2) (o1, w1) = (Ok tt, (o2, w2)) /\
    option_map (@List.length _) (X_at o2 "u") = Some 4 /\
    option_map (@List.length _) (X_at o2 "C") = None.
Proof.
  destruct (@prepare_training_data_again float _ (Some u3_C) (Some u9_s2)
              (loader path u3_C) world mesh_x mesh_y ice_levelset vertexonboundary)
    as (o1 & w1 & o2 & w2 & Hrun1 & Hrun2 & Hrows).
  - apply loader_loaded.
  - check_counts.
  - check_counts.
  - exists o1, w1, o2, w2. split; [exact Hrun1|]. split; [exact Hrun2|].
    destruct (Hrows "u") as [Hu _]. destruct (Hrows "C") as [HC _].
    rewrite Hu, HC. split; reflexivity.
Defined.

(** *** The manager *)

(** A second class that takes the tag of [ISSMmdData] and loads nothing. *)
Definition ISSM_stub : DataBase.class float :=
  {| DataBase._DATA_TYPE := "ISSM";
     DataBase.init := ISSMmdData.__init__;
     DataBase.get_ice_coordinates := fun _ => ret [];
     DataBase.load_data := ret tt;
     DataBase.prepare_training_data := ret tt |}.

Lemma last_wins_witness :
  DataBase.create (DataBase.__init_subclass__ subclasses ISSM_stub)
    "ISSM" (hp path u3_C) world
  = (Ok (ISSM_stub, ISSMmdData.__init__ (hp path u3_C)), world).
Proof.
  apply (@init_subclass_last_wins float empty ISSMmdData.cls ISSM_stub
           "FOO" (hp path u3_C) world).
  reflexivity.
Defined.

(** A source whose tag nobody registered. *)
Definition foo_source : DataParameter :=
  {| parameter.data :=
       [ ("Helheim", hp path u3_C);
         ("other", {| source := "FOO"; data_path := path; data_size := [] |}) ] |}.

Lemma init_builds_witness :
  (exists d,
     Data.__init__ subclasses one_source world = (Ok d, world) /\
     get (Data.data d) "Helheim"
     = Some (ISSMmdData.cls, ISSMmdData.__init__ (hp path u3_C))) /\
  exists msg,
    Data.__init__ subclasses foo_source world = (Raise (ValueError msg), world).
Proof.
  split.
  - destruct (proj1 (@Data_init_builds float subclasses one_source world
                       ltac:(check_nodup))) as (d & Hrun & _ & _ & _ & Hget).
    + intros k pk. simpl. destruct (String.eqb k "Helheim"); [|discriminate].
      intros E. injection E as <-. exists ISSMmdData.cls. reflexivity.
    + exists d. split; [exact Hrun|].
      destruct (Hget "Helheim" (hp path u3_C) eq_refl) as (cls & Hcls & Hd).
      simpl in Hcls. injection Hcls as <-. exact Hd.
  - apply (proj2 (@Data_init_builds float subclasses foo_source world
                    ltac:(check_nodup))).
    exists "other", {| source := "FOO"; data_path := path; data_size := [] |}.
    split; reflexivity.
Defined.

Lemma appends_witness :
  exists s',
    Data.prepare_training_data (manager2, world) = (Ok tt, s') /\
    List.length (rows (Data.X (fst s')) "u") = 7.
Proof.
  destruct manager2_prepares as (l' & w' & Hp & Hu & _).
  destruct (@prepare_training_data_appends float manager2 world l' w')
    as (X' & sol' & Hrun & Hspec).
  - check_nodup.
  - exact Hp.
  - eexists. split; [exact Hrun|]. simpl.
    destruct (Hspec "u") as [HX _]. rewrite HX. simpl.
    rewrite length_concat_map, Hu. reflexivity.
Defined.

Lemma manager2_reads :
  exists css,
    reads "" world (Data.data manager2) css /\
    map (@List.length _) css = [4; 4].
Proof.
  eexists. split.
  - constructor; [vm_compute; reflexivity|].
    constructor; [vm_compute; reflexivity|]. constructor.
  - reflexivity.
Qed.

Lemma stacks_witness :
  exists rows,
    Data.get_ice_coordinates "" (manager2, world) = (Ok rows, (manager2, world)) /\
    List.length rows = 8.
Proof.
  destruct manager2_reads as (css & Hr & Hlen).
  destruct (@get_ice_coordinates_stacks float "" manager2 world css)
    as [Hrun _].
  - check_nodup.
  - exact Hr.
  - exists (List.concat css). split; [apply Hrun; discriminate|].
    rewrite length_concat, Hlen. reflexivity.
Defined.

Lemma manager2_ready : Forall issm_ready (values (Data.data manager2)).
Proof.
  repeat constructor; simpl;
    exists mesh_x, mesh_y, ice_levelset, vertexonboundary;
    (split; [apply loader_loaded | check_counts]).
Qed.

Lemma totals_witness :
  exists s',
    Data.prepare_training_data (manager2, world) = (Ok tt, s') /\
    List.length (rows (Data.X (fst s')) "u") = 3 + 4 /\
    List.length (rows (Data.sol (fst s')) "s") = 0 + 2.
Proof.
  destruct (@prepare_training_data_totals float _ _ manager2 world)
    as (s' & Hrun & Hrows).
  - check_nodup.
  - reflexivity.
  - reflexivity.
  - apply manager2_ready.
  - exists s'. split; [exact Hrun|].
    destruct (Hrows "u") as [Hu _]. destruct (Hrows "s") as [_ Hs].
    rewrite Hu, Hs. split; reflexivity.
Defined.

(** The manager of two sources reading the same file, before
    [load_data]. *)
Definition manager2_fresh : Data.t float :=
  {| Data.parameters := Data.parameters manager2;
     Data.data := [ ("a", (ISSMmdData.cls, ISSMmdData.__init__ (hp path u3_C)));
                    ("b", (ISSMmdData.cls, ISSMmdData.__init__ (hp path u9_s2))) ];
     Data.X := empty; Data.sol := empty |}.

Lemma manager2_sources :
  Forall (issm_source (files world)) (values (Data.data manager2_fresh)).
Proof.
  repeat constructor; simpl;
    exists Helheim, md, mesh_x, mesh_y, vx_obs, vy_obs, surface, thickness,
      friction_C, rheology_B, ice_levelset, vertexonboundary;
    (split; [reflexivity|]); (split; [reflexivity|]);
    (split; [apply model_example | repeat constructor]).
Qed.

Lemma all_sources_witness :
  exists s',
    Data.load_data (manager2_fresh, world) = (Ok tt, s') /\
    io_log (snd s') = [path; path].
Proof.
  destruct (@load_data_all_sources float _ _ manager2_fresh world)
    as (s' & Hrun & _ & Hlog).
  - check_nodup.
  - apply manager2_sources.
  - exists s'. split; [exact Hrun | exact Hlog].
Defined.

End ScenarioEdges.
